(** * sw4rm: the conversation engine (core.ts) and its utilities (utils.ts)

    A shallow embedding of the orchestration code of the repository:
    [mergeFields], [mergeChunk], [retry] and [parseArguments] from
    [src/utils.ts], the error classes of [src/errors.ts], and
    [OpenAIClient.createChatCompletion], [Swarm.getChatCompletion],
    [Swarm.handleToolCalls], [Swarm.run], [Swarm.streamGenerator] and
    [Swarm.runStream] from [src/core.ts].

    JavaScript values are an inductive type; asynchronous, effectful code is
    written in a state-and-exception monad over a world made of the external
    collaborators' state, a heap of the mutable arrays and objects the engine
    shares by reference, and a trace of the observable effects (provider
    requests, tool invocations, warnings, sleeps). *)

From Stdlib Require Import ZArith List Bool Lia.
From stdpp Require Import base strings list pretty.

Set Warnings "-register-all".
Local Open Scope string_scope.
Local Open Scope Z_scope.

(** ** JavaScript values *)

Module Js.

(** The values that cross the engine untyped ([any], [unknown],
    [Record<string, any>]): JSON data.  Numbers are restricted to integers;
    the engine does no arithmetic on payload numbers.  An object is the list
    of its own enumerable properties in [Object.entries] order. *)
Inductive JValue : Type :=
| JUndef
| JNull
| JBool (b : bool)
| JNum (n : Z)
| JStr (s : string)
| JArr (items : list JValue)
| JObj (fields : list (string * JValue)).

(** What a [throw] carries: an [Error] instance (with the [code] and [cause]
    the classes of errors.ts add) or any other value. *)
Inductive Thrown : Type :=
| ErrorObj (e_name e_message : string) (e_code : option string)
           (e_cause : option Thrown)
| NonError (v : JValue).

Definition TypeError (msg : string) : Thrown :=
  ErrorObj "TypeError" msg None None.

(** [new Error(message)] *)
Definition Error (msg : string) : Thrown := ErrorObj "Error" msg None None.

(** Synchronous fallible code: a value or a thrown exception. *)
Definition Exc (A : Type) : Type := Thrown + A.

Definition exc_bind {A B} (m : Exc A) (k : A -> Exc B) : Exc B :=
  match m with inl t => inl t | inr a => k a end.

Notation "'do' x <- m ; k" := (exc_bind m (fun x => k))
  (at level 10, x pattern, m at level 100, k at level 200).

(** Truthiness, as tested by [if (v)], [!v] and [v || w]. *)
Definition truthy (v : JValue) : bool :=
  match v with
  | JUndef | JNull => false
  | JBool b => b
  | JNum n => negb (n =? 0)
  | JStr s => negb (String.eqb s "")
  | JArr _ | JObj _ => true
  end.


Fixpoint join_with (sep : string) (l : list string) : string :=
  match l with
  | [] => ""
  | [s] => s
  | s :: rest => s ++ sep ++ join_with sep rest
  end.

(** [String(v)], also the conversion of a template literal and of a computed
    property key. *)
Fixpoint js_String (v : JValue) : string :=
  match v with
  | JUndef => "undefined"
  | JNull => "null"
  | JBool true => "true"
  | JBool false => "false"
  | JNum n => pretty n
  | JStr s => s
  | JArr items =>
      join_with ","
        (map (fun x => match x with JUndef | JNull => "" | _ => js_String x end) items)
  | JObj _ => "[object Object]"
  end.

(** An array index key: the canonical decimal spelling of a natural number. *)
Definition index_of_key (bound : nat) (k : string) : option nat :=
  find (fun i => String.eqb (pretty (N.of_nat i)) k) (seq 0 bound).

Definition key_of_index (i : nat) : string := pretty (N.of_nat i).

Fixpoint assoc (k : string) (fs : list (string * JValue)) : option JValue :=
  match fs with
  | [] => None
  | (k', v) :: rest => if String.eqb k k' then Some v else assoc k rest
  end.

Fixpoint assoc_remove (k : string) (fs : list (string * JValue))
  : list (string * JValue) :=
  match fs with
  | [] => []
  | (k', v) :: rest =>
      if String.eqb k k' then assoc_remove k rest
      else (k', v) :: assoc_remove k rest
  end.

Definition is_digit (c : Ascii.ascii) : bool :=
  let n := Ascii.nat_of_ascii c in (48 <=? n)%nat && (n <=? 57)%nat.

Fixpoint all_digits (s : string) : bool :=
  match s with
  | EmptyString => true
  | String c rest => is_digit c && all_digits rest
  end.

Fixpoint digits_value (acc : N) (s : string) : N :=
  match s with
  | EmptyString => acc
  | String c rest =>
      digits_value (acc * 10 + N.of_nat (Ascii.nat_of_ascii c - 48))%N rest
  end.

(** Integer-like property keys are enumerated first, in ascending order. *)
Definition integer_key (k : string) : option N :=
  match k with
  | EmptyString => None
  | _ =>
      if all_digits k then
        let n := digits_value 0%N k in
        if String.eqb (pretty n) k then Some n else None
      else None
  end.

(** Insertion of a new own property at its place in enumeration order. *)
Fixpoint insert_field (k : string) (v : JValue) (fs : list (string * JValue))
  : list (string * JValue) :=
  match fs with
  | [] => [(k, v)]
  | (k', v') :: rest =>
      match integer_key k, integer_key k' with
      | Some n, Some n' =>
          if (n <? n')%N then (k, v) :: fs else (k', v') :: insert_field k v rest
      | Some _, None => (k, v) :: fs
      | None, _ => (k', v') :: insert_field k v rest
      end
  end.

Fixpoint replace_field (k : string) (v : JValue) (fs : list (string * JValue))
  : list (string * JValue) :=
  match fs with
  | [] => []
  | (k', v') :: rest =>
      if String.eqb k k' then (k', v) :: rest
      else (k', v') :: replace_field k v rest
  end.

Definition set_field (k : string) (v : JValue) (fs : list (string * JValue))
  : list (string * JValue) :=
  match assoc k fs with
  | Some _ => replace_field k v fs
  | None => insert_field k v fs
  end.

Definition indexed (items : list JValue) : list (string * JValue) :=
  imap (fun i x => (key_of_index i, x)) items.

Fixpoint string_chars (s : string) : list JValue :=
  match s with
  | EmptyString => []
  | String c rest => JStr (String c EmptyString) :: string_chars rest
  end.

(** [Object.entries(v)] *)
Definition entries (v : JValue) : Exc (list (string * JValue)) :=
  match v with
  | JUndef | JNull =>
      inl (TypeError "Cannot convert undefined or null to object")
  | JObj fs => inr fs
  | JArr items => inr (indexed items)
  | JStr s => inr (indexed (string_chars s))
  | JBool _ | JNum _ => inr []
  end.

Definition nth_or_undef (items : list JValue) (bound : nat) (key : string)
  : JValue :=
  match index_of_key bound key with
  | Some i => default JUndef (items !! i)
  | None => JUndef
  end.

(** [target[key]]: a missing property reads as [undefined]; reading a
    property of [null] or [undefined] throws. *)
Definition get_prop (target : JValue) (key : string) : Exc JValue :=
  match target with
  | JUndef | JNull =>
      inl (TypeError ("Cannot read properties of " ++ js_String target
                        ++ " (reading '" ++ key ++ "')"))
  | JObj fs => inr (default JUndef (assoc key fs))
  | JArr items =>
      if String.eqb key "length" then inr (JNum (Z.of_nat (length items)))
      else inr (nth_or_undef items (length items) key)
  | JStr s =>
      if String.eqb key "length" then inr (JNum (Z.of_nat (String.length s)))
      else inr (nth_or_undef (string_chars s) (String.length s) key)
  | JBool _ | JNum _ => inr JUndef
  end.

(** [target[key] = v] in strict-mode code (ES modules and class bodies):
    assigning a property of a primitive throws.  An array written outside
    its range, or under a key that is not an index, is continued as the
    object of its own properties: the code below reads targets only through
    their enumerable properties, which this keeps in order. *)
Definition set_prop (target : JValue) (key : string) (v : JValue) : Exc JValue :=
  match target with
  | JObj fs => inr (JObj (set_field key v fs))
  | JArr items =>
      match index_of_key (S (length items)) key with
      | Some i =>
          if (i <? length items)%nat then inr (JArr (<[i:=v]> items))
          else inr (JArr (items ++ [v]))
      | None => inr (JObj (set_field key v (indexed items)))
      end
  | JUndef | JNull =>
      inl (TypeError ("Cannot set properties of " ++ js_String target
                        ++ " (setting '" ++ key ++ "')"))
  | _ =>
      inl (TypeError ("Cannot create property '" ++ key ++ "' on "
                        ++ js_String target))
  end.

(** [delete target[key]]; a no-op on primitives, a [TypeError] on [null]
    and [undefined].  The keys the code deletes are never array indices. *)
Definition delete_prop (target : JValue) (key : string) : Exc JValue :=
  match target with
  | JObj fs => inr (JObj (assoc_remove key fs))
  | JUndef | JNull =>
      inl (TypeError "Cannot convert undefined or null to object")
  | _ => inr target
  end.

(** [{ ...v }]: a fresh object with the own enumerable properties of [v];
    spreading [null] or [undefined] gives the empty object. *)
Definition spread_object (v : JValue) : JValue :=
  JObj (match entries v with inr fs => fs | inl _ => [] end).

(** The elements an iteration ([for ... of], [[...v]]) visits; values other
    than arrays and strings are not iterable. *)
Definition iterate (v : JValue) : Exc (list JValue) :=
  match v with
  | JArr items => inr items
  | JStr s => inr (string_chars s)
  | _ => inl (TypeError (js_String v ++ " is not iterable"))
  end.

(** The own enumerable properties of an object ([[]] for [null] and
    [undefined]). *)
Definition own_properties (v : JValue) : list (string * JValue) :=
  match entries v with inr fs => fs | inl _ => [] end.

(** [Object.assign(target, source)] on the contents of [target]. *)
Definition object_assign (target source : JValue) : Exc JValue :=
  match entries source with
  | inl _ => inr target
  | inr fs =>
      fold_left (fun acc kv => do t <- acc; set_prop t (fst kv) (snd kv))
                fs (inr target)
  end.

(** Storing back a nested object the code mutated in place.  Primitives are
    immutable, so there is nothing to store back into them. *)
Definition write_back (parent : JValue) (key : string) (child : JValue)
  : JValue :=
  match parent, set_prop parent key child with
  | (JObj _ | JArr _), inr p => p
  | _, _ => parent
  end.

End Js.

Import Js.

(** ** utils.ts: merging streamed fragments *)

(** [(target[key] || "") + value] *)
Definition concat_field (old : JValue) (value : string) : string :=
  (if truthy old then js_String old else "") ++ value.

(** One iteration of the loop of [mergeFields]; [recur] is the recursive call
    [mergeFields(target[key], value)] on the nested target. *)
Definition merge_entry (target : JValue) (key : string) (value : JValue)
    (recur : JValue -> Exc JValue) : Exc JValue :=
  match value with
  | JStr s =>
      do old <- get_prop target key;
      set_prop target key (JStr (concat_field old s))
  | JArr _ | JObj _ =>
      do cur <- get_prop target key;
      do t1 <- (if truthy cur then inr target else set_prop target key (JObj []));
      do nested <- get_prop t1 key;
      do nested' <- recur nested;
      inr (write_back t1 key nested')
  | _ => inr target
  end.

Fixpoint mergeFields (target source : JValue) {struct source} : Exc JValue :=
  match source with
  | JObj fs =>
      (fix each (t : JValue) (fs : list (string * JValue)) {struct fs}
         : Exc JValue :=
         match fs with
         | [] => inr t
         | (key, value) :: rest =>
             do t' <- merge_entry t key value
                        (fun nested => mergeFields nested value);
             each t' rest
         end) target fs
  | JArr items =>
      (fix each (t : JValue) (i : nat) (xs : list JValue) {struct xs}
         : Exc JValue :=
         match xs with
         | [] => inr t
         | value :: rest =>
             do t' <- merge_entry t (key_of_index i) value
                        (fun nested => mergeFields nested value);
             each t' (S i) rest
         end) target 0%nat items
  | JStr s =>
      fold_left
        (fun acc kv => do t <- acc; merge_entry t (fst kv) (snd kv) inr)
        (indexed (string_chars s)) (inr target)
  | JUndef | JNull =>
      inl (TypeError "Cannot convert undefined or null to object")
  | JBool _ | JNum _ => inr target
  end.

(** [toolCalls?.length > 0].  A [length] that is not a number is compared as
    JavaScript does for booleans and digit strings; other kinds, which only a
    hand-built object can carry, compare false. *)
Definition length_gt0 (toolCalls : JValue) : bool :=
  match toolCalls with
  | JUndef | JNull => false
  | _ =>
      match get_prop toolCalls "length" with
      | inr (JNum n) => 0 <? n
      | inr (JBool b) => b
      | inr (JStr s) =>
          match integer_key s with Some n => (0 <? n)%N | None => false end
      | _ => false
      end
  end.

(** [const { id, ...restToolCall } = toolCalls[0]] *)
Definition rest_without_id (toolCall : JValue) : Exc JValue :=
  do fs <- entries toolCall; inr (JObj (assoc_remove "id" fs)).

(** [v || ""] *)
Definition or_empty (v : JValue) : JValue := if truthy v then v else JStr "".

(** The record [mergeChunk] creates for a tool-call index it has not seen. *)
Definition new_tool_call (id : JValue) : JValue :=
  JObj [("function", JObj [("arguments", JStr ""); ("name", JStr "")]);
        ("id", or_empty id);
        ("type", JStr "")].

(** [mergeChunk(finalResponse, delta)].  Both arguments are mutated in place;
    the result is the pair of their new contents. *)
Definition mergeChunk (finalResponse delta : JValue) : Exc (JValue * JValue) :=
  do delta <- delete_prop delta "role";
  do fr <- mergeFields finalResponse delta;
  do toolCalls <- get_prop delta "tool_calls";
  if length_gt0 toolCalls then
    do tc0 <- get_prop toolCalls "0";
    do index <- get_prop tc0 "index";
    do tc0 <- delete_prop tc0 "index";
    let delta := write_back delta "tool_calls" (write_back toolCalls "0" tc0) in
    do cur <- get_prop fr "tool_calls";
    do fr <- (if truthy cur then inr fr else set_prop fr "tool_calls" (JObj []));
    do calls <- get_prop fr "tool_calls";
    let key := js_String index in
    do existing <- get_prop calls key;
    do id <- get_prop tc0 "id";
    do calls <-
      (if negb (truthy existing) then set_prop calls key (new_tool_call id)
       else if truthy id then
         do r <- set_prop existing "id" id; inr (write_back calls key r)
       else inr calls);
    do rest <- rest_without_id tc0;
    do record <- get_prop calls key;
    do record <- mergeFields record rest;
    inr (write_back fr "tool_calls" (write_back calls key record), delta)
  else inr (fr, delta).

(** ** errors.ts and types.ts *)

(** The constructors of the error classes: [name], [message], [code],
    [cause]. *)
Definition ValidationError (message : string) (cause : option Thrown) : Thrown :=
  ErrorObj "ValidationError" message (Some "VALIDATION_ERROR") cause.
Definition APIError (message : string) (cause : option Thrown) : Thrown :=
  ErrorObj "APIError" message (Some "API_ERROR") cause.
Definition ToolExecutionError (message : string) (cause : option Thrown)
  : Thrown :=
  ErrorObj "ToolExecutionError" message (Some "TOOL_EXECUTION_ERROR") cause.
Definition TimeoutError (message : string) (cause : option Thrown) : Thrown :=
  ErrorObj "TimeoutError" message (Some "TIMEOUT_ERROR") cause.

(** [error.message] of a caught value, as [(error as Error).message] reads
    it. *)
Definition message_of (t : Thrown) : Exc JValue :=
  match t with
  | ErrorObj _ m _ _ => inr (JStr m)
  | NonError v => get_prop v "message"
  end.

(** [error instanceof Error ? error : new Error(String(error))] *)
Definition as_Error (t : Thrown) : Thrown :=
  match t with
  | ErrorObj _ _ _ _ => t
  | NonError v => Error (js_String v)
  end.

Definition thrown_message (t : Thrown) : string :=
  match t with
  | ErrorObj _ m _ _ => m
  | NonError v => js_String v
  end.

(** The [error] member of a [Result]: a [SwarmError]. *)
Record SwarmError : Type := mkSwarmError {
  error_name : string;
  error_message : string;
  error_code : string;
  error_cause : option Thrown
}.

(** [Result<T>] *)
Record Result (T : Type) : Type := mkResult {
  success : bool;
  data : option T;
  error : option SwarmError
}.
Arguments mkResult {T}.
Arguments success {T}.
Arguments data {T}.
Arguments error {T}.

Definition succeed {T} (d : T) : Result T :=
  {| success := true; data := Some d; error := None |}.
Definition failed {T} (e : SwarmError) : Result T :=
  {| success := false; data := None; error := Some e |}.

(** The enum [MessageRole] and the text of each member. *)
Module MessageRole.

Inductive t : Type := System | User | Assistant | Tool.

Definition text (r : t) : string :=
  match r with
  | System => "system"
  | User => "user"
  | Assistant => "assistant"
  | Tool => "tool"
  end.

End MessageRole.

Inductive ToolChoice : Type :=
| ChoiceNone
| ChoiceAuto
| ChoiceFunction (function_name : string).

(** [SwarmConfig.retryConfig] *)
Record RetryConfig : Type := mkRetryConfig {
  maxRetries : Z;
  initialDelay : Z;
  maxDelay : Z
}.

(** A turn limit: [Infinity] (the default) or a number. *)
Inductive TurnLimit : Type := Infinity | Turns (n : Z).

Definition below (n : Z) (limit : TurnLimit) : bool :=
  match limit with Infinity => true | Turns m => n <? m end.

(** The [options] of [run] after destructuring with its defaults. *)
Record Options : Type := mkOptions {
  modelOverride : option string;
  stream : bool;
  maxTurns : TurnLimit;
  executeTools : bool
}.

Definition default_options : Options :=
  {| modelOverride := None; stream := false; maxTurns := Infinity;
     executeTools := true |}.

(** Special variable name used to pass context variables to tool functions *)
Definition CTX_VARS_NAME : string := "context_variables".

(** The message object literals the engine builds, with their properties in
    source order. *)
Definition system_message (instructions : string) : JValue :=
  JObj [("role", JStr (MessageRole.text MessageRole.System)); ("content", JStr instructions)].

Definition tool_message (content id : JValue) : JValue :=
  JObj [("role", JStr (MessageRole.text MessageRole.Tool)); ("content", content);
        ("tool_call_id", id)].

(** The wire shape of a tool call. *)
Definition tool_call (id name arguments : string) : JValue :=
  JObj [("id", JStr id); ("type", JStr "function");
        ("function", JObj [("name", JStr name); ("arguments", JStr arguments)])].

(** The defaults the [Swarm] constructor gives [retryConfig]. *)
Definition default_retryConfig : RetryConfig :=
  {| maxRetries := 3; initialDelay := 1000; maxDelay := 10000 |}.

(** The tool part of a completion request: bare function names, the
    tool-choice policy and the parallel-tool-calls flag. *)
Record ToolManifest : Type := mkToolManifest {
  tools : list string;
  tool_choice : option ToolChoice;
  parallel_tool_calls : bool
}.

(** [createParams] of [getChatCompletion] *)
Record CreateParams : Type := mkCreateParams {
  cp_model : string;
  cp_messages : list JValue;
  cp_stream : bool;
  cp_tools : option ToolManifest
}.

(** The observable effects of the engine, in the order they happen. *)
Inductive Event : Type :=
| EvOperation                                (* an external operation was invoked *)
| EvCreate (params : CreateParams)           (* the provider was asked for a completion *)
| EvTool (name : string) (args : JValue)     (* a tool body was invoked *)
| EvWarn (message : string)                  (* [logger.warn] *)
| EvSleep (ms : Z).                          (* a [setTimeout] sleep was awaited *)

(** Outcome of an asynchronous computation: a value, a rejection, or the
    model's loop budget ran out before the code finished. *)
Inductive Res (A : Type) : Type :=
| Val (a : A)
| Exn (t : Thrown)
| OutOfFuel.
Arguments Val {A}.
Arguments Exn {A}.
Arguments OutOfFuel {A}.

(** How the [for] loop of [retry] ends: [operation] returned, or the attempts
    ran out with the last error seen (if any). *)
Inductive RetryExit (T : Type) : Type :=
| Returned (value : T)
| Exhausted (lastError : option Thrown).
Arguments Returned {T}.
Arguments Exhausted {T}.

Section Engine.

(** The state of the external collaborators: the completion provider and
    whatever the tool bodies and instruction producers keep. *)
Context {S : Type}.

(** The platform's [JSON.parse] and [JSON.stringify] (on a value that is not
    [undefined]). *)
Variable JSON_parse : string -> Exc JValue.
Variable JSON_stringify : JValue -> string.

(** [client.chat.completions.create] of the provider's library. *)
Variable create : CreateParams -> S -> Exc JValue * S.

(** [this.config.retryConfig] *)
Variable retryConfig : RetryConfig.

Inductive Instructions : Type :=
| Static (text : string)
| Dynamic (produce : S -> Exc string * S).

(** Agents, their tools, and what a tool may return.  A tool whose source
    text mentions [CTX_VARS_NAME] is a [ContextTool]: its body receives, next
    to the parsed arguments, the context object it was handed by reference
    (as the list of its properties), and gives back the properties it left
    in it. *)
Inductive Agent : Type :=
| mkAgent (name model : string) (instructions : Instructions)
          (functions : list Tool) (toolChoice : option ToolChoice)
          (parallelToolCalls : bool)
with Tool : Type :=
| PlainTool (fname : string) (body : JValue -> S -> Exc ToolValue * S)
| ContextTool (fname : string)
              (body : JValue -> list (string * JValue) -> S ->
                      (Exc ToolValue * list (string * JValue)) * S)
with ToolValue : Type :=
| RetValue (v : JValue)
| RetAgent (a : Agent).

Definition name (a : Agent) : string :=
  match a with mkAgent n _ _ _ _ _ => n end.
Definition model (a : Agent) : string :=
  match a with mkAgent _ m _ _ _ _ => m end.
Definition instructions (a : Agent) : Instructions :=
  match a with mkAgent _ _ i _ _ _ => i end.
Definition functions (a : Agent) : list Tool :=
  match a with mkAgent _ _ _ f _ _ => f end.
Definition toolChoice (a : Agent) : option ToolChoice :=
  match a with mkAgent _ _ _ _ c _ => c end.
Definition parallelToolCalls (a : Agent) : bool :=
  match a with mkAgent _ _ _ _ _ p => p end.

Definition tool_name (f : Tool) : string :=
  match f with PlainTool n _ | ContextTool n _ => n end.

(** [ResponseData] *)
Record ResponseData : Type := mkResponseData {
  messages : list JValue;
  agent : option Agent;
  contextVariables : JValue
}.

(** *** The world and the monad of asynchronous code *)

Record World : Type := mkWorld {
  ext : S;
  heap : list JValue;
  trace : list Event
}.

Definition M (A : Type) : Type := World -> Res A * World.

Definition ret {A} (a : A) : M A := fun w => (Val a, w).

Definition bind {A B} (m : M A) (k : A -> M B) : M B :=
  fun w =>
    match m w with
    | (Val a, w') => k a w'
    | (Exn t, w') => (Exn t, w')
    | (OutOfFuel, w') => (OutOfFuel, w')
    end.

Definition throw {A} (t : Thrown) : M A := fun w => (Exn t, w).

Definition out_of_fuel {A} : M A := fun w => (OutOfFuel, w).

(** [try { m } catch (error) { handler error }] *)
Definition try_catch {A} (m : M A) (handler : Thrown -> M A) : M A :=
  fun w =>
    match m w with
    | (Exn t, w') => handler t w'
    | r => r
    end.

Definition lift {A} (e : Exc A) : M A :=
  match e with inl t => throw t | inr a => ret a end.

Definition log (ev : Event) : M unit :=
  fun w => (Val tt, {| ext := ext w; heap := heap w; trace := trace w ++ [ev] |}).

(** A call into an external collaborator. *)
Definition external {A} (f : S -> Exc A * S) : M A :=
  fun w =>
    let (r, s) := f (ext w) in
    lift r {| ext := s; heap := heap w; trace := trace w |}.

(** Allocation of a fresh array or object, reads and in-place updates of the
    ones that exist. *)
Definition alloc (v : JValue) : M nat :=
  fun w => (Val (length (heap w)),
            {| ext := ext w; heap := heap w ++ [v]; trace := trace w |}).

Definition read (l : nat) : M JValue :=
  fun w => (Val (default JUndef (heap w !! l)), w).

Definition write (l : nat) (v : JValue) : M unit :=
  fun w => (Val tt, {| ext := ext w; heap := <[l:=v]> (heap w); trace := trace w |}).

Notation "'await' x <- m ; k" := (bind m (fun x => k))
  (at level 10, x pattern, m at level 100, k at level 200).

Definition warn (message : string) : M unit := log (EvWarn message).
Definition sleep (ms : Z) : M unit := log (EvSleep ms).
Definition push (l : nat) (items : list JValue) : M unit :=
  await a <- read l ;
  match a with
  | JArr xs => write l (JArr (xs ++ items))
  | _ => throw (TypeError "push is not a function")
  end.

(** *** utils.ts: [retry] and [parseArguments] *)

(** The text of the warning logged after a failed attempt. *)
Definition retry_warning (config : RetryConfig) (attempt : Z) (error : Thrown)
  : string :=
  "Operation failed (attempt " ++ pretty attempt ++ "/"
    ++ pretty (maxRetries config) ++ "): " ++ thrown_message (as_Error error).

Fixpoint retry_loop {T} (operation : M T) (config : RetryConfig) (fuel : nat)
    (attempt delay : Z) (lastError : option Thrown) : M (RetryExit T) :=
  if attempt <=? maxRetries config then
    match fuel with
    | O => out_of_fuel
    | Datatypes.S fuel' =>
        try_catch
          (await value <- operation ; ret (Returned value))
          (fun error =>
             let lastError := as_Error error in
             await _ <- warn (retry_warning config attempt error) ;
             await delay' <-
               (if attempt <? maxRetries config then
                  await _ <- sleep delay ;
                  ret (Z.min (delay * 2) (maxDelay config))
                else ret delay) ;
             retry_loop operation config fuel' (attempt + 1) delay'
                        (Some lastError))
    end
  else ret (Exhausted lastError).

Definition retry {T} (operation : M T) (config : RetryConfig) : M T :=
  await exit <- retry_loop operation config (Z.to_nat (maxRetries config)) 1
                           (initialDelay config) None ;
  match exit with
  | Returned value => ret value
  | Exhausted (Some lastError) => throw lastError
  | Exhausted None => throw (Error "Operation failed with unknown error")
  end.

Definition parseArguments (argsStr : JValue) : Exc JValue :=
  match JSON_parse (js_String argsStr) with
  | inr args => inr args
  | inl error =>
      inl (ValidationError
             ("Failed to parse function arguments: " ++ js_String argsStr)
             (Some (as_Error error)))
  end.

(** *** core.ts: the completion client *)

(** The failed [Result] of [createChatCompletion]: a [new APIError]. *)
Definition api_failure (cause : Thrown) : SwarmError :=
  {| error_name := "APIError"; error_message := "OpenAI API call failed";
     error_code := "API_ERROR"; error_cause := Some cause |}.

(** [OpenAIClient.createChatCompletion]: never rejects. *)
Definition createChatCompletion (params : CreateParams) : M (Result JValue) :=
  await _ <- log (EvCreate params) ;
  try_catch
    (await result <- external (create params) ; ret (succeed result))
    (fun error => ret (failed (api_failure error))).

Definition tool_manifest (a : Agent) : option ToolManifest :=
  match functions a with
  | [] => None
  | fs => Some {| tools := map tool_name fs;
                  tool_choice := toolChoice a;
                  parallel_tool_calls := parallelToolCalls a |}
  end.

(** [modelOverride || agent.model] *)
Definition model_or (override : option string) (a : Agent) : string :=
  match override with
  | Some m => if String.eqb m "" then model a else m
  | None => model a
  end.

(** The request [getChatCompletion] builds: the system message made of the
    agent's instructions, then the history. *)
Definition createParams (a : Agent) (override : option string)
    (text : string) (items : list JValue) (streaming : bool) : CreateParams :=
  {| cp_model := model_or override a;
     cp_messages := system_message text :: items;
     cp_stream := streaming;
     cp_tools := tool_manifest a |}.

(** [Swarm.getChatCompletion] *)
Definition getChatCompletion (a : Agent) (history : nat)
    (override : option string) (streaming : bool) : M (Result JValue) :=
  await text <-
    (match instructions a with
     | Static text => ret text
     | Dynamic produce => external produce
     end) ;
  await h <- read history ;
  await items <- lift (iterate h) ;
  retry (createChatCompletion (createParams a override text items streaming))
        retryConfig.

(** *** core.ts: tool dispatch *)

(** [agent.functions.find((f) => f.name === name)] *)
Definition find_tool (fs : list Tool) (fname : JValue) : option Tool :=
  find (fun f => match fname with
                 | JStr n => String.eqb (tool_name f) n
                 | _ => false
                 end) fs.

(** What [JSON.stringify] sees of an agent object: function-valued members
    are dropped, functions inside an array become [null]. *)
Definition agent_json (a : Agent) : JValue :=
  JObj [("name", JStr (name a));
        ("model", JStr (model a));
        ("instructions",
         match instructions a with Static t => JStr t | Dynamic _ => JUndef end);
        ("functions", JArr (map (fun _ => JNull) (functions a)));
        ("toolChoice",
         match toolChoice a with
         | None => JUndef
         | Some ChoiceNone => JStr "none"
         | Some ChoiceAuto => JStr "auto"
         | Some (ChoiceFunction n) =>
             JObj [("type", JStr "function");
                   ("function", JObj [("name", JStr n)])]
         end);
        ("parallelToolCalls", JBool (parallelToolCalls a))].

(** [typeof result === "string" ? result : JSON.stringify(result)] *)
Definition tool_content (result : ToolValue) : JValue :=
  match result with
  | RetValue (JStr s) => JStr s
  | RetValue JUndef => JUndef
  | RetValue v => JStr (JSON_stringify v)
  | RetAgent a => JStr (JSON_stringify (agent_json a))
  end.

(** [args[CTX_VARS_NAME] = contextVariables]: the property now refers to the
    context object, which the body receives as its second argument. *)
Definition bind_context (args : JValue) : Exc JValue :=
  match args with
  | JObj fs => inr (JObj (assoc_remove CTX_VARS_NAME fs))
  | JArr _ => inr args
  | _ => do _ <- set_prop args CTX_VARS_NAME JUndef; inr args
  end.

(** [await func(args)], after the injection of the context object for a tool
    that mentions it.  [context] is the location of the object handed over. *)
Definition invoke (func : Tool) (args : JValue) (context : nat) : M ToolValue :=
  match func with
  | PlainTool n body =>
      await _ <- log (EvTool n args) ;
      external (body args)
  | ContextTool n body =>
      await args <- lift (bind_context args) ;
      await _ <- log (EvTool n args) ;
      await ctx <- read context ;
      await out <- external (fun s =>
                     let '(r, fs, s') := body args (own_properties ctx) s in
                     (inr (r, fs), s')) ;
      await _ <- write context (JObj (snd out)) ;
      lift (fst out)
  end.

Definition add_message (response : ResponseData) (message : JValue)
  : ResponseData :=
  {| messages := messages response ++ [message];
     agent := agent response;
     contextVariables := contextVariables response |}.

(** The [for] loop of [handleToolCalls] over the remaining calls. *)
Fixpoint dispatch (toolCalls : list JValue) (a : Agent) (context : nat)
    (response : ResponseData) : M ResponseData :=
  match toolCalls with
  | [] => ret response
  | toolCall :: rest =>
      await fn <- lift (get_prop toolCall "function") ;
      await fname <- lift (get_prop fn "name") ;
      match find_tool (functions a) fname with
      | None =>
          await _ <- warn ("Tool " ++ js_String fname ++ " not found") ;
          await id <- lift (get_prop toolCall "id") ;
          dispatch rest a context
            (add_message response
               (tool_message
                  (JStr ("Error: Tool " ++ js_String fname ++ " not found."))
                  id))
      | Some func =>
          await message <-
            try_catch
              (await fn <- lift (get_prop toolCall "function") ;
               await arguments <- lift (get_prop fn "arguments") ;
               await args <- lift (parseArguments arguments) ;
               await result <- invoke func args context ;
               await id <- lift (get_prop toolCall "id") ;
               ret (tool_message (tool_content result) id))
              (fun error =>
                 await m <- lift (message_of error) ;
                 throw (ToolExecutionError
                          ("Failed to execute tool " ++ js_String fname ++ ": "
                             ++ js_String m)
                          (Some error))) ;
          dispatch rest a context (add_message response message)
      end
  end.

(** [Swarm.handleToolCalls] *)
Definition handleToolCalls (toolCalls : JValue) (a : Agent) (context : nat)
  : M (Result ResponseData) :=
  await ctx <- read context ;
  let response :=
    {| messages := []; agent := None; contextVariables := spread_object ctx |} in
  await calls <- lift (iterate toolCalls) ;
  await response <- dispatch calls a context response ;
  ret (succeed response).

(** *** core.ts: the turn loop *)

(** The [catch] clause shared by [run], [streamGenerator] and [runStream]. *)
Definition unknown_error (error : Thrown) : SwarmError :=
  match error with
  | ErrorObj n m _ _ =>
      {| error_name := n; error_message := m; error_code := "UNKNOWN_ERROR";
         error_cause := None |}
  | NonError v =>
      {| error_name := "UnknownError"; error_message := js_String v;
         error_code := "UNKNOWN_ERROR"; error_cause := None |}
  end.

(** A failed completion returned as the result of the run.  The client's
    failures carry no [data]. *)
Definition pass_failure (completion : Result JValue) : Result ResponseData :=
  {| success := success completion; data := None; error := error completion |}.

(** [completion.data.choices[0].message] *)
Definition first_message (completion : Result JValue) : Exc JValue :=
  do choices <- get_prop (default JUndef (data completion)) "choices";
  do choice <- get_prop choices "0";
  get_prop choice "message".

(** The success value built after the loop. *)
Definition finish (activeAgent : Agent) (history context : nat) (initLen : nat)
  : M (Result ResponseData) :=
  await h <- read history ;
  await items <- lift (iterate h) ;
  await ctx <- read context ;
  ret (succeed {| messages := drop initLen items;
                  agent := Some activeAgent;
                  contextVariables := ctx |}).

(** What both loops do with the result of a dispatch: append its messages,
    merge its context variables, adopt its agent.  [continue] is the next
    iteration. *)
Definition after_dispatch (toolResult : Result ResponseData)
    (activeAgent : Agent) (history context : nat)
    (continue : Agent -> M (Result ResponseData)) : M (Result ResponseData) :=
  match success toolResult, data toolResult with
  | true, Some d =>
      await _ <- push history (messages d) ;
      await ctx <- read context ;
      await ctx' <- lift (object_assign ctx (contextVariables d)) ;
      await _ <- write context ctx' ;
      continue (match agent d with Some next => next | None => activeAgent end)
  | _, _ => ret toolResult
  end.

(** The [while] loop of [run]; [fuel] bounds the number of turns the model
    follows. *)
Fixpoint run_loop (fuel : nat) (options : Options) (history context : nat)
    (initLen : nat) (activeAgent : Agent) : M (Result ResponseData) :=
  await h <- read history ;
  await len <- lift (get_prop h "length") ;
  if match len with
     | JNum n => below (n - Z.of_nat initLen) (maxTurns options)
     | _ => false
     end
  then
    match fuel with
    | O => out_of_fuel
    | Datatypes.S fuel' =>
        await completion <-
          getChatCompletion activeAgent history (modelOverride options) false ;
        if negb (success completion) then ret (pass_failure completion)
        else
          await message <- lift (first_message completion) ;
          await message <-
            lift (set_prop message "sender" (JStr (name activeAgent))) ;
          await _ <- push history [message] ;
          await tool_calls <- lift (get_prop message "tool_calls") ;
          if negb (truthy tool_calls) || negb (executeTools options)
          then finish activeAgent history context initLen
          else
            await toolResult <- handleToolCalls tool_calls activeAgent context ;
            after_dispatch toolResult activeAgent history context
              (run_loop fuel' options history context initLen)
    end
  else finish activeAgent history context initLen.

(** The copies [run] and [streamGenerator] take at entry:
    [{ ...contextVariables }], [[...messages]] and [messages.length]. *)
Definition enter (messages : nat) (contextVariables : option nat)
  : M (nat * nat * nat) :=
  await cv <- (match contextVariables with
               | Some l => read l
               | None => ret (JObj [])
               end) ;
  await context <- alloc (spread_object cv) ;
  await ms <- read messages ;
  await items <- lift (iterate ms) ;
  await history <- alloc (JArr items) ;
  ret (history, context, length items).

(** *** core.ts: the streaming generator *)

(** A suspended or finished generator: what [next()] finds. *)
Inductive Gen : Type :=
| GReturn (value : Result ResponseData)
| GThrow (t : Thrown)
| GOutOfFuel
| GYield (value : JValue) (resume : World -> Gen * World).

(** Generator code in continuation-passing style: [k] is the rest of the
    body, [h] the enclosing [catch]. *)
Definition G (A : Type) : Type :=
  (A -> World -> Gen * World) -> (Thrown -> World -> Gen * World) ->
  World -> Gen * World.

Definition g_ret {A} (a : A) : G A := fun k _ => k a.

Definition g_bind {A B} (m : G A) (f : A -> G B) : G B :=
  fun k h => m (fun a => f a k h) h.

Definition g_await {A} (m : M A) : G A :=
  fun k h w =>
    match m w with
    | (Val a, w') => k a w'
    | (Exn t, w') => h t w'
    | (OutOfFuel, w') => (GOutOfFuel, w')
    end.

Definition g_yield (value : JValue) : G unit :=
  fun k _ w => (GYield value (k tt), w).

Notation "'gen' x <- m ; k" := (g_bind m (fun x => k))
  (at level 10, x pattern, m at level 100, k at level 200).

(** [chunk.choices[0].delta] *)
Definition chunk_delta (chunk : JValue) : Exc JValue :=
  do choices <- get_prop chunk "choices";
  do choice <- get_prop choices "0";
  get_prop choice "delta".

(** The [for await] loop over the chunks of one turn. *)
Fixpoint consume (chunks : list JValue) (activeAgent : Agent)
    (message : JValue) : G JValue :=
  match chunks with
  | [] => g_ret message
  | chunk :: rest =>
      gen delta <- g_await (lift (chunk_delta chunk)) ;
      gen role <- g_await (lift (get_prop delta "role")) ;
      gen delta <-
        g_await (lift (match role with
                       | JStr "assistant" =>
                           set_prop delta "sender" (JStr (name activeAgent))
                       | _ => inr delta
                       end)) ;
      gen _ <- g_yield delta ;
      gen delta <- g_await (lift (delete_prop delta "role")) ;
      gen delta <- g_await (lift (delete_prop delta "sender")) ;
      gen merged <- g_await (lift (mergeChunk message delta)) ;
      consume rest activeAgent (fst merged)
  end.

(** [Object.values(message.tool_calls || {})], and [null] when it is empty. *)
Definition collect_tool_calls (message : JValue) : Exc JValue :=
  do tool_calls <- get_prop message "tool_calls";
  do fs <- entries (if truthy tool_calls then tool_calls else JObj []);
  set_prop message "tool_calls"
    (match map snd fs with [] => JNull | values => JArr values end).

(** The [while] loop of [streamGenerator].  [a] is the agent the generator
    was started with. *)
Fixpoint stream_loop (fuel : nat) (options : Options) (a : Agent)
    (history context : nat) (initLen : nat) (activeAgent : Agent)
  : G (Result ResponseData) :=
  gen h <- g_await (read history) ;
  gen len <- g_await (lift (get_prop h "length")) ;
  if match len with
     | JNum n => below (n - Z.of_nat initLen) (maxTurns options)
     | _ => false
     end
  then
    match fuel with
    | O => fun _ _ w => (GOutOfFuel, w)
    | Datatypes.S fuel' =>
        let message :=
          JObj [("content", JStr ""); ("sender", JStr (name a));
                ("role", JStr (MessageRole.text MessageRole.Assistant));
                ("tool_calls", JNull)] in
        gen completion <-
          g_await (getChatCompletion activeAgent history
                     (modelOverride options) true) ;
        if negb (success completion) then g_ret (pass_failure completion)
        else
          gen _ <- g_yield (JObj [("delim", JStr "start")]) ;
          gen chunks <-
            g_await (lift (iterate (default JUndef (data completion)))) ;
          gen message <- consume chunks activeAgent message ;
          gen _ <- g_yield (JObj [("delim", JStr "end")]) ;
          gen message <- g_await (lift (collect_tool_calls message)) ;
          gen _ <- g_await (push history [message]) ;
          gen tool_calls <- g_await (lift (get_prop message "tool_calls")) ;
          if negb (truthy tool_calls) || negb (executeTools options)
          then g_await (finish activeAgent history context initLen)
          else
            gen toolResult <-
              g_await (handleToolCalls tool_calls activeAgent context) ;
            match success toolResult, data toolResult with
            | true, Some d =>
                gen _ <- g_await (push history (messages d)) ;
                gen ctx <- g_await (read context) ;
                gen ctx' <-
                  g_await (lift (object_assign ctx (contextVariables d))) ;
                gen _ <- g_await (write context ctx') ;
                stream_loop fuel' options a history context initLen
                  (match agent d with Some next => next | None => activeAgent end)
            | _, _ => g_ret toolResult
            end
    end
  else g_await (finish activeAgent history context initLen).

(** [Swarm.streamGenerator]: the generator object before its first
    [next()]. *)
Definition streamGenerator (fuel : nat) (a : Agent) (messages : nat)
    (contextVariables : option nat) (options : Options) : World -> Gen * World :=
  g_bind (g_await (enter messages contextVariables))
    (fun '(history, context, initLen) =>
       fun k _ =>
         stream_loop fuel options a history context initLen a
           k (fun error w => (GReturn (failed (unknown_error error)), w)))
    (fun value w => (GReturn value, w))
    (fun error w => (GThrow error, w)).

(** [Swarm.runStream]: one [generator.next()]. *)
Definition runStream (fuel : nat) (a : Agent) (messages : nat)
    (contextVariables : option nat) (options : Options)
  : M (Result ResponseData) :=
  fun w =>
    match streamGenerator fuel a messages contextVariables options w with
    | (GReturn value, w') => (Val value, w')
    | (GYield _ _, w') =>
        (Val (succeed {| messages := []; agent := None;
                         contextVariables := JObj [] |}), w')
    | (GThrow error, w') => (Val (failed (unknown_error error)), w')
    | (GOutOfFuel, w') => (OutOfFuel, w')
    end.

(** The [try] block of [run] with its [catch]: the loop, started from the
    given copies. *)
Definition run_from (fuel : nat) (options : Options) (history context : nat)
    (initLen : nat) (activeAgent : Agent) : M (Result ResponseData) :=
  try_catch
    (run_loop fuel options history context initLen activeAgent)
    (fun error => ret (failed (unknown_error error))).

(** [Swarm.run] *)
Definition run (fuel : nat) (a : Agent) (messages : nat)
    (contextVariables : option nat) (options : Options)
  : M (Result ResponseData) :=
  if stream options then runStream fuel a messages contextVariables options
  else
    await entry <- enter messages contextVariables ;
    let '(history, context, initLen) := entry in
    run_from fuel options history context initLen a.

End Engine.

Notation "'await' x <- m ; k" := (bind m (fun x => k))
  (at level 10, x pattern, m at level 100, k at level 200).

(** ** Notions used by the statements *)

Local Open Scope list_scope.

Section Notions.
Context {S : Type}.
Variable JSON_parse : string -> Exc JValue.
Variable JSON_stringify : JValue -> string.
Variable create : CreateParams -> S -> Exc JValue * S.
Variable retryConfig : RetryConfig.

(** An opaque external operation, as [retry] receives it. *)
Definition operation_of {T} (f : S -> Exc T * S) : M T :=
  await _ <- log EvOperation ; external f.

(** The world after an in-place update of one cell, and after some events. *)
Definition set_cell (w : World (S:=S)) (l : nat) (v : JValue) : World :=
  {| ext := ext w; heap := <[l:=v]> (heap w); trace := trace w |}.

Definition emit (w : World (S:=S)) (evs : list Event) : World :=
  {| ext := ext w; heap := heap w; trace := trace w ++ evs |}.

(** What an agent's instructions evaluate to. *)
Definition resolve_instructions (a : Agent) (s : S) : Exc string * S :=
  match instructions a with
  | Static text => (inr text, s)
  | Dynamic produce => produce s
  end.

(** A relation between the worlds before and after holds of every execution
    of a computation, and of every step of a generator: from the world it is
    started or resumed in to the world it suspends or ends in, however far
    it is driven and whatever the consumer did in between. *)
Definition respects (R : World (S:=S) -> World (S:=S) -> Prop) {A} (m : M A)
  : Prop :=
  forall w r w', m w = (r, w') -> R w w'.

Fixpoint gen_respects (R : World (S:=S) -> World (S:=S) -> Prop)
    (x : Gen (S:=S)) : Prop :=
  match x with
  | GYield _ resume =>
      forall w, match resume w with (x', w') => R w w' /\ gen_respects R x' end
  | _ => True
  end.

Definition g_respects (R : World (S:=S) -> World (S:=S) -> Prop)
    (g : World -> Gen (S:=S) * World) : Prop :=
  forall w r w', g w = (r, w') -> R w w' /\ gen_respects R r.

Definition G_respects (R : World (S:=S) -> World (S:=S) -> Prop) {A}
    (P : A -> Prop) (m : G (S:=S) A) : Prop :=
  forall k h,
    (forall a, P a -> g_respects R (k a)) -> (forall t, g_respects R (h t)) ->
    g_respects R (m k h).

(** A completion request built from agent [a]: its tool manifest, and a
    system message made of its instructions. *)
Definition asks_as (a : Agent (S:=S)) (ev : Event) : Prop :=
  match ev with
  | EvCreate p =>
      cp_tools p = tool_manifest a
      /\ exists text items,
           cp_messages p = system_message text :: items
           /\ match instructions a with
              | Static t => text = t
              | Dynamic _ => True
              end
  | _ => True
  end.

Definition anything {A} : A -> Prop := fun _ => True.

(** A relation on worlds that is kept by every step the engine takes: it is
    a preorder, external calls, events and requests made for the agents in
    [asking] keep it, and so do updates of the cells in [writable]. *)
Record Stable (R : World (S:=S) -> World (S:=S) -> Prop)
    (writable : nat -> Prop) (asking : Agent (S:=S) -> Prop) : Prop := {
  stable_refl : forall w, R w w;
  stable_trans : forall w1 w2 w3, R w1 w2 -> R w2 w3 -> R w1 w3;
  stable_ext : forall w s,
    R w {| ext := s; heap := heap w; trace := trace w |};
  stable_write : forall w l v, writable l -> R w (set_cell w l v);
  stable_log : forall w ev, (forall p, ev <> EvCreate p) -> R w (emit w [ev]);
  stable_request : forall w a override text items streaming,
    asking a ->
    match instructions a with Static t => text = t | Dynamic _ => True end ->
    R w (emit w [EvCreate (createParams a override text items streaming)])
}.

(** The cells below [n] are kept, and none is removed. *)
Definition keeps_below (n : nat) (w w' : World (S:=S)) : Prop :=
  (n <= length (heap w))%nat ->
  (n <= length (heap w'))%nat /\ take n (heap w') = take n (heap w).

(** Only the cell at [l] may have changed. *)
Definition only_cell (l : nat) (w w' : World (S:=S)) : Prop :=
  length (heap w') = length (heap w)
  /\ forall l', l' <> l -> heap w' !! l' = heap w !! l'.

(** The events added are requests built from [a], or no requests at all. *)
Definition asking_as (a : Agent (S:=S)) (w w' : World (S:=S)) : Prop :=
  exists evs, trace w' = trace w ++ evs /\ Forall (asks_as a) evs.

(** The cell at [l] holds a plain object. *)
Definition object_cell (w : World (S:=S)) (l : nat) : Prop :=
  exists fs, heap w !! l = Some (JObj fs).

(** The value of the [contextVariables] argument ([{}] by default). *)
Definition context_argument (w : World (S:=S)) (contextVariables : option nat)
  : JValue :=
  match contextVariables with
  | Some l => default JUndef (heap w !! l)
  | None => JObj []
  end.

(** The iteration of [run_loop] that starts in world [w0] obtains an
    assistant message carrying [tool_calls] and reaches their dispatch in
    world [w]. *)
Definition reaches_dispatch (options : Options) (history initLen : nat)
    (activeAgent : Agent) (w0 : World) (tool_calls : JValue) (w : World)
  : Prop :=
  exists h completion w1 message stamped,
    heap w0 !! history = Some (JArr h)
    /\ below (Z.of_nat (length h) - Z.of_nat initLen) (maxTurns options) = true
    /\ getChatCompletion create retryConfig activeAgent history
         (modelOverride options) false w0 = (Val completion, w1)
    /\ success completion = true
    /\ first_message completion = inr message
    /\ set_prop message "sender" (JStr (name activeAgent)) = inr stamped
    /\ get_prop stamped "tool_calls" = inr tool_calls
    /\ truthy tool_calls = true
    /\ executeTools options = true
    /\ w = set_cell w1 history (JArr (h ++ [stamped])).

(** The accumulator [handleToolCalls] starts from. *)
Definition fresh_response (ctx : JValue) : ResponseData (S:=S) :=
  {| messages := []; agent := None; contextVariables := spread_object ctx |}.

(** The world [run] starts its loop in: the two copies are the last cells. *)
Definition entered (w : World (S:=S)) (contextVariables : option nat)
    (items : list JValue) : World :=
  {| ext := ext w;
     heap := heap w ++ [spread_object (context_argument w contextVariables);
                        JArr items];
     trace := trace w |}.

End Notions.

(** The delay slept after failed attempt [i + 1]: d1 = [initial],
    d(i+1) = min(2 di, [cap]). *)
Fixpoint backoff (initial cap : Z) (i : nat) : Z :=
  match i with
  | O => initial
  | Datatypes.S j => Z.min (backoff initial cap j * 2) cap
  end.

Definition sleeps (evs : list Event) : list Z :=
  flat_map (fun ev => match ev with EvSleep d => [d] | _ => [] end) evs.

Definition operations (evs : list Event) : nat :=
  length (List.filter
            (fun ev => match ev with EvOperation => true | _ => false end) evs).

(** The attempts ([None]) and the sleeps ([Some] delay) of a trace, in the
    order they happened. *)
Definition attempts_and_sleeps (evs : list Event) : list (option Z) :=
  flat_map (fun ev => match ev with
                      | EvOperation => [None]
                      | EvSleep d => [Some d]
                      | _ => []
                      end) evs.

Definition requests (evs : list Event) : list CreateParams :=
  flat_map (fun ev => match ev with EvCreate p => [p] | _ => [] end) evs.

Definition tools_invoked (evs : list Event) : list string :=
  flat_map (fun ev => match ev with EvTool n _ => [n] | _ => [] end) evs.

(** ** Scenarios

    Concrete collaborators for the examples: a provider that answers from a
    script, a few tools, and stand-ins for the platform's JSON functions that
    agree with them on the payloads used here. *)

Module Scenario.

(** [JSON.parse] on the two payloads of the scenarios: ["{}"] is the empty
    object, ["not json"] is a syntax error. *)
Definition parse (text : string) : Exc JValue :=
  if String.eqb text "{}" then inr (JObj [])
  else inl (ErrorObj "SyntaxError"
              ("Unexpected token in JSON: " +:+ text) None None).

(** The quotation mark. *)
Definition quote : string := String (Ascii.ascii_of_nat 34) EmptyString.

(** [JSON.stringify] on values whose strings need no escaping. *)
Fixpoint stringify (v : JValue) : string :=
  match v with
  | JUndef | JNull => "null"
  | JBool true => "true"
  | JBool false => "false"
  | JNum n => pretty n
  | JStr s => quote +:+ s +:+ quote
  | JArr items => "[" +:+ join_with "," (map stringify items) +:+ "]"
  | JObj fs =>
      "{" +:+
      join_with ","
        ((fix members (fs : list (string * JValue)) : list string :=
            match fs with
            | [] => []
            | (_, JUndef) :: rest => members rest
            | (k, x) :: rest =>
                (quote +:+ k +:+ quote +:+ ":" +:+ stringify x) :: members rest
            end) fs)
      +:+ "}"
  end.

(** The provider's state is the number of requests it has answered; it
    answers request [n] with the [n]-th entry of its script. *)
Definition scripted (script : list JValue) (p : CreateParams) (n : nat)
  : Exc JValue * nat :=
  (match script !! n with
   | Some response => inr response
   | None => inl (Error "Connection error.")
   end, Datatypes.S n).

(** A non-streaming completion with one choice. *)
Definition completion_of (message : JValue) : JValue :=
  JObj [("choices", JArr [JObj [("message", message)]])].

(** A streamed chunk with one choice. *)
Definition chunk_of (delta : JValue) : JValue :=
  JObj [("choices", JArr [JObj [("delta", delta)]])].

Definition user (content : string) : JValue :=
  JObj [("role", JStr "user"); ("content", JStr content)].

Definition assistant (content : string) : JValue :=
  JObj [("role", JStr "assistant"); ("content", JStr content)].

Definition assistant_calling (calls : list JValue) : JValue :=
  JObj [("role", JStr "assistant"); ("content", JNull);
        ("tool_calls", JArr calls)].

Definition B : Agent (S:=nat) :=
  mkAgent "B" "gpt-4o" (Static "You are B.") [] None false.

(** A tool that hands off to [B], one that returns a context-variable delta,
    one that throws. *)
Definition lookup : Tool (S:=nat) :=
  PlainTool "lookup" (fun _ s => (inr (RetAgent B), s)).

Definition remember : Tool (S:=nat) :=
  PlainTool "remember"
    (fun _ s =>
       (inr (RetValue (JObj [("context_variables",
                              JObj [("user", JStr "bob")])])), s)).

Definition explode : Tool (S:=nat) :=
  PlainTool "explode" (fun _ s => (inl (Error "Tool failed"), s)).

Definition A : Agent (S:=nat) :=
  mkAgent "A" "gpt-4o" (Static "You are A.") [lookup; remember; explode]
          (Some ChoiceAuto) false.

(** The caller's objects: the message array at location 0, the context
    variables at location 1. *)
Definition start : World (S:=nat) :=
  {| ext := 0%nat;
     heap := [JArr [user "hi"]; JObj [("language", JStr "en")]];
     trace := [] |}.

Definition one_turn : Options :=
  {| modelOverride := None; stream := false; maxTurns := Turns 1;
     executeTools := true |}.

Definition streaming : Options :=
  {| modelOverride := None; stream := true; maxTurns := Turns 1;
     executeTools := true |}.

(** An operation that fails every time it is tried. *)
Definition failing (s : nat) : Exc JValue * nat :=
  (inl (Error "ECONNRESET"), Datatypes.S s).

(** A provider that says "hello", streamed or not. *)
Definition greeter (p : CreateParams) (n : nat) : Exc JValue * nat :=
  (inr (if cp_stream p
        then JArr [chunk_of (assistant "hello")]
        else completion_of (assistant "hello")),
   Datatypes.S n).

(** The run of a scenario with the default retry configuration. *)
Definition run_script (script : list JValue) (options : Options)
  : Res (Result ResponseData) * World :=
  run parse stringify (scripted script) default_retryConfig 8 A 0%nat
      (Some 1%nat) options start.

(** The fragments of the [mergeChunk] example, and the accumulator
    [streamGenerator] starts a turn with. *)
Definition chunk1 : JValue :=
  JObj [("tool_calls",
         JArr [JObj [("index", JNum 0); ("id", JStr "abc");
                     ("function", JObj [("arguments", JStr "")])]])].

Definition chunk2 : JValue :=
  JObj [("tool_calls",
         JArr [JObj [("index", JNum 0);
                     ("function", JObj [("arguments", JStr "{}")])]])].

Definition accumulator : JValue :=
  JObj [("content", JStr ""); ("sender", JStr "A");
        ("role", JStr "assistant"); ("tool_calls", JNull)].

(** [mergeChunk] applied to the two fragments in turn. *)
Definition merge_both (acc : JValue) : Exc JValue :=
  do first <- mergeChunk acc chunk1;
  do second <- mergeChunk (fst first) chunk2;
  inr (fst second).

(** The accumulated record at a tool-call index. *)
Definition record_at (acc : JValue) (index : string) : Exc JValue :=
  do calls <- get_prop acc "tool_calls"; get_prop calls index.

(** The input of the repository's own test of [mergeChunk]: one complete
    tool call in a single fragment. *)
Definition whole_call : JValue :=
  JObj [("tool_calls",
         JArr [JObj [("index", JNum 0); ("id", JStr "123");
                     ("type", JStr "function");
                     ("function", JObj [("name", JStr "test");
                                        ("arguments", JStr "{}")])]])].

(** The handoff scenario: A's tool "lookup" returns agent B, its tool
    "remember" returns a context-variable delta. *)
Definition handoff_calls : list JValue :=
  [tool_call "call-1" "lookup" "{}"; tool_call "call-2" "remember" "{}"].

Definition handoff_script : list JValue :=
  [completion_of (assistant_calling handoff_calls);
   completion_of (assistant "done")].

(** A turn whose second call names a tool A does not have. *)
Definition missing_calls : list JValue :=
  [tool_call "call-1" "remember" "{}"; tool_call "call-2" "search" "{}";
   tool_call "call-3" "lookup" "{}"].

Definition missing_script : list JValue :=
  [completion_of (assistant_calling missing_calls);
   completion_of (assistant "done")].

(** A turn whose second call carries a payload that is not JSON. *)
Definition unparsable_calls : list JValue :=
  [tool_call "call-1" "remember" "{}"; tool_call "call-2" "lookup" "not json";
   tool_call "call-3" "remember" "{}"].

Definition unparsable_script : list JValue :=
  [completion_of (assistant_calling unparsable_calls);
   completion_of (assistant "done")].

(** A turn whose only call is to the tool that throws. *)
Definition throwing_script : list JValue :=
  [completion_of (assistant_calling [tool_call "call-1" "explode" "{}"]);
   completion_of (assistant "done")].

End Scenario.

(** ** Further notions used by the statements *)

(** What [mergeFields] skips: values that are neither text nor objects. *)
Definition skipped (v : JValue) : Prop :=
  match v with JStr _ | JArr _ | JObj _ => False | _ => True end.

(** The property names every object inherits from [Object.prototype].
    [get_prop] reads own properties only, so a statement about what is read
    under an arbitrary key leaves these names out. *)
Definition inherited (k : string) : bool :=
  existsb (String.eqb k)
    ["constructor"; "hasOwnProperty"; "isPrototypeOf"; "propertyIsEnumerable";
     "toLocaleString"; "toString"; "valueOf"; "__proto__";
     "__defineGetter__"; "__defineSetter__"; "__lookupGetter__";
     "__lookupSetter__"].

(** What a call is answered with: the message
    [{role: "tool", content, tool_call_id: <the id of the call>}].  For a
    tool the agent does not have, the content is the explanatory text; for a
    tool it has, the tool was invoked on the parsed arguments of the call,
    and when it returned a value the content is that value if it is text,
    and its JSON rendering otherwise ([undefined] has none). *)
Definition answers_call {S} (JSON_parse : string -> Exc JValue)
    (JSON_stringify : JValue -> string) (a : Agent (S:=S)) (context : nat)
    (call message : JValue) : Prop :=
  exists fn fname id content,
    get_prop call "function" = inr fn
    /\ get_prop fn "name" = inr fname
    /\ get_prop call "id" = inr id
    /\ message = JObj [("role", JStr "tool"); ("content", content);
                       ("tool_call_id", id)]
    /\ match find_tool (functions a) fname with
       | None =>
           content
           = JStr ("Error: Tool " +:+ js_String fname +:+ " not found.")
       | Some func =>
           exists payload args result w1 w2,
             get_prop fn "arguments" = inr payload
             /\ parseArguments JSON_parse payload = inr args
             /\ invoke func args context w1 = (Val result, w2)
             /\ forall v,
                  result = RetValue v ->
                  content = match v with
                            | JStr s => JStr s
                            | JUndef => JUndef
                            | _ => JStr (JSON_stringify v)
                            end
       end.

(** At most [k] completion requests were made between two worlds. *)
Definition asked {S} (k : nat) (w w' : World (S:=S)) : Prop :=
  exists evs, trace w' = trace w ++ evs /\ (length (requests evs) <= k)%nat.

(** A consumer that drives a generator to its end with [next()], keeping
    the events it yields and what it returns or throws in the end. *)
Fixpoint drain {S} (g : Gen (S:=S)) (w : World (S:=S)) (events : list JValue)
    {struct g}
  : list JValue * Res (Result (ResponseData (S:=S))) * World (S:=S) :=
  match g with
  | GReturn value => (events, Val value, w)
  | GThrow t => (events, Exn t, w)
  | GOutOfFuel => (events, OutOfFuel, w)
  | GYield event resume =>
      match resume w with
      | (g', w') => drain g' w' (events ++ [event])
      end
  end.

Definition drive {S}
    (generator : World (S:=S) -> Gen (S:=S) * World (S:=S)) (w : World (S:=S))
  : list JValue * Res (Result (ResponseData (S:=S))) * World (S:=S) :=
  match generator w with (g, w') => drain g w' [] end.

(** The fragments of a streamed text answer: the first carries the role. *)
Definition first_delta (content : string) : JValue :=
  JObj [("role", JStr "assistant"); ("content", JStr content)].

Definition text_delta (content : string) : JValue :=
  JObj [("content", JStr content)].

Definition chunk (delta : JValue) : JValue :=
  JObj [("choices", JArr [JObj [("delta", delta)]])].

Definition glue (fragments : list string) : string :=
  fold_right String.append "" fragments.

(** The message the streaming loop assembles, with [streamGenerator]'s
    property order. *)
Definition assembled (sender content : string) : JValue :=
  JObj [("content", JStr content); ("sender", JStr sender);
        ("role", JStr "assistant"); ("tool_calls", JNull)].

(** ** Further concrete collaborators *)

Module Samples.

(** An operation that rejects with a text, not an [Error], every time it is
    tried. *)
Definition rejecting (s : nat) : Exc JValue * nat :=
  (inl (NonError (JStr "boom")), Datatypes.S s).

(** An operation that fails twice and succeeds from its third call on. *)
Definition flaky (s : nat) : Exc JValue * nat :=
  (if (s <? 2)%nat then inl (Error "ECONNRESET") else inr (JStr "ok"),
   Datatypes.S s).

(** A retry configuration whose initial delay is above its maximal delay. *)
Definition impatient : RetryConfig :=
  {| maxRetries := 3; initialDelay := 20000; maxDelay := 10000 |}.

(** A configuration that allows no attempt at all. *)
Definition no_attempts : RetryConfig :=
  {| maxRetries := 0; initialDelay := 1000; maxDelay := 10000 |}.

(** Options that leave no turn, and options that forbid tool execution. *)
Definition no_turns : Options :=
  {| modelOverride := None; stream := false; maxTurns := Turns 0;
     executeTools := true |}.

Definition without_tools : Options :=
  {| modelOverride := None; stream := false; maxTurns := Infinity;
     executeTools := false |}.

(** A tool that mentions [context_variables]: it overwrites the variable
    "language" and adds the variable "seen" in the context object it is
    handed. *)
Definition relabel : Tool (S:=nat) :=
  ContextTool "relabel"
    (fun _ ctx s =>
       (inr (RetValue (JStr "done")),
        set_field "seen" (JBool true) (set_field "language" (JStr "fr") ctx),
        s)).

Definition C : Agent (S:=nat) :=
  mkAgent "C" "gpt-4o" (Static "You are C.") [relabel; Scenario.remember]
          (Some ChoiceAuto) false.

Definition relabel_calls : list JValue :=
  [tool_call "call-1" "relabel" "{}"; tool_call "call-2" "nothing" "{}";
   tool_call "call-3" "remember" "{}"].

Definition relabel_script : list JValue :=
  [Scenario.completion_of (Scenario.assistant_calling relabel_calls);
   Scenario.completion_of (Scenario.assistant "done")].

(** Options that allow two turns. *)
Definition two_turns : Options :=
  {| modelOverride := None; stream := false; maxTurns := Turns 2;
     executeTools := true |}.

(** A provider that streams "Hel", "lo", "!" when asked to stream. *)
Definition speller (p : CreateParams) (n : nat) : Exc JValue * nat :=
  (inr (JArr [chunk (first_delta "Hel"); chunk (text_delta "lo");
              chunk (text_delta "!")]),
   Datatypes.S n).

End Samples.

(** ** cli.ts: the terminal front end *)

Module Cli.

(** What the code of cli.ts itself asks of the terminal and of its logger,
    in call order: [rl.question], [process.stdout.write], [console.log] and
    [this.logger.error] with their arguments.  What the engine prints
    through the logger it is given is not part of it: its warnings are in
    the trace of the engine's world, its [logger.debug] lines are not
    modelled. *)
Inductive Payload : Type :=
| Caught (error : Thrown)
| Failure (error : option SwarmError).

Inductive Output : Type :=
| Question (prompt : string)
| StdoutWrite (chunk : JValue)
| ConsoleLog (args : list JValue)
| LoggerError (message : string) (arg : Payload).

(** The escape character that opens a colour code, and the bee of the
    banner (its UTF-8 bytes). *)
Definition esc : string := String (Ascii.ascii_of_nat 27) EmptyString.

Definition bee : string :=
  String (Ascii.ascii_of_nat 240)
    (String (Ascii.ascii_of_nat 159)
       (String (Ascii.ascii_of_nat 144)
          (String (Ascii.ascii_of_nat 157) EmptyString))).

(** [key in v], for a key that no prototype defines; the operator throws on
    a primitive. *)
Definition js_in (key : string) (v : JValue) : Exc bool :=
  match v with
  | JObj fs => inr (match assoc key fs with Some _ => true | None => false end)
  | JArr items =>
      inr (String.eqb key "length"
           || match index_of_key (length items) key with
              | Some _ => true
              | None => false
              end)
  | _ =>
      inl (TypeError ("Cannot use 'in' operator to search for '" +:+ key
                        +:+ "' in " +:+ js_String v))
  end.

(** [toolCalls.length > 1], with the same reading of a [length] that is not
    a number as [length_gt0]. *)
Definition length_gt1 (toolCalls : JValue) : bool :=
  match toolCalls with
  | JUndef | JNull => false
  | _ =>
      match get_prop toolCalls "length" with
      | inr (JNum n) => 1 <? n
      | inr (JStr s) =>
          match integer_key s with Some n => (1 <? n)%N | None => false end
      | _ => false
      end
  end.

(** [const { name, arguments: args } = callee]: destructuring [null] or
    [undefined] throws. *)
Definition destructure (callee : JValue) : Exc (JValue * JValue) :=
  match callee with
  | JUndef | JNull =>
      inl (TypeError ("Cannot destructure property 'name' of "
                        +:+ "'toolCall.function' as it is "
                        +:+ js_String callee +:+ "."))
  | _ =>
      do name <- get_prop callee "name";
      do args <- get_prop callee "arguments";
      inr (name, args)
  end.

(** [{ role: MessageRole.User, content: userInput, sender: "user" }] *)
Definition user_message (userInput : string) : JValue :=
  JObj [("role", JStr (MessageRole.text MessageRole.User));
        ("content", JStr userInput);
        ("sender", JStr "user")].

(** *** Code that prints and may throw *)

Section Acts.
Context {St : Type}.

Definition Act (A : Type) : Type := St -> Res A * St.

Definition act_ret {A} (a : A) : Act A := fun s => (Val a, s).

Definition act_bind {A B} (m : Act A) (k : A -> Act B) : Act B :=
  fun s =>
    match m s with
    | (Val a, s') => k a s'
    | (Exn t, s') => (Exn t, s')
    | (OutOfFuel, s') => (OutOfFuel, s')
    end.

Definition act_lift {A} (e : Exc A) : Act A :=
  fun s => (match e with inl t => Exn t | inr a => Val a end, s).

(** [try { m } catch (error) { handler error }] *)
Definition act_catch {A} (m : Act A) (handler : Thrown -> Act A) : Act A :=
  fun s =>
    match m s with
    | (Exn t, s') => handler t s'
    | r => r
    end.

Definition get : Act St := fun s => (Val s, s).

Definition update (f : St -> St) : Act unit := fun s => (Val tt, f s).

End Acts.

Notation "'perform' x <- m ; k" := (act_bind m (fun x => k))
  (at level 10, x pattern, m at level 100, k at level 200).

(** [for (const x of items) body(x)] *)
Fixpoint for_of {St A} (items : list A) (body : A -> Act (St:=St) unit)
  : Act (St:=St) unit :=
  match items with
  | [] => act_ret tt
  | x :: rest => perform _ <- body x ; for_of rest body
  end.

(** *** The message under construction in [processStreamingResponse] *)

(** [currentMessage] once it is no longer [{}]: its [sender], [content] and
    [tool_calls]; its [role] is always [MessageRole.Assistant]. *)
Record Partial : Type := mkPartial {
  sender : JValue;
  text : string;
  tool_calls : list JValue
}.

Definition as_message (m : Partial) : JValue :=
  JObj [("role", JStr (MessageRole.text MessageRole.Assistant));
        ("sender", sender m);
        ("content", JStr (text m));
        ("tool_calls", JArr (tool_calls m))].

(** The local variables of [processStreamingResponse], and what it has
    printed. *)
Record Progress : Type := mkProgress {
  content : string;
  lastSender : JValue;
  collectedMessages : list JValue;
  currentMessage : option Partial;
  printed : list Output
}.

(** [Object.keys(currentMessage).length > 0 && collectedMessages.push(...)] *)
Definition collect (p : Progress) : list JValue :=
  collectedMessages p
  ++ match currentMessage p with Some m => [as_message m] | None => [] end.

Section FrontEnd.

Context {S : Type}.

Variable JSON_parse : string -> Exc JValue.
Variable JSON_stringify : JValue -> string.
Variable create : CreateParams -> S -> Exc JValue * S.

(** What [process.stdout.write] throws for a chunk it does not accept, if
    it throws. *)
Variable write_error : JValue -> option Thrown.

(** Whether two object values are one and the same object, which their
    contents do not tell. *)
Variable same_object : JValue -> JValue -> bool.

(** The bound on the iterations of each run. *)
Variable fuel : nat.

(** [a === b] *)
Definition strict_equal (a b : JValue) : bool :=
  match a, b with
  | JUndef, JUndef | JNull, JNull => true
  | JBool x, JBool y => Bool.eqb x y
  | JNum x, JNum y => x =? y
  | JStr x, JStr y => String.eqb x y
  | JArr _, JArr _ | JObj _, JObj _ => same_object a b
  | _, _ => false
  end.

(** **** [processStreamingResponse] *)

Definition print (o : Output) : Act (St:=Progress) unit :=
  update (fun p =>
    {| content := content p; lastSender := lastSender p;
       collectedMessages := collectedMessages p;
       currentMessage := currentMessage p;
       printed := printed p ++ [o] |}).

Definition stdout_write (chunk : JValue) : Act (St:=Progress) unit :=
  match write_error chunk with
  | Some error => act_lift (inl error)
  | None => print (StdoutWrite chunk)
  end.

(** [if ("sender" in chunk) { ... }] *)
Definition on_sender (chunk : JValue) : Act (St:=Progress) unit :=
  perform present <- act_lift (js_in "sender" chunk) ;
  if present then
    perform value <- act_lift (get_prop chunk "sender") ;
    update (fun p =>
      let previous :=
        match currentMessage p with Some m => sender m | None => JUndef end in
      if strict_equal previous value then
        {| content := content p; lastSender := value;
           collectedMessages := collectedMessages p;
           currentMessage := currentMessage p;
           printed := printed p |}
      else
        {| content := content p; lastSender := value;
           collectedMessages := collect p;
           currentMessage :=
             Some {| sender := value; text := ""; tool_calls := [] |};
           printed := printed p |})
  else act_ret tt.

(** [if ("content" in chunk && chunk.content !== null) { ... }] *)
Definition on_content (chunk : JValue) : Act (St:=Progress) unit :=
  perform present <- act_lift (js_in "content" chunk) ;
  if present then
    perform value <- act_lift (get_prop chunk "content") ;
    match value with
    | JNull => act_ret tt
    | _ =>
        perform p <- get ;
        perform _ <-
          (if negb (truthy (JStr (content p))) && truthy (lastSender p) then
             perform _ <-
               stdout_write
                 (JStr (esc +:+ "[94m" +:+ js_String (lastSender p) +:+ ":"
                          +:+ esc +:+ "[0m ")) ;
             update (fun p =>
               {| content := content p; lastSender := JStr "";
                  collectedMessages := collectedMessages p;
                  currentMessage := currentMessage p;
                  printed := printed p |})
           else act_ret tt) ;
        perform _ <- stdout_write value ;
        update (fun p =>
          {| content := content p +:+ js_String value;
             lastSender := lastSender p;
             collectedMessages := collectedMessages p;
             currentMessage :=
               option_map
                 (fun m => {| sender := sender m;
                              text := text m +:+ js_String value;
                              tool_calls := tool_calls m |})
                 (currentMessage p);
             printed := printed p |})
    end
  else act_ret tt.

(** The body of the loop over [chunk.tool_calls]. *)
Definition on_tool_call (toolCall : JValue) : Act (St:=Progress) unit :=
  perform callee <- act_lift (get_prop toolCall "function") ;
  perform name <-
    act_lift (match callee with
              | JUndef | JNull => inr JUndef
              | _ => get_prop callee "name"
              end) ;
  if negb (truthy name) then act_ret tt
  else
    perform p <- get ;
    perform _ <-
      print (ConsoleLog
               [JStr (esc +:+ "[94m" +:+ js_String (lastSender p) +:+ ": "
                        +:+ esc +:+ "[95m" +:+ js_String name +:+ esc
                        +:+ "[0m()")]) ;
    update (fun p =>
      {| content := content p; lastSender := lastSender p;
         collectedMessages := collectedMessages p;
         currentMessage :=
           option_map
             (fun m => {| sender := sender m; text := text m;
                          tool_calls := tool_calls m ++ [toolCall] |})
             (currentMessage p);
         printed := printed p |}).

(** [if ("tool_calls" in chunk && chunk.tool_calls) { ... }] *)
Definition on_tool_calls (chunk : JValue) : Act (St:=Progress) unit :=
  perform present <- act_lift (js_in "tool_calls" chunk) ;
  if present then
    perform value <- act_lift (get_prop chunk "tool_calls") ;
    if truthy value then
      perform calls <- act_lift (iterate value) ;
      for_of calls on_tool_call
    else act_ret tt
  else act_ret tt.

(** [if ("delim" in chunk && chunk.delim === "end" && content) { ... }] *)
Definition on_delim (chunk : JValue) : Act (St:=Progress) unit :=
  perform present <- act_lift (js_in "delim" chunk) ;
  if present then
    perform value <- act_lift (get_prop chunk "delim") ;
    update (fun p =>
      if strict_equal value (JStr "end") && truthy (JStr (content p)) then
        {| content := ""; lastSender := lastSender p;
           collectedMessages := collectedMessages p;
           currentMessage := currentMessage p;
           printed := printed p |}
      else p)
  else act_ret tt.

(** The body of the [for await] loop. *)
Definition on_chunk (chunk : JValue) : Act (St:=Progress) unit :=
  if negb (truthy chunk) then act_ret tt
  else
    perform _ <- on_sender chunk ;
    perform _ <- on_content chunk ;
    perform _ <- on_tool_calls chunk ;
    on_delim chunk.

(** The terminal: the world of the engine, and what has been printed. *)
Record Terminal : Type := mkTerminal {
  session : World (S:=S);
  shown : list Output
}.

(** [CLI.processStreamingResponse], over the array that [start] hands it:
    [for await] visits the elements of an array in order. *)
Definition processStreamingResponse (generator : list JValue)
  : Act (St:=Terminal) (list JValue) :=
  fun t =>
    let '(r, p) :=
      act_catch
        (perform _ <- for_of generator on_chunk ;
         update (fun p =>
           {| content := content p; lastSender := lastSender p;
              collectedMessages := collect p;
              currentMessage := currentMessage p;
              printed := printed p |}))
        (fun error =>
           print (LoggerError "Error processing stream:" (Caught error)))
        {| content := ""; lastSender := JStr ""; collectedMessages := [];
           currentMessage := None; printed := shown t |} in
    (match r with
     | Val _ => Val (collectedMessages p)
     | Exn error => Exn error
     | OutOfFuel => OutOfFuel
     end,
     {| session := session t; shown := printed p |}).

(** **** [prettyPrintMessages] *)

Definition show (o : Output) : Act (St:=Terminal) unit :=
  update (fun t => {| session := session t; shown := shown t ++ [o] |}).

Definition write_out (chunk : JValue) : Act (St:=Terminal) unit :=
  match write_error chunk with
  | Some error => act_lift (inl error)
  | None => show (StdoutWrite chunk)
  end.

(** The body of the loop over [toolCalls]. *)
Definition print_tool_call (toolCall : JValue) : Act (St:=Terminal) unit :=
  perform callee <- act_lift (get_prop toolCall "function") ;
  perform fields <- act_lift (destructure callee) ;
  let '(name, args) := fields in
  perform argStr <- act_lift (JSON_parse (js_String args)) ;
  show (ConsoleLog
          [JStr (esc +:+ "[95m" +:+ js_String name +:+ esc +:+ "[0m("
                   +:+ JSON_stringify argStr +:+ ")")]).

(** The body of the loop over [messages]. *)
Definition print_message (message : JValue) : Act (St:=Terminal) unit :=
  perform role <- act_lift (get_prop message "role") ;
  if negb (strict_equal role (JStr (MessageRole.text MessageRole.Assistant)))
  then act_ret tt
  else
    perform who <- act_lift (get_prop message "sender") ;
    perform _ <-
      write_out (JStr (esc +:+ "[94m" +:+ js_String who +:+ esc +:+ "[0m: ")) ;
    perform body <- act_lift (get_prop message "content") ;
    perform _ <-
      (if truthy body then show (ConsoleLog [body]) else act_ret tt) ;
    perform calls <- act_lift (get_prop message "tool_calls") ;
    let toolCalls := if truthy calls then calls else JArr [] in
    perform _ <-
      (if length_gt1 toolCalls then show (ConsoleLog []) else act_ret tt) ;
    perform items <- act_lift (iterate toolCalls) ;
    for_of items print_tool_call.

(** [CLI.prettyPrintMessages] *)
Definition prettyPrintMessages (msgs : list JValue)
  : Act (St:=Terminal) unit :=
  for_of msgs print_message.

(** **** [start] *)

(** [this.config]: the agent, the context variables (the location of the
    caller's object, when given) and the streaming flag. *)
Record Config : Type := mkConfig {
  cfg_agent : Agent (S:=S);
  cfg_contextVariables : option nat;
  cfg_stream : bool
}.

Variable config : Config.

(** A call into the engine. *)
Definition swarm {A} (m : M (S:=S) A) : Act (St:=Terminal) A :=
  fun t =>
    let (r, w) := m (session t) in
    (r, {| session := w; shown := shown t |}).

(** The [while (true)] loop of [start], fed the lines the user types; once
    they are used up the loop waits at its prompt. *)
Fixpoint start_loop (inputs : list string) (msgs : nat)
    (activeAgent : Agent (S:=S)) : Act (St:=Terminal) unit :=
  perform _ <- show (Question (esc +:+ "[90mUser" +:+ esc +:+ "[0m: ")) ;
  match inputs with
  | [] => act_ret tt
  | userInput :: rest =>
      perform _ <- swarm (push msgs [user_message userInput]) ;
      perform vars <-
        (match cfg_contextVariables config with
         | Some l => act_ret l
         | None => swarm (alloc (JObj []))
         end) ;
      perform response <-
        swarm (run JSON_parse JSON_stringify create default_retryConfig fuel
                 activeAgent msgs (Some vars)
                 {| modelOverride := None; stream := cfg_stream config;
                    maxTurns := Infinity; executeTools := true |}) ;
      match (if success response then data response else None) with
      | None =>
          perform _ <- show (LoggerError "Error:" (Failure (error response))) ;
          start_loop rest msgs activeAgent
      | Some d =>
          (* [response.data.messages] is an array, hence truthy *)
          perform _ <-
            (if cfg_stream config then
               perform streamMessages <-
                 processStreamingResponse (messages d) ;
               swarm (push msgs streamMessages)
             else
               perform _ <- prettyPrintMessages (messages d) ;
               swarm (push msgs (messages d))) ;
          start_loop rest msgs (default activeAgent (agent d))
      end
  end.

(** [CLI.start] *)
Definition start (inputs : list string) : Act (St:=Terminal) unit :=
  perform _ <- show (ConsoleLog [JStr ("Starting Swarm CLI " +:+ bee)]) ;
  perform msgs <- swarm (alloc (JArr [])) ;
  start_loop inputs msgs (cfg_agent config).

End FrontEnd.

(** *** Notions used by the statements about the front end *)



(** Whether [prettyPrintMessages] displays a message. *)
Definition displayed (message : JValue) : bool :=
  match get_prop message "role" with
  | inr (JStr role) =>
      String.eqb role (MessageRole.text MessageRole.Assistant)
  | _ => false
  end.

(** The chunks handed to [process.stdout.write]. *)
Definition written (outs : list Output) : list JValue :=
  flat_map (fun o => match o with StdoutWrite chunk => [chunk] | _ => [] end)
           outs.

(** The line [prettyPrintMessages] opens a message with. *)
Definition heading (message : JValue) : JValue :=
  JStr (esc +:+ "[94m"
          +:+ js_String (match get_prop message "sender" with
                         | inr who => who
                         | inl _ => JUndef
                         end)
          +:+ esc +:+ "[0m: ").

(** Code that ends, in a state related to the one it started in. *)
Definition settles {St A} (R : St -> St -> Prop) (m : Act (St:=St) A) : Prop :=
  forall s r s', m s = (r, s') -> r <> OutOfFuel /\ R s s'.


(** The engine's world is left alone and only lines of [console.log] are
    added. *)
Definition logs_only {S} (t t' : Terminal (S:=S)) : Prop :=
  session t' = session t
  /\ exists outs, shown t' = shown t ++ outs /\ written outs = [].

(** Code that ends with an exception, whatever the state. *)
Definition throws {St A} (m : Act (St:=St) A) : Prop :=
  forall s r s', m s = (r, s') -> exists e, r = Exn e.

(** Code that ends. *)
Definition ends {St A} (m : Act (St:=St) A) : Prop :=
  settles (fun _ _ => True) m.

(** *** Concrete collaborators of the front end *)

Module Desk.

(** A terminal that accepts text only. *)
Definition accepts_text (chunk : JValue) : option Thrown :=
  match chunk with
  | JStr _ => None
  | _ => Some (TypeError "The chunk argument must be of type string")
  end.

(** Every object value stands for an object of its own. *)
Definition distinct (a b : JValue) : bool := false.

Definition blank : Terminal (S:=nat) :=
  {| session := {| ext := 0%nat; heap := []; trace := [] |}; shown := [] |}.

Definition streaming_config : Config (S:=nat) :=
  {| cfg_agent := Scenario.A; cfg_contextVariables := None;
     cfg_stream := true |}.

Definition plain_config : Config (S:=nat) :=
  {| cfg_agent := Scenario.A; cfg_contextVariables := None;
     cfg_stream := false |}.

(** An answer that calls a tool [A] does not have, with a payload that is
    not JSON. *)
Definition stray_call : JValue :=
  Scenario.assistant_calling [tool_call "call-1" "search" "not json"].

Definition stray_script : list JValue :=
  [Scenario.completion_of stray_call;
   Scenario.completion_of (Scenario.assistant "done")].

(** The front end over a scripted provider. *)
Definition start_script (script : list JValue) (config : Config)
    (inputs : list string) : Res unit * Terminal :=
  start Scenario.parse Scenario.stringify (Scenario.scripted script)
    accepts_text distinct 8 config inputs blank.

End Desk.

End Cli.

(** * Properties of the embedding *)


(** ** The backoff sequence and the monad *)

Lemma backoff_shift initial cap i :
  backoff initial cap (Datatypes.S i) = backoff (Z.min (initial * 2) cap) cap i.
Proof.
  induction i as [|i IH]; [reflexivity|].
  change (backoff initial cap (Datatypes.S (Datatypes.S i)))
    with (Z.min (backoff initial cap (Datatypes.S i) * 2) cap).
  rewrite IH. reflexivity.
Qed.

Lemma backoff_le_cap initial cap i : initial <= cap -> backoff initial cap i <= cap.
Proof. intros H. destruct i; simpl; lia. Qed.

Lemma bind_inv {S A B} (m : M (S:=S) A) (k : A -> M B) w r w' :
  bind m k w = (r, w') ->
  (exists a w1, m w = (Val a, w1) /\ k a w1 = (r, w'))
  \/ (exists t, m w = (Exn t, w') /\ r = Exn t)
  \/ (m w = (OutOfFuel, w') /\ r = OutOfFuel).
Proof.
  unfold bind. destruct (m w) as [[a|t|] w1]; intros H.
  - left. eauto.
  - right. left. inversion H; subst. eauto.
  - right. right. inversion H; subst. eauto.
Qed.

Ltac bind_val H a w1 H1 H2 :=
  apply bind_inv in H;
  destruct H as [(a & w1 & H1 & H2)|[(? & _ & ?)|[_ ?]]]; [|discriminate..].

(** ** The retry loop *)

Section RetryProofs.
Context {S T : Type}.
Variable f : S -> Exc T * S.
Variable c : RetryConfig.
Hypothesis always_fails : forall s, exists t s', f s = (inl t, s').

Lemma retry_loop_step (op : M (S:=S) T) fuel attempt delay lastError :
  retry_loop op c (Datatypes.S fuel) attempt delay lastError =
  if attempt <=? maxRetries c then
    try_catch (await value <- op ; ret (Returned value))
      (fun error =>
         let lastError := as_Error error in
         await _ <- warn (retry_warning c attempt error) ;
         await delay' <-
           (if attempt <? maxRetries c then
              await _ <- sleep delay ;
              ret (Z.min (delay * 2) (maxDelay c))
            else ret delay) ;
         retry_loop op c fuel (attempt + 1) delay' (Some lastError))
  else ret (Exhausted lastError).
Proof. reflexivity. Qed.

Lemma retry_loop_exit (op : M (S:=S) T) fuel attempt delay lastError :
  maxRetries c < attempt ->
  retry_loop op c fuel attempt delay lastError = ret (Exhausted lastError).
Proof.
  intros H. destruct fuel; cbn [retry_loop];
    replace (attempt <=? maxRetries c) with false
      by (symmetry; apply Z.leb_gt; lia); reflexivity.
Qed.

Lemma retry_loop_keeps_last (op : M (S:=S) T) fuel :
  forall attempt delay e w w',
    retry_loop op c fuel attempt delay (Some e) w <> (Val (Exhausted None), w').
Proof.
  induction fuel as [|fuel IH]; intros attempt delay e w w'.
  - cbn [retry_loop]. destruct (attempt <=? maxRetries c); discriminate.
  - rewrite retry_loop_step. destruct (attempt <=? maxRetries c); [|discriminate].
    unfold try_catch.
    destruct (bind op (fun value => ret (Returned value)) w)
      as [[exit|t|] w1] eqn:Hop.
    + apply bind_inv in Hop.
      destruct Hop as [(v & w2 & _ & Hr)|[(t & _ & Hr)|[_ Hr]]]; try discriminate.
      inversion Hr; subst. discriminate.
    + cbv zeta. intros K. bind_val K u w2 K1 K2. bind_val K2 delay' w3 K3 K4.
      revert K4. apply IH.
    + discriminate.
Qed.

Lemma retry_loop_all_fail fuel :
  forall attempt delay lastError (w : World (S:=S)),
    attempt = maxRetries c - Z.of_nat fuel ->
    exists evs t s0 w',
      retry_loop (operation_of f) c (Datatypes.S fuel) attempt delay lastError w
        = (Val (Exhausted (Some (as_Error t))), w')
      /\ trace w' = (trace w ++ evs)%list
      /\ heap w' = heap w
      /\ f s0 = (inl t, ext w')
      /\ operations evs = Datatypes.S fuel
      /\ sleeps evs = map (backoff delay (maxDelay c)) (seq 0 fuel)
      /\ last evs = Some (EvWarn (retry_warning c (maxRetries c) t))
      /\ attempts_and_sleeps evs
         = None :: flat_map (fun i => [Some (backoff delay (maxDelay c) i); None])
                            (seq 0 fuel).
Proof.
  induction fuel as [|fuel IH]; intros attempt delay lastError w Hat.
  - change (Z.of_nat 0) with 0 in Hat. rewrite Z.sub_0_r in Hat. subst attempt.
    destruct (always_fails (ext w)) as (t & s' & Hf).
    exists [EvOperation; EvWarn (retry_warning c (maxRetries c) t)], t, (ext w).
    eexists.
    rewrite retry_loop_step, Z.leb_refl, Z.ltb_irrefl.
    unfold try_catch, operation_of, bind, log, external, warn, ret, lift, throw.
    cbn. rewrite Hf. cbn.
    replace (maxRetries c + 1 <=? maxRetries c) with false
      by (symmetry; apply Z.leb_gt; lia).
    unfold ret. rewrite <- app_assoc. repeat split; reflexivity.
  - destruct (always_fails (ext w)) as (t & s' & Hf).
    set (w1 := {| ext := s'; heap := heap w;
                  trace := (trace w ++ [EvOperation; EvWarn (retry_warning c attempt t); EvSleep delay])%list |}).
    destruct (IH (attempt + 1) (Z.min (delay * 2) (maxDelay c)) (Some (as_Error t)) w1)
      as (evs & t' & s0 & w' & Hrun & Htr & Hheap & Hlast & Hops & Hsl & Hl & Hline).
    { lia. }
    exists ([EvOperation; EvWarn (retry_warning c attempt t); EvSleep delay] ++ evs)%list, t', s0, w'.
    split.
    { rewrite <- Hrun. rewrite (retry_loop_step _ (Datatypes.S fuel)).
      replace (attempt <=? maxRetries c) with true by (symmetry; apply Z.leb_le; lia).
      replace (attempt <? maxRetries c) with true by (symmetry; apply Z.ltb_lt; lia).
      unfold try_catch, operation_of, bind, log, external, warn, sleep, ret, lift, throw.
      cbn. rewrite Hf. cbn. unfold w1.
      repeat rewrite <- app_assoc. reflexivity. }
    split. { rewrite Htr. unfold w1. cbn. rewrite <- app_assoc. reflexivity. }
    split. { rewrite Hheap. reflexivity. }
    split. { exact Hlast. }
    split. { unfold operations in *. cbn. rewrite Hops. reflexivity. }
    split. { unfold sleeps in *. cbn [flat_map app]. rewrite Hsl.
             cbn [seq map backoff]. f_equal.
             rewrite <- seq_shift, map_map.
             apply map_ext. intros i. symmetry. apply backoff_shift. }
    split. { rewrite last_app. rewrite Hl. reflexivity. }
    unfold attempts_and_sleeps in *. cbn [flat_map app]. rewrite Hline.
    cbn [seq flat_map backoff app]. do 3 f_equal.
    rewrite <- seq_shift. generalize (seq 0 fuel) as l.
    induction l as [|i l IHl]; [reflexivity|].
    cbn [map flat_map]. rewrite backoff_shift, IHl. reflexivity.
Qed.
End RetryProofs.

(** ** What a dispatch returns *)

Section DispatchFacts.
Context {S : Type}.
Variable JSON_parse : string -> Exc JValue.
Variable JSON_stringify : JValue -> string.

Lemma dispatch_fields toolCalls (a : Agent (S:=S)) context :
  forall response w r w',
    dispatch JSON_parse JSON_stringify toolCalls a context response w = (Val r, w') ->
    agent r = agent response /\ contextVariables r = contextVariables response.
Proof.
  induction toolCalls as [|toolCall rest IH]; intros response w r w' H.
  - inversion H; subst. split; reflexivity.
  - cbn [dispatch] in H.
    bind_val H fn w1 H1 H2. bind_val H2 fname w2 H3 H4.
    destruct (find_tool (functions a) fname) as [func|].
    + bind_val H4 message w3 H5 H6. apply IH in H6. exact H6.
    + bind_val H4 u w3 H5 H6. bind_val H6 tid w4 H7 H8.
      apply IH in H8. exact H8.
Qed.

Lemma handleToolCalls_data toolCalls (a : Agent (S:=S)) context w res w' :
  handleToolCalls JSON_parse JSON_stringify toolCalls a context w = (Val res, w') ->
  exists d, res = succeed d /\ agent d = None
            /\ contextVariables d = spread_object (default JUndef (heap w !! context)).
Proof.
  unfold handleToolCalls. intros H.
  bind_val H ctx w1 H1 H2. bind_val H2 calls w2 H3 H4. bind_val H4 r w3 H5 H6.
  inversion H6; subst. exists r. split; [reflexivity|].
  apply dispatch_fields in H5. cbn in H5. destruct H5 as [Ha Hc].
  inversion H1; subst. split; assumption.
Qed.
End DispatchFacts.

(** ** Relations kept by every step of the engine *)

Section RespectLemmas.
Context {S : Type}.
Variable JSON_parse : string -> Exc JValue.
Variable JSON_stringify : JValue -> string.
Variable create : CreateParams -> S -> Exc JValue * S.
Variable retryConfig : RetryConfig.
Variable R : World (S:=S) -> World (S:=S) -> Prop.
(** The locations the code may update, and the agents it may ask
    completions for. *)
Variable writable : nat -> Prop.
Variable asking : Agent (S:=S) -> Prop.

Hypothesis stable : Stable R writable asking.

Local Lemma R_refl : forall w, R w w.
Proof. exact (stable_refl R writable asking stable). Qed.

Local Lemma R_trans : forall w1 w2 w3, R w1 w2 -> R w2 w3 -> R w1 w3.
Proof. exact (stable_trans R writable asking stable). Qed.

Local Lemma R_ext : forall w s,
  R w {| ext := s; heap := heap w; trace := trace w |}.
Proof. exact (stable_ext R writable asking stable). Qed.

Local Lemma R_write : forall w l v, writable l -> R w (set_cell w l v).
Proof. exact (stable_write R writable asking stable). Qed.

Local Lemma R_log : forall w ev,
  (forall p, ev <> EvCreate p) -> R w (emit w [ev]).
Proof. exact (stable_log R writable asking stable). Qed.

Local Lemma R_request : forall w a override text items streaming,
  asking a ->
  match instructions a with Static t => text = t | Dynamic _ => True end ->
  R w (emit w [EvCreate (createParams a override text items streaming)]).
Proof. exact (stable_request R writable asking stable). Qed.

Lemma respects_ret {A} (a : A) : respects R (ret a).
Proof. intros w r w' H. inversion H. apply R_refl. Qed.

Lemma respects_throw {A} t : respects R (throw (A:=A) t).
Proof. intros w r w' H. inversion H. apply R_refl. Qed.

Lemma respects_out_of_fuel {A} : respects R (out_of_fuel (A:=A)).
Proof. intros w r w' H. inversion H. apply R_refl. Qed.

Lemma respects_lift {A} (e : Exc A) : respects R (lift e).
Proof. destruct e; [apply respects_throw | apply respects_ret]. Qed.

Lemma respects_bind {A B} (m : M A) (k : A -> M B) :
  respects R m ->
  (forall a w w1, m w = (Val a, w1) -> respects R (k a)) ->
  respects R (bind m k).
Proof.
  intros Hm Hk w r w' H.
  destruct (bind_inv _ _ _ _ _ H) as [(a & w1 & H1 & H2)|[(t & H1 & _)|[H1 _]]].
  - eapply R_trans; [eapply Hm; eauto | eapply Hk; eauto].
  - eapply Hm; eauto.
  - eapply Hm; eauto.
Qed.

Lemma respects_try_catch {A} (m : M A) (handler : Thrown -> M A) :
  respects R m -> (forall t, respects R (handler t)) ->
  respects R (try_catch m handler).
Proof.
  intros Hm Hh w r w' H. unfold try_catch in H.
  destruct (m w) as [[a|t|] w1] eqn:E.
  - inversion H; subst. eapply Hm; eauto.
  - eapply R_trans; [eapply Hm; eauto | eapply Hh; eauto].
  - inversion H; subst. eapply Hm; eauto.
Qed.

Lemma respects_log ev : (forall p, ev <> EvCreate p) -> respects R (log ev).
Proof. intros Hev w r w' H. inversion H. apply R_log, Hev. Qed.

Lemma respects_external {A} (f : S -> Exc A * S) : respects R (external f).
Proof.
  intros w r w' H. unfold external in H. destruct (f (ext w)) as [e s].
  destruct e; inversion H; subst; apply R_ext.
Qed.

Lemma respects_read l : respects R (read l).
Proof. intros w r w' H. inversion H. subst. apply R_refl. Qed.

Lemma respects_write l v : writable l -> respects R (write l v).
Proof. intros Hl w r w' H. inversion H. apply R_write, Hl. Qed.

Lemma respects_push l items : writable l -> respects R (push l items).
Proof.
  intros Hl. unfold push. apply respects_bind; [apply respects_read|].
  intros a _ _ _. destruct a; try apply respects_throw. apply respects_write, Hl.
Qed.

Lemma respects_retry_loop {T} (op : M T) c fuel :
  respects R op ->
  forall attempt delay lastError,
    respects R (retry_loop op c fuel attempt delay lastError).
Proof.
  intros Hop. induction fuel as [|fuel IH]; intros attempt delay lastError.
  - cbn [retry_loop]. destruct (attempt <=? maxRetries c);
      [apply respects_out_of_fuel | apply respects_ret].
  - cbn [retry_loop]. destruct (attempt <=? maxRetries c); [|apply respects_ret].
    apply respects_try_catch.
    + apply respects_bind; [exact Hop|]. intros; apply respects_ret.
    + intros t. apply respects_bind.
      { apply respects_log. discriminate. }
      intros _ _ _ _. apply respects_bind.
      { destruct (attempt <? maxRetries c); [|apply respects_ret].
        apply respects_bind; [apply respects_log; discriminate|].
        intros; apply respects_ret. }
      intros delay' _ _ _. apply IH.
Qed.

Lemma respects_retry {T} (op : M T) c : respects R op -> respects R (retry op c).
Proof.
  intros Hop. unfold retry. apply respects_bind.
  - apply respects_retry_loop, Hop.
  - intros [v|[e|]] _ _ _; [apply respects_ret | apply respects_throw..].
Qed.

Lemma respects_getChatCompletion a history override streaming :
  asking a ->
  respects R (getChatCompletion create retryConfig a history override streaming).
Proof.
  intros Ha. unfold getChatCompletion.
  apply respects_bind.
  { destruct (instructions a); [apply respects_ret | apply respects_external]. }
  intros text w0 w1 Htext. apply respects_bind; [apply respects_read|].
  intros h _ _ _. apply respects_bind; [apply respects_lift|].
  intros items _ _ _. apply respects_retry.
  unfold createChatCompletion. apply respects_bind.
  { intros w r w' H. inversion H. apply R_request; [exact Ha|].
    destruct (instructions a) eqn:E; [|exact I].
    inversion Htext. reflexivity. }
  intros _ _ _ _. apply respects_try_catch.
  - apply respects_bind; [apply respects_external|]. intros; apply respects_ret.
  - intros; apply respects_ret.
Qed.

Lemma respects_invoke func args context :
  writable context -> respects R (invoke func args context).
Proof.
  intros Hc. destruct func as [n body|n body]; cbn [invoke].
  - apply respects_bind; [apply respects_log; discriminate|].
    intros; apply respects_external.
  - apply respects_bind; [apply respects_lift|]. intros args' _ _ _.
    apply respects_bind; [apply respects_log; discriminate|]. intros _ _ _ _.
    apply respects_bind; [apply respects_read|]. intros ctx _ _ _.
    apply respects_bind; [apply respects_external|]. intros out _ _ _.
    apply respects_bind; [apply respects_write, Hc|]. intros; apply respects_lift.
Qed.

Lemma respects_dispatch toolCalls a context :
  writable context ->
  forall response,
    respects R (dispatch JSON_parse JSON_stringify toolCalls a context response).
Proof.
  intros Hc. induction toolCalls as [|toolCall rest IH]; intros response.
  - apply respects_ret.
  - cbn [dispatch].
    apply respects_bind; [apply respects_lift|]. intros fn _ _ _.
    apply respects_bind; [apply respects_lift|]. intros fname _ _ _.
    destruct (find_tool (functions a) fname) as [func|].
    + apply respects_bind; [|intros; apply IH].
      apply respects_try_catch.
      * apply respects_bind; [apply respects_lift|]. intros fn' _ _ _.
        apply respects_bind; [apply respects_lift|]. intros arguments _ _ _.
        apply respects_bind; [apply respects_lift|]. intros args _ _ _.
        apply respects_bind; [apply respects_invoke, Hc|]. intros result _ _ _.
        apply respects_bind; [apply respects_lift|]. intros; apply respects_ret.
      * intros t. apply respects_bind; [apply respects_lift|].
        intros; apply respects_throw.
    + apply respects_bind; [apply respects_log; discriminate|]. intros _ _ _ _.
      apply respects_bind; [apply respects_lift|]. intros; apply IH.
Qed.

Lemma respects_handleToolCalls toolCalls a context :
  writable context ->
  respects R (handleToolCalls JSON_parse JSON_stringify toolCalls a context).
Proof.
  intros Hc. unfold handleToolCalls.
  apply respects_bind; [apply respects_read|]. intros ctx _ _ _.
  apply respects_bind; [apply respects_lift|]. intros calls _ _ _.
  apply respects_bind; [apply respects_dispatch, Hc|]. intros; apply respects_ret.
Qed.

Lemma respects_finish a history context initLen :
  respects R (finish a history context initLen).
Proof.
  unfold finish.
  apply respects_bind; [apply respects_read|]. intros h _ _ _.
  apply respects_bind; [apply respects_lift|]. intros items _ _ _.
  apply respects_bind; [apply respects_read|]. intros; apply respects_ret.
Qed.

Lemma respects_after_dispatch toolResult activeAgent history context continue :
  writable history -> writable context ->
  (forall d, data toolResult = Some d ->
     respects R (continue (match agent d with
                           | Some next => next
                           | None => activeAgent
                           end))) ->
  respects R (after_dispatch toolResult activeAgent history context continue).
Proof.
  intros Hh Hc Hk. unfold after_dispatch.
  destruct (success toolResult); [|apply respects_ret].
  destruct (data toolResult) as [d|]; [|apply respects_ret].
  apply respects_bind; [apply respects_push, Hh|]. intros _ _ _ _.
  apply respects_bind; [apply respects_read|]. intros ctx _ _ _.
  apply respects_bind; [apply respects_lift|]. intros ctx' _ _ _.
  apply respects_bind; [apply respects_write, Hc|]. intros _ _ _ _.
  apply Hk. reflexivity.
Qed.

Lemma respects_run_loop fuel options history context initLen :
  writable history -> writable context ->
  forall activeAgent, asking activeAgent ->
    respects R (run_loop JSON_parse JSON_stringify create retryConfig fuel options
                  history context initLen activeAgent).
Proof.
  intros Hh Hc. induction fuel as [|fuel IH]; intros activeAgent Ha.
  - cbn [run_loop].
    apply respects_bind; [apply respects_read|]. intros h _ _ _.
    apply respects_bind; [apply respects_lift|]. intros len _ _ _.
    destruct (match len with JNum n => _ | _ => false end);
      [apply respects_out_of_fuel | apply respects_finish].
  - cbn [run_loop].
    apply respects_bind; [apply respects_read|]. intros h _ _ _.
    apply respects_bind; [apply respects_lift|]. intros len _ _ _.
    destruct (match len with JNum n => _ | _ => false end);
      [|apply respects_finish].
    apply respects_bind; [apply respects_getChatCompletion, Ha|].
    intros completion _ _ _.
    destruct (negb (success completion)); [apply respects_ret|].
    apply respects_bind; [apply respects_lift|]. intros message _ _ _.
    apply respects_bind; [apply respects_lift|]. intros message' _ _ _.
    apply respects_bind; [apply respects_push, Hh|]. intros _ _ _ _.
    apply respects_bind; [apply respects_lift|]. intros tool_calls _ _ _.
    destruct (negb (truthy tool_calls) || negb (executeTools options));
      [apply respects_finish|].
    apply respects_bind; [apply respects_handleToolCalls, Hc|].
    intros toolResult w1 w2 Htr.
    apply handleToolCalls_data in Htr. destruct Htr as (d & -> & Hnone & _).
    apply respects_after_dispatch; [exact Hh|exact Hc|].
    intros d' Hd'. inversion Hd'; subst d'. rewrite Hnone. apply IH, Ha.
Qed.

(** Generator code *)

Lemma G_respects_ret {A} (P : A -> Prop) (a : A) : P a -> G_respects R P (g_ret a).
Proof. intros Pa k h Hk Hh. apply Hk, Pa. Qed.

Lemma G_respects_bind {A B} (P : A -> Prop) (Q : B -> Prop) (m : G A) (f : A -> G B) :
  G_respects R P m -> (forall a, P a -> G_respects R Q (f a)) ->
  G_respects R Q (g_bind m f).
Proof.
  intros Hm Hf k h Hk Hh. unfold g_bind. apply Hm; [|exact Hh].
  intros a Pa. apply Hf; assumption.
Qed.

Lemma G_respects_await {A} (P : A -> Prop) (m : M A) :
  respects R m -> (forall w a w', m w = (Val a, w') -> P a) ->
  G_respects R P (g_await m).
Proof.
  intros Hm HP k h Hk Hh w r w' H. unfold g_await in H.
  destruct (m w) as [[a|t|] w1] eqn:E.
  - destruct (Hk a (HP _ _ _ E) _ _ _ H) as [K1 K2].
    split; [|exact K2]. eapply R_trans; [eapply Hm; eauto | exact K1].
  - destruct (Hh t _ _ _ H) as [K1 K2].
    split; [|exact K2]. eapply R_trans; [eapply Hm; eauto | exact K1].
  - inversion H; subst. split; [eapply Hm; eauto | exact I].
Qed.

Lemma G_respects_yield v : G_respects R anything (g_yield (S:=S) v).
Proof.
  intros k h Hk Hh w r w' H. inversion H; subst. split; [apply R_refl|].
  cbn. intros w1. destruct (k tt w1) as [x' w1'] eqn:E.
  exact (Hk tt I _ _ _ E).
Qed.

Lemma G_respects_weaken {A} (P Q : A -> Prop) (m : G A) :
  (forall a, P a -> Q a) -> G_respects R P m -> G_respects R Q m.
Proof. intros HPQ Hm k h Hk Hh. apply Hm; [|exact Hh]. intros a Pa. apply Hk, HPQ, Pa. Qed.

Lemma G_respects_await_any {A} (m : M A) :
  respects R m -> G_respects R anything (g_await m).
Proof. intros Hm. apply G_respects_await; [exact Hm|]. intros; exact I. Qed.

Lemma G_respects_consume chunks (activeAgent : Agent (S:=S)) :
  forall message, G_respects R anything (consume chunks activeAgent message).
Proof.
  induction chunks as [|chunk rest IH]; intros message.
  - apply G_respects_ret. exact I.
  - cbn [consume].
    eapply G_respects_bind; [apply G_respects_await_any; apply respects_lift|].
    intros delta _.
    eapply G_respects_bind; [apply G_respects_await_any; apply respects_lift|].
    intros role _.
    eapply G_respects_bind; [apply G_respects_await_any; apply respects_lift|].
    intros delta1 _.
    eapply G_respects_bind; [apply G_respects_yield|]. intros _ _.
    eapply G_respects_bind; [apply G_respects_await_any; apply respects_lift|].
    intros delta2 _.
    eapply G_respects_bind; [apply G_respects_await_any; apply respects_lift|].
    intros delta3 _.
    eapply G_respects_bind; [apply G_respects_await_any; apply respects_lift|].
    intros merged _. apply IH.
Qed.

Lemma G_respects_stream_loop fuel options a history context initLen :
  writable history -> writable context ->
  forall activeAgent, asking activeAgent ->
    G_respects R anything
      (stream_loop JSON_parse JSON_stringify create retryConfig fuel options a
         history context initLen activeAgent).
Proof.
  intros Hh Hc. induction fuel as [|fuel IH]; intros activeAgent Ha.
  - cbn [stream_loop].
    eapply G_respects_bind; [apply G_respects_await_any; apply respects_read|].
    intros h _.
    eapply G_respects_bind; [apply G_respects_await_any; apply respects_lift|].
    intros len _.
    destruct (match len with JNum n => _ | _ => false end).
    + intros k h' Hk Hh' w r w' H. inversion H; subst.
      split; [apply R_refl | exact I].
    + apply G_respects_await_any; apply respects_finish.
  - cbn [stream_loop].
    eapply G_respects_bind; [apply G_respects_await_any; apply respects_read|].
    intros h _.
    eapply G_respects_bind; [apply G_respects_await_any; apply respects_lift|].
    intros len _.
    destruct (match len with JNum n => _ | _ => false end);
      [|apply G_respects_await_any; apply respects_finish].
    eapply G_respects_bind;
      [apply G_respects_await_any; apply respects_getChatCompletion, Ha|].
    intros completion _.
    destruct (negb (success completion)); [apply G_respects_ret; exact I|].
    eapply G_respects_bind; [apply G_respects_yield|]. intros _ _.
    eapply G_respects_bind; [apply G_respects_await_any; apply respects_lift|].
    intros chunks _.
    eapply G_respects_bind; [apply G_respects_consume|]. intros message _.
    eapply G_respects_bind; [apply G_respects_yield|]. intros _ _.
    eapply G_respects_bind; [apply G_respects_await_any; apply respects_lift|].
    intros message' _.
    eapply G_respects_bind;
      [apply G_respects_await_any; apply respects_push, Hh|].
    intros _ _.
    eapply G_respects_bind; [apply G_respects_await_any; apply respects_lift|].
    intros tool_calls _.
    destruct (negb (truthy tool_calls) || negb (executeTools options));
      [apply G_respects_await_any; apply respects_finish|].
    eapply G_respects_bind.
    { apply (G_respects_await (fun tr => exists d, tr = succeed d /\ agent d = None)).
      - apply respects_handleToolCalls, Hc.
      - intros w tr w' Htr. apply handleToolCalls_data in Htr.
        destruct Htr as (d & -> & Hnone & _). eauto. }
    intros toolResult (d & -> & Hnone). cbn [success data succeed].
    eapply G_respects_bind;
      [apply G_respects_await_any; apply respects_push, Hh|].
    intros _ _.
    eapply G_respects_bind; [apply G_respects_await_any; apply respects_read|].
    intros ctx _.
    eapply G_respects_bind; [apply G_respects_await_any; apply respects_lift|].
    intros ctx' _.
    eapply G_respects_bind;
      [apply G_respects_await_any; apply respects_write, Hc|].
    intros _ _. rewrite Hnone. apply IH, Ha.
Qed.

(** The loop as [streamGenerator] runs it: its result and its failures end
    the generator. *)
Lemma g_respects_stream_loop fuel options a history context initLen
    activeAgent :
  writable history -> writable context -> asking activeAgent ->
  g_respects R
    (stream_loop JSON_parse JSON_stringify create retryConfig fuel options a
       history context initLen activeAgent
       (fun value w => (GReturn value, w))
       (fun error w => (GReturn (failed (unknown_error error)), w))).
Proof.
  intros Hh Hc Ha. apply G_respects_stream_loop; auto.
  - intros value _ w r w' H. inversion H; subst. split; [apply R_refl | exact I].
  - intros t w r w' H. inversion H; subst. split; [apply R_refl | exact I].
Qed.
End RespectLemmas.


(** ** The heap: what each part of the engine may touch *)

Section HeapFacts.
Context {S : Type}.
Variable JSON_parse : string -> Exc JValue.
Variable JSON_stringify : JValue -> string.
Variable create : CreateParams -> S -> Exc JValue * S.
Variable retryConfig : RetryConfig.

Lemma keeps_below_same n (w w' : World (S:=S)) :
  heap w' = heap w -> keeps_below n w w'.
Proof. intros E H. rewrite E. split; [exact H | reflexivity]. Qed.

Lemma keeps_below_refl n (w : World (S:=S)) : keeps_below n w w.
Proof. apply keeps_below_same. reflexivity. Qed.

Lemma keeps_below_stable n :
  Stable (S:=S) (keeps_below n) (fun l => (n <= l)%nat) (fun _ => True).
Proof.
  split.
  - apply keeps_below_refl.
  - intros w1 w2 w3 H12 H23 H1. destruct (H12 H1) as [H2 E12].
    destruct (H23 H2) as [H3 E23]. split; [exact H3 | congruence].
  - intros w s. apply keeps_below_same. reflexivity.
  - intros w l v Hl H. cbn. split.
    + rewrite length_insert. exact H.
    + apply take_insert_ge. exact Hl.
  - intros w ev _. apply keeps_below_same. reflexivity.
  - intros. apply keeps_below_same. reflexivity.
Qed.

Lemma same_heap_stable :
  Stable (S:=S) (fun w w' => heap w' = heap w) (fun _ => False) (fun _ => True).
Proof. split; try done. intros; congruence. Qed.

Lemma only_cell_stable l :
  Stable (S:=S) (only_cell l) (fun l' => l' = l) (fun _ => True).
Proof.
  split; try (intros; split; reflexivity).
  - intros w1 w2 w3 [L12 H12] [L23 H23]. split; [congruence|].
    intros l' Hl'. rewrite H23, H12; auto.
  - intros w l' v ->. split; cbn.
    + apply length_insert.
    + intros l' Hl'. apply list_lookup_insert_ne. congruence.
Qed.

Lemma asking_as_stable (a : Agent (S:=S)) :
  Stable (asking_as a) (fun _ => True) (fun a' => a' = a).
Proof.
  split.
  - intros w. exists []. split; [symmetry; apply app_nil_r | constructor].
  - intros w1 w2 w3 (e1 & E1 & F1) (e2 & E2 & F2). exists (e1 ++ e2).
    split; [rewrite E2, E1, app_assoc; reflexivity | apply Forall_app; auto].
  - intros w s. exists []. split; [symmetry; apply app_nil_r | constructor].
  - intros w l v _. exists []. split; [symmetry; apply app_nil_r | constructor].
  - intros w ev Hev. exists [ev]. split; [reflexivity|].
    constructor; [|constructor]. destruct ev; try exact I. exfalso. eapply Hev; eauto.
  - intros w a' override text items streaming -> Htext.
    eexists. split; [reflexivity|]. constructor; [|constructor].
    cbn. split; [reflexivity|]. eauto.
Qed.

Lemma getChatCompletion_heap a history override streaming (w : World (S:=S)) r w' :
  getChatCompletion create retryConfig a history override streaming w = (r, w') ->
  heap w' = heap w.
Proof.
  apply (respects_getChatCompletion create retryConfig _ _ _ same_heap_stable).
  exact I.
Qed.

Lemma handleToolCalls_only_context toolCalls a context (w : World (S:=S)) r w' :
  handleToolCalls JSON_parse JSON_stringify toolCalls a context w = (r, w') ->
  only_cell context w w'.
Proof.
  apply (respects_handleToolCalls JSON_parse JSON_stringify _ _ _
           (only_cell_stable context)).
  reflexivity.
Qed.

Lemma enter_inv messages contextVariables (w : World (S:=S)) r w' :
  enter messages contextVariables w = (r, w') ->
  let copy := spread_object (context_argument w contextVariables) in
  trace w' = trace w /\ ext w' = ext w /\
  ((exists t, r = Exn t /\ heap w' = heap w ++ [copy])
   \/ (exists items,
         iterate (default JUndef ((heap w ++ [copy]) !! messages)) = inr items
         /\ r = Val (Datatypes.S (length (heap w)), length (heap w), length items)
         /\ heap w' = heap w ++ [copy; JArr items])).
Proof.
  unfold enter, bind, alloc, read, lift, ret, throw, context_argument.
  destruct contextVariables as [l|]; cbn;
    match goal with
    | |- context [iterate ?v] => destruct (iterate v) as [t|items] eqn:E
    end;
    cbn; intros H; inversion H; subst; cbn;
    (split; [reflexivity|]); (split; [reflexivity|]).
  - left. eauto.
  - right. exists items. rewrite length_app, <- app_assoc. cbn.
    replace (length (heap w) + 1)%nat with (Datatypes.S (length (heap w))) by lia. eauto.
  - left. eauto.
  - right. exists items. rewrite length_app, <- app_assoc. cbn.
    replace (length (heap w) + 1)%nat with (Datatypes.S (length (heap w))) by lia. eauto.
Qed.

Lemma entered_keeps (w w0 w' : World (S:=S)) cells :
  heap w0 = heap w ++ cells ->
  keeps_below (length (heap w)) w0 w' ->
  take (length (heap w)) (heap w') = heap w.
Proof.
  intros E K. destruct K as [_ K].
  - rewrite E, length_app. lia.
  - rewrite K, E. apply take_app_length.
Qed.

Lemma streamGenerator_keeps fuel a messages contextVariables options
    (w : World (S:=S)) g w' :
  streamGenerator JSON_parse JSON_stringify create retryConfig fuel a messages
    contextVariables options w = (g, w') ->
  take (length (heap w)) (heap w') = heap w
  /\ gen_respects (keeps_below (length (heap w))) g.
Proof.
  unfold streamGenerator, g_bind, g_await. intros H.
  destruct (enter messages contextVariables w) as [r w0] eqn:E.
  apply enter_inv in E. destruct E as (_ & _ & [(t & -> & Hh)|(items & _ & -> & Hh)]).
  - inversion H; subst. split; [|exact I]. rewrite Hh. apply take_app_length.
  - destruct (g_respects_stream_loop JSON_parse JSON_stringify create retryConfig
                _ _ _ (keeps_below_stable (length (heap w)))
                fuel options a (Datatypes.S (length (heap w)))
                (length (heap w)) (length items) a) with (4 := H) as [K1 K2].
    + cbn. lia.
    + cbn. lia.
    + exact I.
    + split; [|exact K2]. eapply entered_keeps; [exact Hh | exact K1].
Qed.

Lemma run_keeps fuel a messages contextVariables options (w : World (S:=S)) r w' :
  run JSON_parse JSON_stringify create retryConfig fuel a messages
    contextVariables options w = (r, w') ->
  take (length (heap w)) (heap w') = heap w.
Proof.
  unfold run. destruct (stream options).
  - unfold runStream.
    destruct (streamGenerator _ _ _ _ _ _ _ _ _ w) as [g w1] eqn:G.
    apply streamGenerator_keeps in G. destruct G as [G _].
    destruct g; intros H; inversion H; subst; exact G.
  - unfold bind. destruct (enter messages contextVariables w) as [e w0] eqn:E.
    apply enter_inv in E. destruct E as (_ & _ & [(t & -> & Hh)|(items & _ & -> & Hh)]).
    + intros H; inversion H; subst. rewrite Hh. apply take_app_length.
    + intros H. eapply entered_keeps; [exact Hh|].
      revert H. unfold run_from.
      apply (respects_try_catch _ _ _ (keeps_below_stable (length (heap w)))).
      * apply (respects_run_loop JSON_parse JSON_stringify create retryConfig
                 _ _ _ (keeps_below_stable (length (heap w)))); cbn; auto; lia.
      * intros t. apply (respects_ret _ _ _ (keeps_below_stable (length (heap w)))).
Qed.
End HeapFacts.


(** ** The active agent of a run *)

Section ActiveAgent.
Context {S : Type}.
Variable JSON_parse : string -> Exc JValue.
Variable JSON_stringify : JValue -> string.
Variable create : CreateParams -> S -> Exc JValue * S.
Variable retryConfig : RetryConfig.

Lemma asking_as_same a (w w' : World (S:=S)) :
  trace w' = trace w -> asking_as a w w'.
Proof. intros E. exists []. split; [rewrite E; symmetry; apply app_nil_r | constructor]. Qed.

Lemma asking_as_after a (w w0 w' : World (S:=S)) :
  trace w0 = trace w -> asking_as a w0 w' -> asking_as a w w'.
Proof. intros E (evs & E' & F). exists evs. rewrite <- E. auto. Qed.

Lemma streamGenerator_asks_as fuel a messages contextVariables options
    (w : World (S:=S)) g w' :
  streamGenerator JSON_parse JSON_stringify create retryConfig fuel a messages
    contextVariables options w = (g, w') ->
  asking_as a w w' /\ gen_respects (asking_as a) g.
Proof.
  unfold streamGenerator, g_bind, g_await.
  destruct (enter messages contextVariables w) as [e w0] eqn:E.
  apply enter_inv in E.
  destruct E as (Ht & _ & [(t & -> & _)|(items & _ & -> & _)]).
  - intros H; inversion H; subst. split; [|exact I]. apply asking_as_same, Ht.
  - intros H.
    destruct (g_respects_stream_loop JSON_parse JSON_stringify create retryConfig
                _ _ _ (asking_as_stable a)
                fuel options a (Datatypes.S (length (heap w)))
                (length (heap w)) (length items) a) with (4 := H) as [K1 K2].
    + exact I.
    + exact I.
    + reflexivity.
    + split; [|exact K2]. apply (asking_as_after _ _ _ _ Ht), K1.
Qed.

Lemma run_asks_as fuel a messages contextVariables options (w : World (S:=S)) r w' :
  run JSON_parse JSON_stringify create retryConfig fuel a messages
    contextVariables options w = (r, w') ->
  asking_as a w w'.
Proof.
  unfold run. destruct (stream options).
  - unfold runStream.
    destruct (streamGenerator _ _ _ _ _ _ _ _ _ w) as [g w1] eqn:G.
    apply streamGenerator_asks_as in G. destruct G as [K _].
    destruct g; intros H; inversion H; subst; exact K.
  - unfold bind. destruct (enter messages contextVariables w) as [e w0] eqn:E.
    apply enter_inv in E.
    destruct E as (Ht & _ & [(t & -> & _)|(items & _ & -> & _)]).
    + intros H; inversion H; subst. apply asking_as_same, Ht.
    + intros H. apply (asking_as_after _ _ _ _ Ht).
      revert H. unfold run_from.
      apply (respects_try_catch _ _ _ (asking_as_stable a)).
      * apply (respects_run_loop JSON_parse JSON_stringify create retryConfig
                 _ _ _ (asking_as_stable a)); cbn; auto.
      * intros t. apply (respects_ret _ _ _ (asking_as_stable a)).
Qed.

Lemma finish_agent (a : Agent (S:=S)) history context initLen w res w' :
  finish a history context initLen w = (Val res, w') ->
  forall d, data res = Some d -> agent d = Some a.
Proof.
  unfold finish. intros H.
  bind_val H h w1 H1 H2. bind_val H2 items w2 H3 H4. bind_val H4 ctx w3 H5 H6.
  inversion H6; subst. cbn. intros d Hd. inversion Hd; subst. reflexivity.
Qed.

Lemma run_loop_agent fuel options history context initLen (a : Agent (S:=S)) :
  forall w res w',
    run_loop JSON_parse JSON_stringify create retryConfig fuel options history
      context initLen a w = (Val res, w') ->
    forall d, data res = Some d -> agent d = Some a.
Proof.
  induction fuel as [|fuel IH]; intros w res w' H; cbn [run_loop] in H.
  - bind_val H h w1 H1 H2. bind_val H2 len w2 H3 H4.
    destruct (match len with JNum n => _ | _ => false end); [discriminate|].
    eapply finish_agent; eauto.
  - bind_val H h w1 H1 H2. bind_val H2 len w2 H3 H4.
    destruct (match len with JNum n => _ | _ => false end);
      [|eapply finish_agent; eauto].
    bind_val H4 completion w3 H5 H6.
    destruct (negb (success completion)).
    { inversion H6; subst. cbn. discriminate. }
    bind_val H6 message w4 H7 H8. bind_val H8 stamped w5 H9 H10.
    bind_val H10 u w6 H11 H12. bind_val H12 tool_calls w7 H13 H14.
    destruct (negb (truthy tool_calls) || negb (executeTools options));
      [eapply finish_agent; eauto|].
    bind_val H14 toolResult w8 H15 H16.
    apply handleToolCalls_data in H15. destruct H15 as (d0 & -> & Hnone & _).
    unfold after_dispatch in H16. cbn [success data succeed] in H16.
    bind_val H16 u1 w9 H17 H18. bind_val H18 ctx w10 H19 H20.
    bind_val H20 ctx' w11 H21 H22. bind_val H22 u2 w12 H23 H24.
    rewrite Hnone in H24. eapply IH; eauto.
Qed.

Lemma run_agent fuel a messages contextVariables options (w : World (S:=S)) res w' :
  stream options = false ->
  run JSON_parse JSON_stringify create retryConfig fuel a messages
    contextVariables options w = (Val res, w') ->
  forall d, data res = Some d -> agent d = Some a.
Proof.
  unfold run. intros -> H. bind_val H e w0 H1 H2.
  destruct e as [[history context] initLen]. unfold run_from, try_catch in H2.
  destruct (run_loop _ _ _ _ _ _ _ _ _ _ w0) as [[res0|t|] w1] eqn:L.
  - inversion H2; subst. eapply run_loop_agent; eauto.
  - inversion H2; subst. cbn. discriminate.
  - discriminate.
Qed.
End ActiveAgent.


(** ** One iteration of the loop *)

Lemma try_catch_val_inv {S A} (m : M (S:=S) A) handler w a w' :
  try_catch m handler w = (Val a, w') ->
  m w = (Val a, w') \/ exists t w1, m w = (Exn t, w1) /\ handler t w1 = (Val a, w').
Proof.
  unfold try_catch. destruct (m w) as [[a0|t|] w1]; intros H.
  - left. exact H.
  - right. eauto.
  - discriminate.
Qed.

Lemma object_assign_object fs source :
  exists fs', object_assign (JObj fs) source = inr (JObj fs').
Proof.
  unfold object_assign. destruct (entries source) as [t|kvs]; [eauto|].
  revert fs. induction kvs as [|[k v] kvs IH]; intros fs; cbn; [eauto|].
  apply IH.
Qed.

Lemma bind_val_eq {S A B} (m : M (S:=S) A) (k : A -> M B) w a w1 :
  m w = (Val a, w1) -> bind m k w = k a w1.
Proof. unfold bind. intros ->. reflexivity. Qed.

Lemma bind_exn_eq {S A B} (m : M (S:=S) A) (k : A -> M B) w t w1 :
  m w = (Exn t, w1) -> bind m k w = (Exn t, w1).
Proof. unfold bind. intros ->. reflexivity. Qed.

Lemma lift_inr {S A} (e : Exc A) a (w : World (S:=S)) :
  e = inr a -> lift e w = (Val a, w).
Proof. intros ->. reflexivity. Qed.

Lemma lift_inl {S A} (e : Exc A) t (w : World (S:=S)) :
  e = inl t -> lift e w = (Exn t, w).
Proof. intros ->. reflexivity. Qed.

Lemma read_cell {S} (w : World (S:=S)) l v :
  heap w !! l = Some v -> read l w = (Val v, w).
Proof. unfold read. intros ->. reflexivity. Qed.

Lemma push_cell {S} (w : World (S:=S)) l xs items :
  heap w !! l = Some (JArr xs) ->
  push l items w = (Val tt, set_cell w l (JArr (xs ++ items))).
Proof.
  intros H. unfold push. erewrite bind_val_eq by (apply read_cell, H). reflexivity.
Qed.

Lemma get_prop_length h : get_prop (JArr h) "length" = inr (JNum (Z.of_nat (length h))).
Proof. reflexivity. Qed.

Section Turns.
Context {S : Type}.
Variable JSON_parse : string -> Exc JValue.
Variable JSON_stringify : JValue -> string.
Variable create : CreateParams -> S -> Exc JValue * S.
Variable retryConfig : RetryConfig.


Lemma retry_first_success {T} (op : M (S:=S) T) c w v w1 :
  1 <= maxRetries c -> op w = (Val v, w1) -> retry op c w = (Val v, w1).
Proof.
  intros Hn Hop. unfold retry.
  destruct (Z.to_nat (maxRetries c)) as [|fuel] eqn:E; [lia|].
  unfold bind at 1. rewrite retry_loop_step.
  replace (1 <=? maxRetries c) with true by (symmetry; apply Z.leb_le; lia).
  unfold try_catch, bind. rewrite Hop. reflexivity.
Qed.

Lemma getChatCompletion_returns a history override streaming (w : World (S:=S))
    h text s1 d s2 :
  1 <= maxRetries retryConfig ->
  heap w !! history = Some (JArr h) ->
  resolve_instructions a (ext w) = (inr text, s1) ->
  create (createParams a override text h streaming) s1 = (inr d, s2) ->
  getChatCompletion create retryConfig a history override streaming w
  = (Val (succeed d),
     {| ext := s2; heap := heap w;
        trace := trace w ++ [EvCreate (createParams a override text h streaming)] |}).
Proof.
  intros Hn Hh Hi Hc. unfold getChatCompletion, resolve_instructions in *.
  unfold bind at 1.
  assert ((match instructions a with
           | Static text => ret text
           | Dynamic produce => external produce
           end) w = (Val text, {| ext := s1; heap := heap w; trace := trace w |})) as ->.
  { destruct (instructions a).
    - inversion Hi; subst. destruct w; reflexivity.
    - unfold external. rewrite Hi. reflexivity. }
  unfold bind, read, lift, ret. cbn. rewrite Hh. cbn.
  apply retry_first_success; [exact Hn|].
  unfold createChatCompletion, bind, log, try_catch, external. cbn.
  rewrite Hc. reflexivity.
Qed.

Lemma run_loop_dispatch fuel options history context initLen a w0 tool_calls w :
  reaches_dispatch create retryConfig options history initLen a w0 tool_calls w ->
  run_loop JSON_parse JSON_stringify create retryConfig (Datatypes.S fuel) options
    history context initLen a w0
  = (await toolResult <- handleToolCalls JSON_parse JSON_stringify tool_calls a context ;
     after_dispatch toolResult a history context
       (run_loop JSON_parse JSON_stringify create retryConfig fuel options history
          context initLen)) w.
Proof.
  intros (h & completion & w1 & message & stamped & Hh & Hb & Hc & Hs & Hm & Hst
          & Htc & Ht & He & ->).
  pose proof Hc as Hheap. apply getChatCompletion_heap in Hheap.
  cbn [run_loop].
  erewrite bind_val_eq by (apply read_cell, Hh).
  erewrite bind_val_eq by (apply lift_inr, get_prop_length).
  cbv beta iota. rewrite Hb.
  erewrite bind_val_eq by (exact Hc).
  rewrite Hs. cbn [negb].
  erewrite bind_val_eq by (apply lift_inr, Hm).
  erewrite bind_val_eq by (apply lift_inr, Hst).
  erewrite bind_val_eq by (apply push_cell; rewrite Hheap; exact Hh).
  erewrite bind_val_eq by (apply lift_inr, Htc).
  rewrite Ht, He. cbn [negb orb]. reflexivity.
Qed.
End Turns.


(** ** The dispatch loop *)

Lemma bind_assoc {S A B C} (m : M (S:=S) A) (f : A -> M B) (g : B -> M C) w :
  bind (bind m f) g w = bind m (fun a => bind (f a) g) w.
Proof. unfold bind. destruct (m w) as [[a|t|] w1]; reflexivity. Qed.

Lemma bind_ext {S A B} (m : M (S:=S) A) (f g : A -> M B) w :
  (forall a w1, f a w1 = g a w1) -> bind m f w = bind m g w.
Proof. intros H. unfold bind. destruct (m w) as [[a|t|] w1]; auto. Qed.

Section Dispatch.
Context {S : Type}.
Variable JSON_parse : string -> Exc JValue.
Variable JSON_stringify : JValue -> string.

Lemma dispatch_app before after (a : Agent (S:=S)) context :
  forall response w,
    dispatch JSON_parse JSON_stringify (before ++ after) a context response w
    = (await r <- dispatch JSON_parse JSON_stringify before a context response ;
       dispatch JSON_parse JSON_stringify after a context r) w.
Proof.
  induction before as [|toolCall rest IH]; intros response w; [reflexivity|].
  cbn [dispatch app]. rewrite bind_assoc. apply bind_ext. intros fn w1.
  rewrite bind_assoc. apply bind_ext. intros fname w2.
  destruct (find_tool (functions a) fname).
  - rewrite bind_assoc. apply bind_ext. intros message w3. apply IH.
  - rewrite bind_assoc. apply bind_ext. intros u w3.
    rewrite bind_assoc. apply bind_ext. intros tid w4. apply IH.
Qed.

Lemma dispatch_length toolCalls (a : Agent (S:=S)) context :
  forall response w r w',
    dispatch JSON_parse JSON_stringify toolCalls a context response w = (Val r, w') ->
    exists answers,
      messages r = messages response ++ answers
      /\ length answers = length toolCalls.
Proof.
  induction toolCalls as [|toolCall rest IH]; intros response w r w' H.
  - inversion H; subst. exists []. split; [symmetry; apply app_nil_r | reflexivity].
  - cbn [dispatch] in H.
    bind_val H fn w1 H1 H2. bind_val H2 fname w2 H3 H4.
    destruct (find_tool (functions a) fname) as [func|].
    + bind_val H4 message w3 H5 H6. apply IH in H6.
      destruct H6 as (answers & E & L). exists (message :: answers).
      split; [rewrite E; cbn; rewrite <- app_assoc; reflexivity | cbn; lia].
    + bind_val H4 u w3 H5 H6. bind_val H6 tid w4 H7 H8. apply IH in H8.
      destruct H8 as (answers & E & L). eexists (_ :: answers).
      split; [rewrite E; cbn; rewrite <- app_assoc; reflexivity | cbn; lia].
Qed.

(** A call to a tool the agent does not have: a warning, one message, and
    the loop goes on. *)
Lemma dispatch_missing toolCall rest (a : Agent (S:=S)) context response w
    fn fname tid :
  get_prop toolCall "function" = inr fn ->
  get_prop fn "name" = inr fname ->
  get_prop toolCall "id" = inr tid ->
  find_tool (functions a) fname = None ->
  dispatch JSON_parse JSON_stringify (toolCall :: rest) a context response w
  = dispatch JSON_parse JSON_stringify rest a context
      (add_message response
         (tool_message (JStr ("Error: Tool " +:+ js_String fname +:+ " not found."))
                       tid))
      (emit w [EvWarn ("Tool " +:+ js_String fname +:+ " not found")]).
Proof.
  intros Hfn Hname Hid Hfind. cbn [dispatch].
  erewrite bind_val_eq by (apply lift_inr, Hfn).
  erewrite bind_val_eq by (apply lift_inr, Hname).
  rewrite Hfind.
  erewrite bind_val_eq by reflexivity.
  erewrite bind_val_eq by (apply lift_inr, Hid).
  reflexivity.
Qed.

(** A call whose payload does not parse: the dispatch stops there, before
    any tool body runs. *)
Lemma dispatch_unparsable toolCall rest (a : Agent (S:=S)) context response w
    fn fname payload func cause :
  get_prop toolCall "function" = inr fn ->
  get_prop fn "name" = inr fname ->
  get_prop fn "arguments" = inr payload ->
  find_tool (functions a) fname = Some func ->
  JSON_parse (js_String payload) = inl cause ->
  let invalid :=
    ValidationError ("Failed to parse function arguments: " +:+ js_String payload)
                    (Some (as_Error cause)) in
  dispatch JSON_parse JSON_stringify (toolCall :: rest) a context response w
  = (Exn (ToolExecutionError
            ("Failed to execute tool " +:+ js_String fname
               +:+ ": Failed to parse function arguments: " +:+ js_String payload)
            (Some invalid)), w).
Proof.
  intros Hfn Hname Hargs Hfind Hparse invalid. cbn [dispatch].
  erewrite bind_val_eq by (apply lift_inr, Hfn).
  erewrite bind_val_eq by (apply lift_inr, Hname).
  rewrite Hfind.
  erewrite bind_exn_eq; [reflexivity|].
  unfold try_catch.
  erewrite bind_val_eq by (apply lift_inr, Hfn).
  erewrite bind_val_eq by (apply lift_inr, Hargs).
  erewrite bind_exn_eq
    by (apply lift_inl; unfold parseArguments; rewrite Hparse; reflexivity).
  reflexivity.
Qed.

(** A call whose tool throws: the dispatch stops there with the wrapper
    error, in the world the tool left. *)
Lemma dispatch_throwing toolCall rest (a : Agent (S:=S)) context response w
    fn fname payload func args t m w' :
  get_prop toolCall "function" = inr fn ->
  get_prop fn "name" = inr fname ->
  get_prop fn "arguments" = inr payload ->
  find_tool (functions a) fname = Some func ->
  parseArguments JSON_parse payload = inr args ->
  invoke func args context w = (Exn t, w') ->
  message_of t = inr m ->
  dispatch JSON_parse JSON_stringify (toolCall :: rest) a context response w
  = (Exn (ToolExecutionError
            ("Failed to execute tool " +:+ js_String fname +:+ ": "
               +:+ js_String m)
            (Some t)), w').
Proof.
  intros Hfn Hname Hargs Hfind Hparse Hinvoke Hm. cbn [dispatch].
  erewrite bind_val_eq by (apply lift_inr, Hfn).
  erewrite bind_val_eq by (apply lift_inr, Hname).
  rewrite Hfind.
  erewrite bind_exn_eq; [reflexivity|].
  unfold try_catch.
  erewrite bind_val_eq by (apply lift_inr, Hfn).
  erewrite bind_val_eq by (apply lift_inr, Hargs).
  erewrite bind_val_eq by (apply lift_inr, Hparse).
  erewrite bind_exn_eq by (exact Hinvoke).
  erewrite bind_val_eq by (apply lift_inr, Hm).
  reflexivity.
Qed.

Lemma lift_world {A} (e : Exc A) (w : World (S:=S)) r w' :
  lift e w = (r, w') -> w' = w.
Proof. destruct e; intros H; inversion H; reflexivity. Qed.

Lemma external_heap {A} (f : S -> Exc A * S) (w : World (S:=S)) r w' :
  external f w = (r, w') -> heap w' = heap w.
Proof.
  unfold external. destruct (f (ext w)) as [e s].
  destruct e; intros H; inversion H; reflexivity.
Qed.

Lemma invoke_object_cell func args context (w : World (S:=S)) r w' :
  invoke func args context w = (Val r, w') ->
  object_cell w context -> object_cell w' context.
Proof.
  destruct func as [n body|n body]; cbn [invoke]; intros H (fs0 & Hfs0).
  - bind_val H u w1 H1 H2. inversion H1; subst.
    apply external_heap in H2. exists fs0. rewrite H2. exact Hfs0.
  - bind_val H args' w1 H1 H2. apply lift_world in H1. subst w1.
    bind_val H2 u w2 H3 H4. inversion H3; subst.
    bind_val H4 ctx w3 H5 H6. inversion H5; subst.
    bind_val H6 out w4 H7 H8. apply external_heap in H7.
    bind_val H8 u' w5 H9 H10. inversion H9; subst.
    apply lift_world in H10. subst w'.
    eexists. cbn. apply list_lookup_insert_eq.
    rewrite H7. cbn. apply lookup_lt_Some in Hfs0. exact Hfs0.
Qed.

Lemma dispatch_object_cell toolCalls (a : Agent (S:=S)) context :
  forall response w r w',
    dispatch JSON_parse JSON_stringify toolCalls a context response w = (Val r, w') ->
    object_cell w context -> object_cell w' context.
Proof.
  induction toolCalls as [|toolCall rest IH]; intros response w r w' H Hobj.
  - inversion H; subst. exact Hobj.
  - cbn [dispatch] in H.
    bind_val H fn w1 H1 H2. apply lift_world in H1. subst w1.
    bind_val H2 fname w2 H3 H4. apply lift_world in H3. subst w2.
    destruct (find_tool (functions a) fname) as [func|].
    + bind_val H4 message w3 H5 H6. eapply IH; [exact H6|].
      apply try_catch_val_inv in H5. destruct H5 as [H5|(t & w4 & _ & H5)].
      * bind_val H5 fn' w5 H7 H8. apply lift_world in H7. subst w5.
        bind_val H8 arguments w6 H9 H10. apply lift_world in H9. subst w6.
        bind_val H10 args w7 H11 H12. apply lift_world in H11. subst w7.
        bind_val H12 answer w8 H13 H14.
        bind_val H14 tid w9 H15 H16. apply lift_world in H15. subst w9.
        inversion H16; subst. eapply invoke_object_cell; eauto.
      * bind_val H5 m w5 H7 H8. discriminate.
    + bind_val H4 u w3 H5 H6. bind_val H6 tid w4 H7 H8.
      apply lift_world in H7. subst w4.
      eapply IH; [exact H8|]. inversion H5; subst. exact Hobj.
Qed.
End Dispatch.


(** ** Property reads after a property write *)

Lemma assoc_insert_field_eq k v fs :
  assoc k fs = None -> assoc k (insert_field k v fs) = Some v.
Proof.
  induction fs as [|[k' v'] fs IH]; cbn.
  - rewrite String.eqb_refl. reflexivity.
  - destruct (String.eqb k k') eqn:E; [discriminate|]. intros Hk.
    destruct (integer_key k) as [n|], (integer_key k') as [n'|];
      try destruct (n <? n')%N; cbn; rewrite ?String.eqb_refl, ?E; auto.
Qed.

Lemma assoc_insert_field_ne k k' v fs :
  k' <> k -> assoc k' (insert_field k v fs) = assoc k' fs.
Proof.
  intros Hne. apply String.eqb_neq in Hne.
  induction fs as [|[k0 v0] fs IH]; cbn.
  - rewrite Hne. reflexivity.
  - destruct (integer_key k) as [n|], (integer_key k0) as [n0|];
      try destruct (n <? n0)%N; cbn; rewrite ?Hne; try reflexivity;
      destruct (String.eqb k' k0); auto.
Qed.

Lemma assoc_replace_field_eq k v fs :
  assoc k fs <> None -> assoc k (replace_field k v fs) = Some v.
Proof.
  induction fs as [|[k' v'] fs IH]; cbn; [congruence|].
  destruct (String.eqb k k') eqn:E; cbn; rewrite E; auto.
Qed.

Lemma assoc_replace_field_ne k k' v fs :
  k' <> k -> assoc k' (replace_field k v fs) = assoc k' fs.
Proof.
  intros Hne. induction fs as [|[k0 v0] fs IH]; cbn; [reflexivity|].
  destruct (String.eqb k k0) eqn:E; cbn.
  - apply String.eqb_eq in E. subst k0.
    apply String.eqb_neq in Hne. rewrite Hne. reflexivity.
  - destruct (String.eqb k' k0); auto.
Qed.

Lemma assoc_set_field_eq k v fs : assoc k (set_field k v fs) = Some v.
Proof.
  unfold set_field. destruct (assoc k fs) eqn:E.
  - apply assoc_replace_field_eq. congruence.
  - apply assoc_insert_field_eq, E.
Qed.

Lemma assoc_set_field_ne k k' v fs :
  k' <> k -> assoc k' (set_field k v fs) = assoc k' fs.
Proof.
  intros Hne. unfold set_field. destruct (assoc k fs).
  - apply assoc_replace_field_ne, Hne.
  - apply assoc_insert_field_ne, Hne.
Qed.

(** ** The first turn of a run *)

Section FirstTurn.
Context {S : Type}.
Variable JSON_parse : string -> Exc JValue.
Variable JSON_stringify : JValue -> string.
Variable create : CreateParams -> S -> Exc JValue * S.
Variable retryConfig : RetryConfig.

Lemma enter_array messages contextVariables (w : World (S:=S)) items :
  heap w !! messages = Some (JArr items) ->
  enter messages contextVariables w
  = (Val (Datatypes.S (length (heap w)), length (heap w), length items),
     entered w contextVariables items).
Proof.
  intros Hm. unfold enter, entered.
  erewrite bind_val_eq by
    (instantiate (1 := w); instantiate (1 := context_argument w contextVariables);
     destruct contextVariables; reflexivity).
  erewrite bind_val_eq by reflexivity.
  erewrite bind_val_eq by (apply read_cell; cbn; apply lookup_app_l_Some, Hm).
  erewrite bind_val_eq by (apply lift_inr; reflexivity).
  erewrite bind_val_eq by reflexivity.
  unfold ret. cbn. rewrite length_app, <- app_assoc. cbn.
  replace (length (heap w) + 1)%nat with (Datatypes.S (length (heap w))) by lia.
  reflexivity.
Qed.

Lemma entered_history (w : World (S:=S)) contextVariables items :
  heap (entered w contextVariables items) !! Datatypes.S (length (heap w))
  = Some (JArr items).
Proof.
  cbn. rewrite lookup_app_r by lia.
  replace (Datatypes.S (length (heap w)) - length (heap w))%nat with 1%nat by lia.
  reflexivity.
Qed.

Lemma entered_context (w : World (S:=S)) contextVariables items :
  heap (entered w contextVariables items) !! length (heap w)
  = Some (spread_object (context_argument w contextVariables)).
Proof. cbn. rewrite lookup_app_r by lia. rewrite Nat.sub_diag. reflexivity. Qed.
End FirstTurn.


(** ** A dispatch inside a run *)

Section DispatchInRun.
Context {S : Type}.
Variable JSON_parse : string -> Exc JValue.
Variable JSON_stringify : JValue -> string.
Variable create : CreateParams -> S -> Exc JValue * S.
Variable retryConfig : RetryConfig.

Lemma handleToolCalls_unfold calls (a : Agent (S:=S)) context w :
  handleToolCalls JSON_parse JSON_stringify (JArr calls) a context w
  = (await response <-
       dispatch JSON_parse JSON_stringify calls a context
         (fresh_response (default JUndef (heap w !! context))) ;
     ret (succeed response)) w.
Proof. reflexivity. Qed.

(** After a successful dispatch the loop appends the tool messages, merges
    the dispatch's copy of the context, and goes on with the same agent. *)
Lemma after_dispatch_continues (d : ResponseData (S:=S)) a history context
    continue w h :
  agent d = None ->
  heap w !! history = Some (JArr h) ->
  object_cell w context ->
  history <> context ->
  exists w',
    after_dispatch (succeed d) a history context continue w = continue a w'
    /\ heap w' !! history = Some (JArr (h ++ messages d))
    /\ trace w' = trace w /\ ext w' = ext w.
Proof.
  intros Hnone Hh (fs & Hfs) Hne.
  destruct (object_assign_object fs (contextVariables d)) as (fs' & Hassign).
  eexists. split.
  - unfold after_dispatch. cbn [success data succeed].
    erewrite bind_val_eq by (apply push_cell, Hh).
    erewrite bind_val_eq by
      (apply read_cell; cbn; rewrite list_lookup_insert_ne by exact Hne; exact Hfs).
    erewrite bind_val_eq by (apply lift_inr, Hassign).
    erewrite bind_val_eq by reflexivity.
    rewrite Hnone. reflexivity.
  - cbn. split; [|split; reflexivity].
    rewrite list_lookup_insert_ne by congruence.
    apply list_lookup_insert_eq. apply lookup_lt_Some in Hh. exact Hh.
Qed.
End DispatchInRun.


(** ** The streaming entry point *)

Section StreamEntry.
Context {S : Type}.
Variable JSON_parse : string -> Exc JValue.
Variable JSON_stringify : JValue -> string.
Variable create : CreateParams -> S -> Exc JValue * S.
Variable retryConfig : RetryConfig.

(** Whatever [runStream] returns carries no message: its single [next()]
    ends before the first fragment is read. *)
Lemma runStream_no_messages fuel (a : Agent (S:=S)) msgs vars options w res
    w' :
  runStream JSON_parse JSON_stringify create retryConfig fuel a msgs vars
    options w = (Val res, w') ->
  forall d, data res = Some d -> messages d = [].
Proof.
  unfold runStream, streamGenerator, g_bind, g_await. intros H d Hd.
  destruct (enter msgs vars w) as [r w0] eqn:E.
  apply enter_inv in E.
  destruct E as (_ & _ & [(t & -> & Hh)|(items & _ & -> & Hh)]).
  - inversion H; subst. discriminate.
  - assert (heap w0 !! Datatypes.S (length (heap w)) = Some (JArr items)) as Hcell.
    { rewrite Hh, lookup_app_r by lia.
      replace (Datatypes.S (length (heap w)) - length (heap w))%nat with 1%nat
        by lia. reflexivity. }
    assert (finish a (Datatypes.S (length (heap w))) (length (heap w))
              (length items) w0
            = (Val (succeed {| messages := [];
                               agent := Some a;
                               contextVariables :=
                                 default JUndef (heap w0 !! length (heap w)) |}),
               w0)) as Hfinish.
    { unfold finish.
      erewrite bind_val_eq by (apply read_cell, Hcell).
      erewrite bind_val_eq by (apply lift_inr; reflexivity).
      unfold bind, read, ret. rewrite drop_all. reflexivity. }
    destruct fuel as [|fuel]; cbn [stream_loop] in H;
      unfold g_bind, g_await, g_ret, g_yield in H;
      rewrite (read_cell _ _ _ Hcell) in H;
      rewrite (lift_inr _ _ _ (get_prop_length items)) in H;
      destruct (below (Z.of_nat (length items) - Z.of_nat (length items))
                      (maxTurns options)).
    + inversion H.
    + rewrite Hfinish in H. inversion H; subst. inversion Hd; subst. reflexivity.
    + destruct (getChatCompletion create retryConfig a _ _ true w0)
        as [[completion|t|] w1].
      * destruct (negb (success completion)); inversion H; subst.
        -- discriminate.
        -- inversion Hd; subst. reflexivity.
      * inversion H; subst. discriminate.
      * inversion H.
    + rewrite Hfinish in H. inversion H; subst. inversion Hd; subst. reflexivity.
Qed.
End StreamEntry.


(** * The engine against its specification *)

Import Scenario.

(** C6, as the code has it.  An operation that fails on every attempt,
    under the configuration
    [{maxRetries = n >= 1, initialDelay = 1000, maxDelay = 10000}]: [retry]
    invokes it exactly [n] times and sleeps between consecutive attempts
    (the trace reads attempt, sleep d1, attempt, sleep d2, ..., attempt) for
    1000, 2000, 4000, 8000, 10000, 10000, ... milliseconds (d1 = initialDelay,
    d(i+1) = min(2 di, maxDelay), never above maxDelay); it does not sleep
    after the last failed attempt (the last thing it does is log the warning
    for attempt n, which ends with the message of that failure).  What it
    rejects with is the failure of that last attempt when that failure is an
    [Error] instance; a failure that is not one is not propagated: [retry]
    rejects with a new [Error] whose message is [String(failure)]. *)
Theorem retry_backoff_schedule {S T} (f : S -> Exc T * S) (n : Z)
    (w : World (S:=S)) :
  1 <= n ->
  (forall s, exists t s', f s = (inl t, s')) ->
  let config := {| maxRetries := n; initialDelay := 1000; maxDelay := 10000 |} in
  exists evs t s0 w',
    retry (operation_of f) config w
    = (Exn (match t with
            | ErrorObj _ _ _ _ => t
            | NonError v => ErrorObj "Error" (js_String v) None None
            end), w')
    /\ f s0 = (inl t, ext w')
    /\ trace w' = trace w ++ evs
    /\ operations evs = Z.to_nat n
    /\ sleeps evs = map (backoff 1000 10000) (seq 0 (Z.to_nat n - 1))
    /\ attempts_and_sleeps evs
       = None :: flat_map (fun i => [Some (backoff 1000 10000 i); None])
                          (seq 0 (Z.to_nat n - 1))
    /\ Forall (fun d => d <= 10000) (sleeps evs)
    /\ last evs
       = Some (EvWarn ("Operation failed (attempt " +:+ pretty n +:+ "/"
                         +:+ pretty n +:+ "): "
                         +:+ match t with
                             | ErrorObj _ message _ _ => message
                             | NonError v => js_String v
                             end))
    /\ map (backoff 1000 10000) (seq 0 6)
       = [1000; 2000; 4000; 8000; 10000; 10000]
    /\ forall i, backoff 1000 10000 (Datatypes.S i)
                 = Z.min (2 * backoff 1000 10000 i) 10000.
Proof.
  intros Hn Hf config.
  destruct (Z.to_nat n) as [|fuel] eqn:E; [lia|].
  destruct (retry_loop_all_fail f config Hf fuel 1 1000 None w)
    as (evs & t & s0 & w' & Hrun & Htr & _ & Hlast & Hops & Hsl & Hl & Hline).
  { cbn. lia. }
  exists evs, t, s0, w'. split.
  { unfold retry. cbn [maxRetries initialDelay config]. rewrite E.
    erewrite bind_val_eq by (exact Hrun). destruct t; reflexivity. }
  split; [exact Hlast|]. split; [exact Htr|]. split; [exact Hops|].
  replace (Datatypes.S fuel - 1)%nat with fuel by lia.
  split; [exact Hsl|]. split; [exact Hline|]. split.
  { rewrite Hsl. cbn [maxDelay config].
    generalize (seq 0 fuel) as l.
    induction l as [|i l IHl]; cbn [map]; constructor;
      [apply backoff_le_cap; lia | exact IHl]. }
  split; [rewrite Hl; destruct t; reflexivity|]. split; [reflexivity|].
  intros i. cbn [backoff]. f_equal. lia.
Qed.

Lemma retry_backoff_schedule_witness :
  exists evs s0 w',
    retry (operation_of failing) {| maxRetries := 3; initialDelay := 1000;
                                    maxDelay := 10000 |} start
      = (Exn (ErrorObj "Error" "ECONNRESET" None None), w')
    /\ failing s0 = (inl (ErrorObj "Error" "ECONNRESET" None None), ext w')
    /\ operations evs = 3%nat
    /\ sleeps evs = [1000; 2000]
    /\ attempts_and_sleeps evs = [None; Some 1000; None; Some 2000; None]
    /\ last evs
       = Some (EvWarn "Operation failed (attempt 3/3): ECONNRESET").
Proof.
  destruct (retry_backoff_schedule failing 3 start) as
    (evs & t & s0 & w' & H1 & H2 & _ & H4 & H5 & H6 & _ & H8 & _).
  - lia.
  - intros s. eexists. eexists. reflexivity.
  - assert (t = ErrorObj "Error" "ECONNRESET" None None) as ->
      by (inversion H2; reflexivity).
    exists evs, s0, w'. split; [exact H1|]. split; [exact H2|].
    split; [exact H4|]. split; [exact H5|]. split; [exact H6|]. exact H8.
Defined.

(** C6 as stated fails for an operation whose failures are not [Error]
    instances: the operation rejects with the text "boom" on each of its
    three attempts, and [retry] rejects with an [Error] object whose message
    is "boom", which is not the failure of the last attempt. *)
Lemma non_error_failure_is_replaced :
  exists evs w',
    retry (operation_of Samples.rejecting)
      {| maxRetries := 3; initialDelay := 1000; maxDelay := 10000 |} start
    = (Exn (ErrorObj "Error" "boom" None None), w')
    /\ trace w' = trace start ++ evs
    /\ operations evs = 3%nat
    /\ Samples.rejecting 2%nat = (inl (NonError (JStr "boom")), ext w')
    /\ ErrorObj "Error" "boom" None None <> NonError (JStr "boom").
Proof.
  do 2 eexists. split; [vm_compute; reflexivity|].
  split; [reflexivity|]. split; [reflexivity|]. split; [reflexivity|].
  discriminate.
Qed.

(** C10. With [maxRetries <= 0], [retry] never invokes the operation and
    rejects with the synthetic error "Operation failed with unknown error";
    with [maxRetries >= 1] that fallback is unreachable: the loop never ends
    without a last error. *)
Theorem retry_without_attempts {S T} (operation : M (S:=S) T)
    (config : RetryConfig) (w : World (S:=S)) :
  (maxRetries config <= 0 ->
   retry operation config w
   = (Exn (Error "Operation failed with unknown error"), w))
  /\ (1 <= maxRetries config ->
      forall w',
        retry_loop operation config (Z.to_nat (maxRetries config)) 1
          (initialDelay config) None w
        <> (Val (Exhausted None), w')).
Proof.
  split.
  - intros H. unfold retry.
    unfold bind. rewrite retry_loop_exit by lia. reflexivity.
  - intros H w'.
    destruct (Z.to_nat (maxRetries config)) as [|fuel] eqn:E; [lia|].
    rewrite retry_loop_step.
    replace (1 <=? maxRetries config) with true by (symmetry; apply Z.leb_le; lia).
    unfold try_catch.
    destruct (bind operation (fun value => ret (Returned value)) w)
      as [[exit|t|] w1] eqn:Hop.
    + apply bind_inv in Hop.
      destruct Hop as [(v & w2 & _ & Hr)|[(t & _ & Hr)|[_ Hr]]]; try discriminate.
      inversion Hr; subst. discriminate.
    + cbv zeta. intros K. bind_val K u w2 K1 K2. bind_val K2 delay' w3 K3 K4.
      revert K4. apply retry_loop_keeps_last.
    + discriminate.
Qed.

Lemma retry_without_attempts_witness :
  retry (operation_of failing) {| maxRetries := 0; initialDelay := 1000;
                                  maxDelay := 10000 |} start
  = (Exn (Error "Operation failed with unknown error"), start)
  /\ forall w',
       retry_loop (operation_of failing) default_retryConfig 3 1 1000 None start
       <> (Val (Exhausted None), w').
Proof.
  split.
  - apply (proj1 (retry_without_attempts (operation_of failing)
                    {| maxRetries := 0; initialDelay := 1000;
                       maxDelay := 10000 |} start)).
    cbn. lia.
  - apply (proj2 (retry_without_attempts (operation_of failing)
                    default_retryConfig start)).
    cbn. lia.
Defined.

(** C7, where the code departs from the specification.  The two fragments
    of the claim, merged in turn into the accumulator [streamGenerator]
    starts a turn with: the record at index 0 keeps the id "abc", but its
    arguments are "{}{}", not "{}".  [mergeFields(finalResponse, delta)] has
    already merged the [tool_calls] array of the fragment, element 0 under
    key "0", before the tool-call branch merges the same fragment again.
    The input of the repository's own test shows the same: a single fragment
    carrying a whole call leaves the name "testtest" and the arguments
    "{}{}" (the test looks at the id only). *)
Theorem mergeChunk_merges_tool_call_text_twice :
  (exists merged record fn,
     merge_both accumulator = inr merged
     /\ record_at merged "0" = inr record
     /\ get_prop record "id" = inr (JStr "abc")
     /\ get_prop record "function" = inr fn
     /\ get_prop fn "arguments" = inr (JStr "{}{}")
     /\ get_prop fn "arguments" <> inr (JStr "{}"))
  /\ (exists merged delta record fn,
        mergeChunk (JObj [("tool_calls", JObj [])]) whole_call
        = inr (merged, delta)
        /\ record_at merged "0" = inr record
        /\ get_prop record "id" = inr (JStr "123")
        /\ get_prop record "function" = inr fn
        /\ get_prop fn "name" = inr (JStr "testtest")
        /\ get_prop fn "arguments" = inr (JStr "{}{}")).
Proof.
  split.
  - do 3 eexists. split; [vm_compute; reflexivity|].
    split; [vm_compute; reflexivity|].
    split; [vm_compute; reflexivity|].
    split; [vm_compute; reflexivity|].
    split; [vm_compute; reflexivity | vm_compute; discriminate].
  - do 4 eexists. split; [vm_compute; reflexivity|].
    split; [vm_compute; reflexivity|].
    split; [vm_compute; reflexivity|].
    split; [vm_compute; reflexivity|].
    split; vm_compute; reflexivity.
Qed.

(** C2, where the code departs from the specification.  Agent A's tool
    "explode" throws: the run fails and nothing runs after the throwing call
    (one completion request, one tool invocation), but the error it returns
    carries the code UNKNOWN_ERROR, not TOOL_EXECUTION_ERROR.  This is so in
    every run: when the invocation of a registered tool throws during a
    dispatch, [handleToolCalls] rejects with a [ToolExecutionError] (code
    TOOL_EXECUTION_ERROR) in the world the tool left, the loop rejects with
    it, and the [catch] of [run] rebuilds it with the code UNKNOWN_ERROR and
    without its cause. *)
Theorem throwing_tool_reported_as_unknown_error :
  (exists res w' e,
     run_script throwing_script default_options = (Val res, w')
     /\ success res = false
     /\ error res = Some e
     /\ error_name e = "ToolExecutionError"
     /\ error_message e = "Failed to execute tool explode: Tool failed"
     /\ error_code e = "UNKNOWN_ERROR"
     /\ error_code e <> "TOOL_EXECUTION_ERROR"
     /\ tools_invoked (trace w') = ["explode"]
     /\ length (requests (trace w')) = 1%nat)
  /\ (forall (S : Type) (JSON_parse : string -> Exc JValue)
         (JSON_stringify : JValue -> string)
         (create : CreateParams -> S -> Exc JValue * S)
         (retryConfig : RetryConfig) (fuel : nat) (options : Options)
         (history context initLen : nat) (a : Agent (S:=S)) (w0 w : World)
         (before after : list JValue) (toolCall fn fname payload args m : JValue)
         (func : Tool) (t : Thrown) (r1 : ResponseData) (w1 w2 : World),
        reaches_dispatch create retryConfig options history initLen a w0
          (JArr (before ++ toolCall :: after)) w ->
        get_prop toolCall "function" = inr fn ->
        get_prop fn "name" = inr fname ->
        get_prop fn "arguments" = inr payload ->
        find_tool (functions a) fname = Some func ->
        parseArguments JSON_parse payload = inr args ->
        dispatch JSON_parse JSON_stringify before a context
          (fresh_response (default JUndef (heap w !! context))) w
        = (Val r1, w1) ->
        invoke func args context w1 = (Exn t, w2) ->
        message_of t = inr m ->
        let text :=
          "Failed to execute tool " +:+ js_String fname +:+ ": "
            +:+ js_String m in
        handleToolCalls JSON_parse JSON_stringify
          (JArr (before ++ toolCall :: after)) a context w
        = (Exn (ToolExecutionError text (Some t)), w2)
        /\ run_loop JSON_parse JSON_stringify create retryConfig
             (Datatypes.S fuel) options history context initLen a w0
           = (Exn (ToolExecutionError text (Some t)), w2)
        /\ run_from JSON_parse JSON_stringify create retryConfig
             (Datatypes.S fuel) options history context initLen a w0
           = (Val (failed {| error_name := "ToolExecutionError";
                             error_message := text;
                             error_code := "UNKNOWN_ERROR";
                             error_cause := None |}), w2)).
Proof.
  split.
  - do 3 eexists. split; [vm_compute; reflexivity|].
    repeat (split; [reflexivity|]). split; [discriminate|].
    split; reflexivity.
  - intros S JSON_parse JSON_stringify create retryConfig fuel options history
           context initLen a w0 w before after toolCall fn fname payload args m
           func t r1 w1 w2 Hreach Hfn Hname Hargs Hfind Hparse D1 Hinvoke Hm
           text.
    assert (handleToolCalls JSON_parse JSON_stringify
              (JArr (before ++ toolCall :: after)) a context w
            = (Exn (ToolExecutionError text (Some t)), w2)) as Hcalls.
    { rewrite handleToolCalls_unfold.
      erewrite bind_exn_eq; [reflexivity|].
      rewrite dispatch_app. erewrite bind_val_eq by (exact D1).
      eapply dispatch_throwing; eassumption. }
    assert (run_loop JSON_parse JSON_stringify create retryConfig
              (Datatypes.S fuel) options history context initLen a w0
            = (Exn (ToolExecutionError text (Some t)), w2)) as Hloop.
    { rewrite (run_loop_dispatch _ _ _ _ _ _ _ _ _ _ _ _ _ Hreach).
      erewrite bind_exn_eq by (exact Hcalls). reflexivity. }
    split; [exact Hcalls|]. split; [exact Hloop|].
    unfold run_from, try_catch. rewrite Hloop. reflexivity.
Qed.

(** C4, where the code departs from the specification.  The same agent,
    messages, context and provider (which says "hello", streamed or not):
    [run] returns the assistant message, agent A and the context variables;
    the streaming entry point returns an empty placeholder (no messages, no
    agent, no context variables) after a single [next()], while the
    generator is suspended at its first event and no fragment has been
    consumed.  In every run, whatever [runStream] (and so [run] when asked
    to stream) returns carries no message. *)
Theorem runStream_returns_a_placeholder :
  (exists res w1 d res' w2 d',
     run parse stringify greeter default_retryConfig 8 A 0%nat (Some 1%nat)
         one_turn start = (Val res, w1)
     /\ runStream parse stringify greeter default_retryConfig 8 A 0%nat
          (Some 1%nat) streaming start = (Val res', w2)
     /\ run parse stringify greeter default_retryConfig 8 A 0%nat (Some 1%nat)
          streaming start = (Val res', w2)
     /\ success res = true /\ data res = Some d
     /\ success res' = true /\ data res' = Some d'
     /\ messages d = [JObj [("role", JStr "assistant"); ("content", JStr "hello");
                            ("sender", JStr "A")]]
     /\ messages d' = []
     /\ agent d = Some A /\ agent d' = None
     /\ contextVariables d = JObj [("language", JStr "en")]
     /\ contextVariables d' = JObj []
     /\ match fst (streamGenerator parse stringify greeter default_retryConfig 8
                     A 0%nat (Some 1%nat) streaming start) with
        | GYield event _ => event = JObj [("delim", JStr "start")]
        | _ => False
        end)
  /\ (forall (S : Type) (JSON_parse : string -> Exc JValue)
         (JSON_stringify : JValue -> string)
         (create : CreateParams -> S -> Exc JValue * S)
         (retryConfig : RetryConfig) (fuel : nat) (a : Agent (S:=S))
         (msgs : nat) (vars : option nat) (options : Options) (w : World)
         (res : Result ResponseData) (w' : World) (d : ResponseData),
        (runStream JSON_parse JSON_stringify create retryConfig fuel a msgs
           vars options w = (Val res, w')
         \/ (stream options = true
             /\ run JSON_parse JSON_stringify create retryConfig fuel a msgs
                  vars options w = (Val res, w'))) ->
        data res = Some d -> messages d = []).
Proof.
  split.
  - do 6 eexists. split; [vm_compute; reflexivity|].
    split; [vm_compute; reflexivity|].
    split; [vm_compute; reflexivity|].
    repeat (split; [reflexivity|]). vm_compute. reflexivity.
  - intros S JSON_parse JSON_stringify create retryConfig fuel a msgs vars
           options w res w' d H Hd.
    assert (runStream JSON_parse JSON_stringify create retryConfig fuel a msgs
              vars options w = (Val res, w')) as Hstream.
    { destruct H as [H|[Hs H]]; [exact H|].
      unfold run in H. rewrite Hs in H. exact H. }
    eapply runStream_no_messages; eassumption.
Qed.

(** C9. The caller's inputs are not mutated by [run], whatever its outcome
    and whichever path (streaming or not) it takes: every array and object
    that existed before the call, the [messages] array and the
    [contextVariables] object among them, has the same contents after it.
    The history and the context the run works on are two fresh cells, which
    hold copies taken at entry.  The same holds of the streaming generator,
    at its first step and at every later one, however far a consumer drives
    it. *)
Theorem run_leaves_the_caller_inputs_unchanged {S}
    (JSON_parse : string -> Exc JValue) (JSON_stringify : JValue -> string)
    (create : CreateParams -> S -> Exc JValue * S) (retryConfig : RetryConfig)
    (fuel : nat) (a : Agent) (msgs : nat) (vars : option nat)
    (options : Options) (w : World (S:=S)) :
  let w' := snd (run JSON_parse JSON_stringify create retryConfig fuel a
                     msgs vars options w) in
  let g := streamGenerator JSON_parse JSON_stringify create retryConfig fuel a
             msgs vars options w in
  take (length (heap w)) (heap w') = heap w
  /\ (forall items, heap w !! msgs = Some items ->
                    heap w' !! msgs = Some items)
  /\ (forall l entries, vars = Some l -> heap w !! l = Some entries ->
                        heap w' !! l = Some entries)
  /\ (forall items, heap w !! msgs = Some (JArr items) ->
       enter msgs vars w
       = (Val (Datatypes.S (length (heap w)), length (heap w), length items),
          entered w vars items))
  /\ take (length (heap w)) (heap (snd g)) = heap w
  /\ gen_respects (keeps_below (length (heap w))) (fst g).
Proof.
  intros w' g. subst w' g.
  destruct (run JSON_parse JSON_stringify create retryConfig fuel a msgs
              vars options w) as [r w'] eqn:H.
  apply run_keeps in H. cbn [snd].
  assert (forall l v, heap w !! l = Some v -> heap w' !! l = Some v) as K.
  { intros l v Hl. rewrite <- H in Hl.
    apply lookup_take_Some in Hl. tauto. }
  split; [exact H|]. split; [intros items; apply K|].
  split; [intros l entries _; apply K|].
  split; [intros items; apply enter_array|].
  destruct (streamGenerator JSON_parse JSON_stringify create retryConfig fuel a
              msgs vars options w) as [x w1] eqn:G.
  apply streamGenerator_keeps in G. exact G.
Qed.

Lemma run_leaves_the_caller_inputs_unchanged_witness :
  let w' := snd (run_script
                   [completion_of (assistant_calling
                                     [tool_call "call-1" "remember" "{}"]);
                    completion_of (assistant "done")] default_options) in
  heap w' !! 0%nat = Some (JArr [user "hi"])
  /\ heap w' !! 1%nat = Some (JObj [("language", JStr "en")]).
Proof.
  intros w'. subst w'. unfold run_script.
  destruct (run_leaves_the_caller_inputs_unchanged parse stringify
              (scripted [completion_of (assistant_calling
                                          [tool_call "call-1" "remember" "{}"]);
                         completion_of (assistant "done")])
              default_retryConfig 8 A 0%nat (Some 1%nat) default_options start)
    as (_ & Hm & Hc & _).
  split.
  - apply Hm. reflexivity.
  - apply (Hc 1%nat); reflexivity.
Defined.


(** C5, as the code has it.  A run with [maxTurns = 1] whose provider
    answers the first completion request with an assistant message with
    content "hello" and no tool calls ends after that one request, with a
    success whose [messages] has exactly one element: the provider's message
    with its [sender] property set to the agent's name (the engine stamps
    every assistant message), so [{role: assistant, content: "hello",
    sender: <name>}] rather than [{role: assistant, content: "hello"}]. *)
Theorem single_turn_returns_the_stamped_message {S}
    (JSON_parse : string -> Exc JValue) (JSON_stringify : JValue -> string)
    (create : CreateParams -> S -> Exc JValue * S) (retryConfig : RetryConfig)
    (fuel : nat) (a : Agent) (msgs : nat) (vars : option nat)
    (options : Options) (w : World (S:=S)) (items : list JValue) (text : string)
    (s1 s2 : S) (response : JValue) (fs : list (string * JValue)) :
  stream options = false ->
  maxTurns options = Turns 1 ->
  1 <= maxRetries retryConfig ->
  heap w !! msgs = Some (JArr items) ->
  resolve_instructions a (ext w) = (inr text, s1) ->
  create (createParams a (modelOverride options) text items false) s1
    = (inr response, s2) ->
  first_message (succeed response) = inr (JObj fs) ->
  assoc "role" fs = Some (JStr "assistant") ->
  assoc "content" fs = Some (JStr "hello") ->
  truthy (default JUndef (assoc "tool_calls" fs)) = false ->
  let stamped := JObj (set_field "sender" (JStr (name a)) fs) in
  exists w',
    run JSON_parse JSON_stringify create retryConfig (Datatypes.S fuel) a
        msgs vars options w
    = (Val (succeed
              {| messages := [stamped];
                 agent := Some a;
                 contextVariables :=
                   spread_object (context_argument w vars) |}), w')
    /\ get_prop stamped "role" = inr (JStr "assistant")
    /\ get_prop stamped "content" = inr (JStr "hello")
    /\ get_prop stamped "sender" = inr (JStr (name a))
    /\ requests (trace w')
       = requests (trace w)
         ++ [createParams a (modelOverride options) text items false]
    /\ tools_invoked (trace w') = tools_invoked (trace w).
Proof.
  intros Hstream Hturns Hretries Hmessages Htext Hcreate Hfirst Hrole Hcontent
         Hcalls stamped.
  eexists. split.
  - unfold run. rewrite Hstream.
    erewrite bind_val_eq by (apply enter_array, Hmessages).
    cbv beta iota. unfold run_from, try_catch. cbn [run_loop].
    erewrite bind_val_eq by (apply read_cell, entered_history).
    erewrite bind_val_eq by (apply lift_inr, get_prop_length).
    cbv beta iota. rewrite Hturns. cbn [below].
    replace (Z.of_nat (length items) - Z.of_nat (length items) <? 1) with true
      by (symmetry; apply Z.ltb_lt; lia).
    erewrite bind_val_eq by
      (eapply getChatCompletion_returns;
       [exact Hretries | apply entered_history | exact Htext | exact Hcreate]).
    cbn [success succeed negb].
    erewrite bind_val_eq by (apply lift_inr, Hfirst).
    erewrite bind_val_eq by (apply lift_inr; reflexivity).
    erewrite bind_val_eq by (apply push_cell; cbn [heap]; apply entered_history).
    erewrite bind_val_eq by (apply lift_inr; reflexivity).
    rewrite assoc_set_field_ne by discriminate. rewrite Hcalls. cbn [negb orb].
    unfold finish.
    erewrite bind_val_eq by
      (apply read_cell; cbn; apply list_lookup_insert_eq;
       rewrite length_app; cbn; lia).
    erewrite bind_val_eq by (apply lift_inr; reflexivity).
    erewrite bind_val_eq by
      (apply read_cell; cbn; rewrite list_lookup_insert_ne by lia;
       apply (entered_context w vars items)).
    unfold ret. rewrite drop_app_length. reflexivity.
  - cbn [get_prop stamped]. rewrite !assoc_set_field_ne by discriminate.
    rewrite assoc_set_field_eq, Hrole, Hcontent. cbn [default].
    split; [reflexivity|]. split; [reflexivity|]. split; [reflexivity|].
    cbn [trace set_cell entered]. unfold requests, tools_invoked.
    rewrite !flat_map_app. cbn. rewrite app_nil_r. split; reflexivity.
Qed.

Lemma single_turn_returns_the_stamped_message_witness :
  exists w',
    run_script [completion_of (assistant "hello")] one_turn
    = (Val (succeed
              {| messages :=
                   [JObj [("role", JStr "assistant"); ("content", JStr "hello");
                          ("sender", JStr "A")]];
                 agent := Some A;
                 contextVariables := JObj [("language", JStr "en")] |}), w')
    /\ length (requests (trace w')) = 1%nat.
Proof.
  destruct (single_turn_returns_the_stamped_message parse stringify
              (scripted [completion_of (assistant "hello")]) default_retryConfig
              7 A 0%nat (Some 1%nat) one_turn start [user "hi"] "You are A."
              0%nat 1%nat (completion_of (assistant "hello"))
              [("role", JStr "assistant"); ("content", JStr "hello")])
    as (w' & Hrun & _ & _ & _ & Hreq & _); try reflexivity.
  - cbn. lia.
  - exists w'. split; [exact Hrun|]. rewrite Hreq. reflexivity.
Defined.

(** C5 as stated fails: in the scenario of the claim the run succeeds after
    its one request, and the list it returns is not
    [[{role: assistant, content: "hello"}]]: its element carries [sender]. *)
Lemma single_turn_message_is_not_the_bare_one :
  exists res w' d,
    run_script [completion_of (assistant "hello")] one_turn = (Val res, w')
    /\ success res = true
    /\ data res = Some d
    /\ length (requests (trace w')) = 1%nat
    /\ messages d <> [assistant "hello"]
    /\ messages d = [JObj [("role", JStr "assistant"); ("content", JStr "hello");
                           ("sender", JStr "A")]].
Proof.
  do 3 eexists. split; [vm_compute; reflexivity|].
  split; [reflexivity|]. split; [reflexivity|]. split; [reflexivity|].
  split; [discriminate | reflexivity].
Qed.


(** C1, where the code departs from the specification.  Agent A's tool
    "lookup" returns agent B (a handoff) and its tool "remember" returns a
    value exposing the context-variable delta [{user: "bob"}].  Both tools
    run, but [handleToolCalls] records no agent and merges nothing: the
    [ResponseData] it returns has [agent = null] and the copy of the context
    variables taken before the first call, without [user]; each return value
    only becomes the content of its tool message, as JSON text.  So the
    request of the next turn carries A's instructions, not B's, and the run
    reports A and the unchanged context variables.  This is so in every
    run: whatever the tools return, a dispatch that returns reports no agent
    and the copy of the context taken before the first call, and a
    non-streaming run that returns data reports the agent it was started
    with.  The callers are ready for more: [run] and [streamGenerator]
    adopt [toolResult.data.agent] when it is set and assign
    [toolResult.data.contextVariables] over the context. *)
Theorem handoff_and_delta_are_dropped :
  (exists d w1 m1 m2,
     handleToolCalls parse stringify (JArr handoff_calls) A 1%nat start
     = (Val (succeed d), w1)
     /\ tools_invoked (trace w1) = ["lookup"; "remember"]
     /\ agent d = None /\ agent d <> Some B
     /\ contextVariables d = JObj [("language", JStr "en")]
     /\ get_prop (contextVariables d) "user" = inr JUndef
     /\ get_prop (contextVariables d) "user" <> inr (JStr "bob")
     /\ messages d = [m1; m2]
     /\ get_prop m1 "role" = inr (JStr "tool")
     /\ get_prop m1 "tool_call_id" = inr (JStr "call-1")
     /\ get_prop m1 "content"
        = inr (JStr (stringify
                       (JObj [("name", JStr "B"); ("model", JStr "gpt-4o");
                              ("instructions", JStr "You are B.");
                              ("functions", JArr []);
                              ("parallelToolCalls", JBool false)])))
     /\ get_prop m2 "role" = inr (JStr "tool")
     /\ get_prop m2 "tool_call_id" = inr (JStr "call-2")
     /\ get_prop m2 "content"
        = inr (JStr (stringify
                       (JObj [("context_variables",
                               JObj [("user", JStr "bob")])]))))
  /\ (exists res w' d' second,
        run_script handoff_script default_options = (Val res, w')
        /\ success res = true
        /\ data res = Some d'
        /\ agent d' = Some A /\ agent d' <> Some B
        /\ contextVariables d' = JObj [("language", JStr "en")]
        /\ get_prop (contextVariables d') "user" = inr JUndef
        /\ tools_invoked (trace w') = ["lookup"; "remember"]
        /\ length (requests (trace w')) = 2%nat
        /\ requests (trace w') !! 1%nat = Some second
        /\ head (cp_messages second)
           = Some (JObj [("role", JStr "system");
                         ("content", JStr "You are A.")])
        /\ head (cp_messages second)
           <> Some (JObj [("role", JStr "system");
                          ("content", JStr "You are B.")]))
  /\ (forall (S : Type) (JSON_parse : string -> Exc JValue)
         (JSON_stringify : JValue -> string) (a : Agent (S:=S))
         (toolCalls : JValue) (context : nat) (w : World)
         (res : Result ResponseData) (w' : World),
        handleToolCalls JSON_parse JSON_stringify toolCalls a context w
        = (Val res, w') ->
        exists d,
          res = succeed d
          /\ agent d = None
          /\ contextVariables d
             = spread_object (default JUndef (heap w !! context)))
  /\ (forall (S : Type) (JSON_parse : string -> Exc JValue)
         (JSON_stringify : JValue -> string)
         (create : CreateParams -> S -> Exc JValue * S)
         (retryConfig : RetryConfig) (a : Agent (S:=S)) (fuel msgs : nat)
         (vars : option nat) (options : Options) (w : World)
         (res : Result ResponseData) (w' : World) (d : ResponseData),
        run JSON_parse JSON_stringify create retryConfig fuel a msgs vars
            options w = (Val res, w') ->
        stream options = false ->
        data res = Some d ->
        agent d = Some a).
Proof.
  split; [|split; [|split]].
  - do 4 eexists. split; [vm_compute; reflexivity|].
    split; [reflexivity|]. split; [reflexivity|]. split; [discriminate|].
    split; [reflexivity|]. split; [reflexivity|]. split; [discriminate|].
    split; [reflexivity|].
    repeat (split; [vm_compute; reflexivity|]). vm_compute. reflexivity.
  - do 4 eexists. split; [vm_compute; reflexivity|].
    split; [reflexivity|]. split; [reflexivity|]. split; [reflexivity|].
    split; [discriminate|]. split; [reflexivity|]. split; [reflexivity|].
    split; [reflexivity|]. split; [reflexivity|]. split; [reflexivity|].
    split; [reflexivity|]. discriminate.
  - intros S JSON_parse JSON_stringify a toolCalls context w res w' H.
    eapply handleToolCalls_data. exact H.
  - intros S JSON_parse JSON_stringify create retryConfig a fuel msgs vars
           options w res w' d H Hs Hd.
    eapply run_agent; eauto.
Qed.


(** C8. One of the dispatched calls names a tool the active agent does not
    have, and the calls before and after it succeed: [handleToolCalls]
    succeeds with one message per call, the one for the missing tool being
    the message [{role: "tool", content: "Error: Tool <name> not found.",
    tool_call_id: <the id of that call>}]; the calls after it are dispatched
    as usual.  The run does not stop there: the loop appends those messages
    to the history and goes on to its next iteration with the same agent, so
    the outcome of the run is that of the turns that follow. *)
Theorem unregistered_tool_is_recoverable {S}
    (JSON_parse : string -> Exc JValue) (JSON_stringify : JValue -> string)
    (create : CreateParams -> S -> Exc JValue * S) (retryConfig : RetryConfig)
    (fuel : nat) (options : Options) (history context initLen : nat)
    (a : Agent (S:=S)) (w0 w : World) (before after : list JValue)
    (toolCall fn fname tid : JValue) (h : list JValue)
    (r1 r2 : ResponseData) (w1 w2 : World) :
  reaches_dispatch create retryConfig options history initLen a w0
    (JArr (before ++ toolCall :: after)) w ->
  heap w !! history = Some (JArr h) ->
  object_cell w context ->
  history <> context ->
  get_prop toolCall "function" = inr fn ->
  get_prop fn "name" = inr fname ->
  get_prop toolCall "id" = inr tid ->
  find_tool (functions a) fname = None ->
  let notice :=
    JObj [("role", JStr "tool");
          ("content",
           JStr ("Error: Tool " +:+ js_String fname +:+ " not found."));
          ("tool_call_id", tid)] in
  dispatch JSON_parse JSON_stringify before a context
    (fresh_response (default JUndef (heap w !! context))) w = (Val r1, w1) ->
  dispatch JSON_parse JSON_stringify after a context (add_message r1 notice)
    (emit w1 [EvWarn ("Tool " +:+ js_String fname +:+ " not found")])
    = (Val r2, w2) ->
  exists answers w3,
    handleToolCalls JSON_parse JSON_stringify
      (JArr (before ++ toolCall :: after)) a context w = (Val (succeed r2), w2)
    /\ messages r2 = messages r1 ++ notice :: answers
    /\ get_prop notice "role" = inr (JStr "tool")
    /\ get_prop notice "content"
       = inr (JStr ("Error: Tool " +:+ js_String fname +:+ " not found."))
    /\ get_prop notice "tool_call_id" = inr tid
    /\ length (messages r1) = length before
    /\ length answers = length after
    /\ run_loop JSON_parse JSON_stringify create retryConfig (Datatypes.S fuel)
         options history context initLen a w0
       = run_loop JSON_parse JSON_stringify create retryConfig fuel options
           history context initLen a w3
    /\ heap w3 !! history = Some (JArr (h ++ messages r2))
    /\ trace w3 = trace w2 /\ ext w3 = ext w2.
Proof.
  intros Hreach Hh Hobj Hne Hfn Hname Hid Hfind notice D1 D2.
  assert (handleToolCalls JSON_parse JSON_stringify
            (JArr (before ++ toolCall :: after)) a context w
          = (Val (succeed r2), w2)) as Hcalls.
  { rewrite handleToolCalls_unfold.
    erewrite bind_val_eq; [reflexivity|].
    rewrite dispatch_app. erewrite bind_val_eq by (exact D1).
    erewrite dispatch_missing by eassumption. exact D2. }
  pose proof (dispatch_length _ _ _ _ _ _ _ _ _ D1) as (m1 & E1 & L1).
  pose proof (dispatch_length _ _ _ _ _ _ _ _ _ D2) as (m2 & E2 & L2).
  pose proof (dispatch_fields _ _ _ _ _ _ _ _ _ D1) as [A1 _].
  pose proof (dispatch_fields _ _ _ _ _ _ _ _ _ D2) as [A2 _].
  cbn in E1, E2, A1, A2.
  assert (heap w2 !! history = Some (JArr h)) as Hh2.
  { apply handleToolCalls_only_context in Hcalls. destruct Hcalls as [_ K].
    rewrite K by exact Hne. exact Hh. }
  assert (object_cell w2 context) as Hobj2.
  { eapply dispatch_object_cell; [exact D2|].
    destruct (dispatch_object_cell _ _ _ _ _ _ _ _ _ D1 Hobj) as (fs & Hfs).
    exists fs. exact Hfs. }
  destruct (after_dispatch_continues r2 a history context
              (run_loop JSON_parse JSON_stringify create retryConfig fuel options
                 history context initLen) w2 h) as (w3 & Hcont & Hh3 & Ht3 & He3);
    [congruence | exact Hh2 | exact Hobj2 | exact Hne |].
  exists m2, w3. split; [exact Hcalls|].
  split; [rewrite E2, <- app_assoc; reflexivity|].
  split; [reflexivity|]. split; [reflexivity|]. split; [reflexivity|].
  split; [rewrite E1; exact L1|]. split; [exact L2|].
  split; [|auto].
  rewrite (run_loop_dispatch _ _ _ _ _ _ _ _ _ _ _ _ _ Hreach).
  erewrite bind_val_eq by (exact Hcalls). exact Hcont.
Qed.

Lemma unregistered_tool_is_recoverable_witness :
  let w0 := entered start (Some 1%nat) [user "hi"] in
  exists w r2 w2 w3 res w',
    handleToolCalls parse stringify (JArr missing_calls) A 2%nat w
      = (Val (succeed r2), w2)
    /\ messages r2 !! 1%nat
       = Some (JObj [("role", JStr "tool");
                     ("content", JStr "Error: Tool search not found.");
                     ("tool_call_id", JStr "call-2")])
    /\ map (fun m => get_prop m "role") (messages r2)
       = [inr (JStr "tool"); inr (JStr "tool"); inr (JStr "tool")]
    /\ map (fun m => get_prop m "tool_call_id") (messages r2)
       = [inr (JStr "call-1"); inr (JStr "call-2"); inr (JStr "call-3")]
    /\ length (messages r2) = 3%nat
    /\ run_loop parse stringify (scripted missing_script) default_retryConfig
         8 default_options 3%nat 2%nat 1%nat A w0
       = run_loop parse stringify (scripted missing_script) default_retryConfig
           7 default_options 3%nat 2%nat 1%nat A w3
    /\ run_script missing_script default_options = (Val res, w')
    /\ success res = true
    /\ tools_invoked (trace w') = ["remember"; "lookup"].
Proof.
  intros w0.
  edestruct (unregistered_tool_is_recoverable parse stringify
               (scripted missing_script) default_retryConfig 7 default_options
               3%nat 2%nat 1%nat A w0)
    with (before := [tool_call "call-1" "remember" "{}"])
         (toolCall := tool_call "call-2" "search" "{}")
         (after := [tool_call "call-3" "lookup" "{}"])
    as (answers & w3 & Hcalls & Hm & _ & _ & _ & L1 & L2 & Hloop & _).
  - do 5 eexists.
    split; [lazy; reflexivity|]. split; [lazy; reflexivity|].
    split; [lazy; reflexivity|]. split; [reflexivity|].
    split; [lazy; reflexivity|]. split; [lazy; reflexivity|].
    split; [lazy; reflexivity|]. split; [reflexivity|].
    split; reflexivity.
  - lazy. reflexivity.
  - eexists. lazy. reflexivity.
  - lia.
  - reflexivity.
  - reflexivity.
  - reflexivity.
  - reflexivity.
  - lazy. reflexivity.
  - lazy. reflexivity.
  - do 6 eexists. split; [exact Hcalls|].
    split; [lazy; reflexivity|]. split; [lazy; reflexivity|].
    split; [lazy; reflexivity|]. split; [lazy; reflexivity|].
    split; [exact Hloop|].
    split; [vm_compute; reflexivity|]. split; reflexivity.
Defined.


(** C3, as the code has it.  One of the dispatched calls is for a tool the
    agent has, but its argument payload does not parse (and the calls before
    it succeeded): [parseArguments] fails with a validation error (code
    VALIDATION_ERROR) that keeps the payload text and wraps the parse
    failure; [handleToolCalls] catches it and rejects with a
    [ToolExecutionError] whose cause is that validation error; the loop
    rejects with it, and the run aborts and returns a failure carrying the
    name and the message of that wrapper, not a validation error.  Neither
    the tool of that call nor any later call of the turn runs: the world is
    left as it was after the calls before it. *)
Theorem unparsable_arguments_abort_the_run {S}
    (JSON_parse : string -> Exc JValue) (JSON_stringify : JValue -> string)
    (create : CreateParams -> S -> Exc JValue * S) (retryConfig : RetryConfig)
    (fuel : nat) (options : Options) (history context initLen : nat)
    (a : Agent (S:=S)) (w0 w : World) (before after : list JValue)
    (toolCall fn fname payload : JValue) (func : Tool) (cause : Thrown)
    (r1 : ResponseData) (w1 : World) :
  reaches_dispatch create retryConfig options history initLen a w0
    (JArr (before ++ toolCall :: after)) w ->
  get_prop toolCall "function" = inr fn ->
  get_prop fn "name" = inr fname ->
  get_prop fn "arguments" = inr payload ->
  find_tool (functions a) fname = Some func ->
  JSON_parse (js_String payload) = inl cause ->
  dispatch JSON_parse JSON_stringify before a context
    (fresh_response (default JUndef (heap w !! context))) w = (Val r1, w1) ->
  let invalid :=
    ValidationError ("Failed to parse function arguments: " +:+ js_String payload)
                    (Some (as_Error cause)) in
  let text :=
    "Failed to execute tool " +:+ js_String fname
      +:+ ": Failed to parse function arguments: " +:+ js_String payload in
  parseArguments JSON_parse payload = inl invalid
  /\ handleToolCalls JSON_parse JSON_stringify
       (JArr (before ++ toolCall :: after)) a context w
     = (Exn (ToolExecutionError text (Some invalid)), w1)
  /\ run_loop JSON_parse JSON_stringify create retryConfig (Datatypes.S fuel)
       options history context initLen a w0
     = (Exn (ToolExecutionError text (Some invalid)), w1)
  /\ exists res e,
       run_from JSON_parse JSON_stringify create retryConfig (Datatypes.S fuel)
         options history context initLen a w0 = (Val res, w1)
       /\ success res = false
       /\ data res = None
       /\ error res = Some e
       /\ error_name e = "ToolExecutionError"
       /\ error_message e = text.
Proof.
  intros Hreach Hfn Hname Hargs Hfind Hparse D1 invalid text.
  assert (handleToolCalls JSON_parse JSON_stringify
            (JArr (before ++ toolCall :: after)) a context w
          = (Exn (ToolExecutionError text (Some invalid)), w1)) as Hcalls.
  { rewrite handleToolCalls_unfold.
    erewrite bind_exn_eq; [reflexivity|].
    rewrite dispatch_app. erewrite bind_val_eq by (exact D1).
    eapply dispatch_unparsable; eassumption. }
  split; [unfold parseArguments; rewrite Hparse; reflexivity|].
  split; [exact Hcalls|].
  assert (run_loop JSON_parse JSON_stringify create retryConfig
            (Datatypes.S fuel) options history context initLen a w0
          = (Exn (ToolExecutionError text (Some invalid)), w1)) as Hloop.
  { rewrite (run_loop_dispatch _ _ _ _ _ _ _ _ _ _ _ _ _ Hreach).
    erewrite bind_exn_eq by (exact Hcalls). reflexivity. }
  split; [exact Hloop|].
  do 2 eexists. split.
  - unfold run_from, try_catch. rewrite Hloop. reflexivity.
  - repeat split; reflexivity.
Qed.

Lemma unparsable_arguments_abort_the_run_witness :
  let w0 := entered start (Some 1%nat) [user "hi"] in
  exists res e w1,
    run_from parse stringify (scripted unparsable_script) default_retryConfig 8
      default_options 3%nat 2%nat 1%nat A w0 = (Val res, w1)
    /\ success res = false
    /\ error res = Some e
    /\ error_name e = "ToolExecutionError"
    /\ error_message e
       = "Failed to execute tool lookup: Failed to parse function arguments: not json"
    /\ tools_invoked (trace w1) = ["remember"].
Proof.
  intros w0.
  edestruct (unparsable_arguments_abort_the_run parse stringify
               (scripted unparsable_script) default_retryConfig 7 default_options
               3%nat 2%nat 1%nat A w0)
    with (before := [tool_call "call-1" "remember" "{}"])
         (toolCall := tool_call "call-2" "lookup" "not json")
         (after := [tool_call "call-3" "remember" "{}"])
    as (_ & _ & _ & res & e & Hrun & Hs & _ & He & Hn & Hm).
  - do 5 eexists.
    split; [lazy; reflexivity|]. split; [lazy; reflexivity|].
    split; [lazy; reflexivity|]. split; [reflexivity|].
    split; [lazy; reflexivity|]. split; [lazy; reflexivity|].
    split; [lazy; reflexivity|]. split; [reflexivity|].
    split; reflexivity.
  - reflexivity.
  - reflexivity.
  - reflexivity.
  - reflexivity.
  - reflexivity.
  - lazy. reflexivity.
  - exists res, e. eexists. split; [exact Hrun|]. split; [exact Hs|].
    split; [exact He|]. split; [exact Hn|]. split; [exact Hm|]. reflexivity.
Defined.

(** C3 as stated fails: the failure a run returns for an unparsable payload
    is not a validation error, neither by its name nor by its code; the
    validation error is only the cause inside the tool-execution error the
    dispatch throws. *)
Lemma unparsable_arguments_not_a_validation_error :
  exists res w' e thrown w1,
    run_script unparsable_script default_options = (Val res, w')
    /\ success res = false
    /\ error res = Some e
    /\ error_name e = "ToolExecutionError"
    /\ error_name e <> "ValidationError"
    /\ error_code e <> "VALIDATION_ERROR"
    /\ tools_invoked (trace w') = ["remember"]
    /\ handleToolCalls parse stringify (JArr unparsable_calls) A 1%nat start
       = (Exn thrown, w1)
    /\ thrown
       = ToolExecutionError
           "Failed to execute tool lookup: Failed to parse function arguments: not json"
           (Some (ValidationError "Failed to parse function arguments: not json"
                    (Some (ErrorObj "SyntaxError"
                             "Unexpected token in JSON: not json" None None)))).
Proof.
  do 5 eexists. split; [vm_compute; reflexivity|].
  split; [reflexivity|]. split; [reflexivity|]. split; [reflexivity|].
  split; [discriminate|]. split; [discriminate|]. split; [reflexivity|].
  split; [vm_compute; reflexivity | reflexivity].
Qed.

(** * Further properties of the code *)

(** ** [retry] in general *)

Section RetryInGeneral.
Context {S T : Type}.
Variable f : S -> Exc T * S.
Variable c : RetryConfig.

(** The trace of [k] failed attempts, numbered from [attempt], each followed
    by its sleep. *)
Lemma retry_loop_succeeds_after (k : nat) (v : T) (s' : S) :
  forall fuel attempt delay lastError (w : World (S:=S))
         (states : nat -> S) (errors : nat -> Thrown),
    ext w = states 0%nat ->
    (forall i, (i < k)%nat ->
               f (states i) = (inl (errors i), states (Datatypes.S i))) ->
    f (states k) = (inr v, s') ->
    attempt + Z.of_nat k <= maxRetries c ->
    (k < fuel)%nat ->
    retry_loop (operation_of f) c fuel attempt delay lastError w
    = (Val (Returned v),
       {| ext := s'; heap := heap w;
          trace := trace w
                   ++ flat_map
                        (fun i => [EvOperation;
                                   EvWarn (retry_warning c (attempt + Z.of_nat i)
                                                         (errors i));
                                   EvSleep (backoff delay (maxDelay c) i)])
                        (seq 0 k)
                   ++ [EvOperation] |}).
Proof.
  induction k as [|k IH];
    intros fuel attempt delay lastError w states errors H0 Hfail Hok Hle Hfuel;
    (destruct fuel as [|fuel]; [lia|]); rewrite retry_loop_step;
    (replace (attempt <=? maxRetries c) with true
       by (symmetry; apply Z.leb_le; lia)).
  - unfold try_catch, operation_of, bind, log, external, ret, lift.
    cbn. rewrite H0, Hok. reflexivity.
  - replace (attempt <? maxRetries c) with true
      by (symmetry; apply Z.ltb_lt; lia).
    pose proof (Hfail 0%nat ltac:(lia)) as Hf0.
    unfold try_catch, operation_of, bind, log, external, warn, sleep, ret, lift,
      throw.
    cbn. rewrite H0, Hf0. cbn.
    rewrite (IH fuel (attempt + 1) (Z.min (delay * 2) (maxDelay c))
               (Some (as_Error (errors 0%nat))) _
               (fun i => states (Datatypes.S i))
               (fun i => errors (Datatypes.S i)));
      [|reflexivity | intros i Hi; apply Hfail; lia | exact Hok | lia | lia].
    cbn [ext heap trace]. f_equal. f_equal.
    rewrite <- !app_assoc. f_equal. cbn [app].
    rewrite Z.add_0_r. do 3 f_equal. f_equal.
    rewrite <- seq_shift. generalize (seq 0 k) as l.
    induction l as [|i l IHl]; [reflexivity|].
    cbn [map flat_map]. rewrite backoff_shift, IHl.
    replace (attempt + 1 + Z.of_nat i) with (attempt + Z.of_nat (Datatypes.S i))
      by lia.
    reflexivity.
Qed.
End RetryInGeneral.

(** X1. An operation that fails [k] times and then returns [v], under a
    configuration that allows more than [k] attempts: [retry] returns [v]
    after exactly [k + 1] invocations; each failed attempt [i] is followed
    by its warning and by a sleep of d(i) milliseconds (d(1) = initialDelay,
    d(i+1) = min(2 d(i), maxDelay)), and nothing follows the successful
    invocation. *)
Theorem retry_returns_the_first_success {S T} (f : S -> Exc T * S)
    (config : RetryConfig) (w : World (S:=S)) (states : nat -> S)
    (errors : nat -> Thrown) (k : nat) (v : T) (s' : S) :
  ext w = states 0%nat ->
  (forall i, (i < k)%nat ->
             f (states i) = (inl (errors i), states (Datatypes.S i))) ->
  f (states k) = (inr v, s') ->
  Z.of_nat k < maxRetries config ->
  retry (operation_of f) config w
  = (Val v,
     {| ext := s'; heap := heap w;
        trace := trace w
                 ++ flat_map
                      (fun i => [EvOperation;
                                 EvWarn (retry_warning config (1 + Z.of_nat i)
                                                       (errors i));
                                 EvSleep (backoff (initialDelay config)
                                                  (maxDelay config) i)])
                      (seq 0 k)
                 ++ [EvOperation] |}).
Proof.
  intros H0 Hfail Hok Hk. unfold retry.
  rewrite (bind_val_eq _ _ _ _ _
             (retry_loop_succeeds_after f config k v s'
                (Z.to_nat (maxRetries config)) 1 (initialDelay config) None w
                states
                errors H0 Hfail Hok ltac:(lia) ltac:(lia))).
  reflexivity.
Qed.

Lemma retry_returns_the_first_success_witness :
  retry (operation_of Samples.flaky) default_retryConfig start
  = (Val (JStr "ok"),
     {| ext := 3%nat; heap := heap start;
        trace := [EvOperation;
                  EvWarn "Operation failed (attempt 1/3): ECONNRESET";
                  EvSleep 1000;
                  EvOperation;
                  EvWarn "Operation failed (attempt 2/3): ECONNRESET";
                  EvSleep 2000;
                  EvOperation] |}).
Proof.
  rewrite (retry_returns_the_first_success Samples.flaky default_retryConfig
             start (fun i => i) (fun _ => Error "ECONNRESET") 2 (JStr "ok")
             3%nat).
  - vm_compute. reflexivity.
  - reflexivity.
  - intros i Hi. unfold Samples.flaky.
    replace (i <? 2)%nat with true by (symmetry; apply Nat.ltb_lt; lia).
    reflexivity.
  - reflexivity.
  - cbn. lia.
Defined.

Section RetryBound.
Context {S T : Type}.
Variable f : S -> Exc T * S.
Variable c : RetryConfig.

Lemma retry_loop_bounded fuel :
  forall attempt delay lastError (w : World (S:=S)) r w',
    Z.of_nat fuel = Z.max 0 (maxRetries c - attempt + 1) ->
    retry_loop (operation_of f) c fuel attempt delay lastError w = (r, w') ->
    r <> OutOfFuel
    /\ exists evs,
         trace w' = trace w ++ evs
         /\ heap w' = heap w
         /\ (operations evs <= fuel)%nat
         /\ (attempt <= maxRetries c -> (1 <= operations evs)%nat)
         /\ sleeps evs
            = map (backoff delay (maxDelay c)) (seq 0 (operations evs - 1)).
Proof.
  induction fuel as [|fuel IH]; intros attempt delay lastError w r w' Hfuel H.
  - rewrite retry_loop_exit in H by lia. inversion H; subst.
    split; [discriminate|]. exists []. rewrite app_nil_r.
    repeat split; auto. lia.
  - rewrite retry_loop_step in H.
    replace (attempt <=? maxRetries c) with true in H
      by (symmetry; apply Z.leb_le; lia).
    unfold try_catch, operation_of, bind, log, external in H. cbn in H.
    destruct (f (ext w)) as [[t|v] s] eqn:Hf; cbn in H.
    + destruct (attempt <? maxRetries c) eqn:Hlt.
      * apply Z.ltb_lt in Hlt. cbn in H.
        apply IH in H; [|cbn; lia].
        destruct H as (Hr & evs & Htr & Hheap & Hops & Hone & Hsl).
        specialize (Hone ltac:(lia)).
        split; [exact Hr|].
        exists ([EvOperation; EvWarn (retry_warning c attempt t); EvSleep delay]
                  ++ evs).
        split; [rewrite Htr; cbn; rewrite <- !app_assoc; reflexivity|].
        split; [rewrite Hheap; reflexivity|].
        unfold operations, sleeps in *. cbn [List.filter flat_map app length].
        split; [lia|]. split; [lia|].
        rewrite Hsl.
        replace (Datatypes.S (length (List.filter _ evs)) - 1)%nat
          with (Datatypes.S (length (List.filter
                   (fun ev => match ev with EvOperation => true | _ => false end)
                   evs) - 1))%nat by lia.
        cbn [seq map backoff]. f_equal.
        rewrite <- seq_shift, map_map. apply map_ext. intros i.
        symmetry. apply backoff_shift.
      * apply Z.ltb_ge in Hlt. cbn in H.
        rewrite retry_loop_exit in H by lia. inversion H; subst.
        split; [discriminate|].
        exists [EvOperation; EvWarn (retry_warning c attempt t)].
        cbn. rewrite <- app_assoc. repeat split; auto; lia.
    + inversion H; subst. split; [discriminate|].
      exists [EvOperation]. cbn. repeat split; auto; lia.
Qed.
End RetryBound.

(** X2. Whatever the operation does, [retry] ends (it returns or rejects)
    after at most [maxRetries] invocations, with one sleep between two
    consecutive invocations and none after the last: the sleeps are d(1),
    d(2), ... with d(1) = initialDelay and d(i+1) = min(2 d(i), maxDelay).
    So the first sleep is the initial delay, also when that is above
    [maxDelay], and every later one is at most [maxDelay]. *)
Theorem retry_is_bounded {S T} (f : S -> Exc T * S) (config : RetryConfig)
    (w : World (S:=S)) :
  let out := retry (operation_of f) config w in
  fst out <> OutOfFuel
  /\ exists evs,
       trace (snd out) = trace w ++ evs
       /\ heap (snd out) = heap w
       /\ (operations evs <= Z.to_nat (maxRetries config))%nat
       /\ sleeps evs
          = map (backoff (initialDelay config) (maxDelay config))
                (seq 0 (operations evs - 1))
       /\ (forall first later,
             sleeps evs = first :: later ->
             first = initialDelay config
             /\ Forall (fun d => d <= maxDelay config) later).
Proof.
  intros out. subst out. unfold retry, bind.
  destruct (retry_loop (operation_of f) config (Z.to_nat (maxRetries config)) 1
              (initialDelay config) None w) as [r w'] eqn:H.
  apply retry_loop_bounded in H; [|lia].
  destruct H as (Hr & evs & Htr & Hheap & Hops & _ & Hsl).
  assert (exists w'', (match r with
                       | Val (Returned value) => ret value w'
                       | Val (Exhausted (Some lastError)) => throw lastError w'
                       | Val (Exhausted None) =>
                           throw (Error "Operation failed with unknown error") w'
                       | Exn t => (Exn t, w')
                       | OutOfFuel => (OutOfFuel, w')
                       end) = (w'' : Res T * World) /\ snd w'' = w'
                      /\ fst w'' <> OutOfFuel) as (o & Ho & Hw & Hf).
  { destruct r as [[v|[e|]]|t|]; eexists; (split; [reflexivity|]);
      (split; [reflexivity|]); cbn; congruence. }
  match goal with |- fst ?x <> _ /\ _ => replace x with o end.
  2:{ rewrite <- Ho. destruct r as [[v|[e|]]|t|]; reflexivity. }
  split; [exact Hf|]. rewrite Hw. exists evs.
  split; [exact Htr|]. split; [exact Hheap|]. split; [exact Hops|].
  split; [exact Hsl|].
  intros first later E. rewrite Hsl in E.
  destruct (operations evs - 1)%nat as [|n]; [discriminate|].
  cbn [seq map backoff] in E. inversion E; subst. split; [reflexivity|].
  rewrite <- seq_shift, map_map.
  generalize (seq 0 n) as l. induction l as [|i l IHl]; constructor; [|exact IHl].
  cbn [backoff]. lia.
Qed.

Lemma retry_is_bounded_witness :
  exists evs,
    trace (snd (retry (operation_of failing) Samples.impatient start)) = evs
    /\ operations evs = 3%nat
    /\ sleeps evs = [20000; 10000].
Proof.
  destruct (retry_is_bounded failing Samples.impatient start)
    as (_ & evs & Htr & _ & Hops & Hsl & Hcap).
  exists evs. split; [rewrite Htr; reflexivity|].
  vm_compute in Htr. inversion Htr; subst evs.
  split; reflexivity.
Defined.

(** ** [mergeFields] *)

Lemma string_append_assoc (s1 s2 s3 : string) :
  (s1 +:+ s2) +:+ s3 = s1 +:+ (s2 +:+ s3).
Proof.
  induction s1 as [|ch s1 IH]; [reflexivity|].
  change (String ch ((s1 +:+ s2) +:+ s3) = String ch (s1 +:+ (s2 +:+ s3))).
  rewrite IH. reflexivity.
Qed.

Lemma concat_field_text old a b :
  concat_field (JStr (concat_field old a)) b = concat_field old (a ++ b).
Proof.
  unfold concat_field at 1. cbn [truthy js_String].
  destruct (String.eqb (concat_field old a) "") eqn:E; cbn [negb].
  - apply String.eqb_eq in E. unfold concat_field in *.
    destruct (truthy old).
    + destruct (js_String old); [|discriminate].
      change ("" +:+ a) with a in E. subst a. reflexivity.
    + change ("" +:+ a) with a in E. subst a. reflexivity.
  - unfold concat_field. destruct (truthy old).
    + rewrite string_append_assoc. reflexivity. 
    + reflexivity.
Qed.

Lemma replace_field_twice k v1 v2 fs :
  replace_field k v2 (replace_field k v1 fs) = replace_field k v2 fs.
Proof.
  induction fs as [|[k' v'] fs IH]; cbn; [reflexivity|].
  destruct (String.eqb k k') eqn:E; cbn; rewrite E; [reflexivity|].
  rewrite IH. reflexivity.
Qed.

Lemma replace_insert_field k v1 v2 fs :
  assoc k fs = None ->
  replace_field k v2 (insert_field k v1 fs) = insert_field k v2 fs.
Proof.
  induction fs as [|[k' v'] fs IH]; cbn.
  - rewrite String.eqb_refl. reflexivity.
  - destruct (String.eqb k k') eqn:E; [discriminate|]. intros Hk.
    destruct (integer_key k) as [n|], (integer_key k') as [n'|];
      try destruct (n <? n')%N; cbn; rewrite ?String.eqb_refl, ?E;
      try rewrite (IH Hk); reflexivity.
Qed.

Lemma set_field_twice k v1 v2 fs :
  set_field k v2 (set_field k v1 fs) = set_field k v2 fs.
Proof.
  unfold set_field at 1. rewrite assoc_set_field_eq.
  unfold set_field. destruct (assoc k fs) eqn:E.
  - apply replace_field_twice.
  - apply replace_insert_field, E.
Qed.

(** X3. Text accumulates in order: for a key that is not one of the names
    inherited from [Object.prototype], merging the fragment [a] and then
    the fragment [b] under that key of an object gives what merging
    [a ++ b] in one step gives, whatever own property the object had under
    that key before (absent, empty and falsy values count as the empty
    text); when the object has no property under that key, the merged text
    becomes a new property. *)
Theorem mergeFields_appends_text (fs : list (string * JValue)) (k a b : string) :
  inherited k = false ->
  (do t <- mergeFields (JObj fs) (JObj [(k, JStr a)]);
   mergeFields t (JObj [(k, JStr b)]))
  = mergeFields (JObj fs) (JObj [(k, JStr (a ++ b))])
  /\ (assoc k fs = None ->
      mergeFields (JObj fs) (JObj [(k, JStr (a ++ b))])
      = inr (JObj (insert_field k (JStr (a ++ b)) fs))).
Proof.
  intros _. split.
  - cbn [mergeFields exc_bind merge_entry get_prop set_prop].
    rewrite assoc_set_field_eq.
    change (default JUndef (Some ?x)) with x.
    rewrite concat_field_text, set_field_twice. reflexivity.
  - intros Hk. cbn [mergeFields exc_bind merge_entry get_prop set_prop].
    unfold set_field. rewrite Hk. reflexivity.
Qed.

Lemma mergeFields_appends_text_witness :
  (do t <- mergeFields (JObj [("role", JStr "assistant")])
             (JObj [("content", JStr "Hel")]);
   mergeFields t (JObj [("content", JStr "lo")]))
  = inr (JObj [("role", JStr "assistant"); ("content", JStr "Hello")])
  /\ mergeFields (JObj [("role", JStr "assistant")])
       (JObj [("content", JStr "Hello")])
     = inr (JObj [("role", JStr "assistant"); ("content", JStr "Hello")]).
Proof.
  destruct (mergeFields_appends_text [("role", JStr "assistant")] "content"
              "Hel" "lo" eq_refl) as [H1 H2].
  split; [rewrite H1|]; apply (H2 eq_refl).
Defined.

Lemma merge_entry_frame fs key value recur r :
  merge_entry (JObj fs) key value recur = inr r ->
  exists fs',
    r = JObj fs'
    /\ (forall k, k <> key -> assoc k fs' = assoc k fs)
    /\ (skipped value -> fs' = fs)
    /\ (forall k, assoc k fs <> None -> assoc k fs' <> None).
Proof.
  destruct value; cbn [merge_entry get_prop set_prop exc_bind truthy];
    intros H;
    try (inversion H; subst; exists fs; repeat split; auto; fail).
  - inversion H; subst. eexists. split; [reflexivity|].
    split; [intros k Hk; apply assoc_set_field_ne, Hk|].
    split; [intros []|].
    intros k Hk. destruct (String.eqb_spec k key) as [->|Hne].
    + rewrite assoc_set_field_eq. discriminate.
    + rewrite assoc_set_field_ne by exact Hne. exact Hk.
  - destruct (truthy (default JUndef (assoc key fs))) eqn:Ht;
      cbn [exc_bind get_prop] in H;
      match type of H with
      | context [recur ?x] => destruct (recur x) as [t|nested']; [discriminate|]
      end;
      cbn [exc_bind write_back set_prop] in H; inversion H; subst;
      eexists; (split; [reflexivity|]);
      (split; [intros k Hk; rewrite !assoc_set_field_ne by exact Hk; reflexivity|]);
      (split; [intros []|]);
      intros k Hk; destruct (String.eqb_spec k key) as [->|Hne];
      rewrite ?assoc_set_field_eq, ?assoc_set_field_ne by exact Hne;
      (discriminate || exact Hk).
  - destruct (truthy (default JUndef (assoc key fs))) eqn:Ht;
      cbn [exc_bind get_prop] in H;
      match type of H with
      | context [recur ?x] => destruct (recur x) as [t|nested']; [discriminate|]
      end;
      cbn [exc_bind write_back set_prop] in H; inversion H; subst;
      eexists; (split; [reflexivity|]);
      (split; [intros k Hk; rewrite !assoc_set_field_ne by exact Hk; reflexivity|]);
      (split; [intros []|]);
      intros k Hk; destruct (String.eqb_spec k key) as [->|Hne];
      rewrite ?assoc_set_field_eq, ?assoc_set_field_ne by exact Hne;
      (discriminate || exact Hk).
Qed.

(** X4. What [mergeFields] leaves alone in an object: a merge that returns
    gives an object again, in which every property the source does not
    mention, and every property for which the source only holds numbers,
    booleans, [null] or [undefined], has the value it had; no property is
    removed. *)
Theorem mergeFields_leaves_the_rest (fs src : list (string * JValue))
    (r : JValue) :
  mergeFields (JObj fs) (JObj src) = inr r ->
  exists fs',
    r = JObj fs'
    /\ (forall k, (forall v, In (k, v) src -> skipped v) ->
                  assoc k fs' = assoc k fs)
    /\ (forall k, assoc k fs <> None -> assoc k fs' <> None).
Proof.
  cbn [mergeFields]. revert fs r.
  induction src as [|[key value] src IH]; intros fs r H.
  - inversion H; subst. exists fs. auto.
  - cbn [exc_bind] in H.
    destruct (merge_entry (JObj fs) key value
                (fun nested => mergeFields nested value)) as [t|t1] eqn:E;
      [discriminate|].
    cbn [exc_bind] in H.
    apply merge_entry_frame in E. destruct E as (fs1 & -> & Hne & Hskip & Hkeep).
    apply IH in H. destruct H as (fs' & -> & Hrest & Hkeep').
    exists fs'. split; [reflexivity|]. split.
    + intros k Hk. rewrite Hrest by (intros v Hv; apply (Hk v); right; exact Hv).
      destruct (String.eqb_spec k key) as [->|Hk'].
      * rewrite Hskip; [reflexivity|]. apply (Hk value). left. reflexivity.
      * apply Hne, Hk'.
    + intros k Hk. apply Hkeep', Hkeep, Hk.
Qed.

Lemma mergeFields_leaves_the_rest_witness :
  exists fs',
    mergeFields (JObj [("content", JStr "Hel"); ("count", JNum 1)])
      (JObj [("content", JStr "lo"); ("count", JNum 5);
             ("function_call", JNull)])
    = inr (JObj fs')
    /\ assoc "count" fs' = Some (JNum 1)
    /\ assoc "function_call" fs' = None
    /\ assoc "content" fs' = Some (JStr "Hello").
Proof.
  destruct (mergeFields_leaves_the_rest
              [("content", JStr "Hel"); ("count", JNum 1)]
              [("content", JStr "lo"); ("count", JNum 5);
               ("function_call", JNull)]
              (JObj [("content", JStr "Hello"); ("count", JNum 1)]))
    as (fs' & E & Hrest & _); [vm_compute; reflexivity|].
  exists fs'. split; [rewrite <- E; vm_compute; reflexivity|].
  split; [|split].
  - rewrite Hrest; [reflexivity|].
    intros v [H|[H|[H|[]]]]; inversion H; subst; exact I.
  - rewrite Hrest; [reflexivity|].
    intros v [H|[H|[H|[]]]]; inversion H; subst; exact I.
  - inversion E; subst. reflexivity.
Defined.

(** ** The first request of a run *)

Section FirstRequest.
Context {S : Type}.
Variable JSON_parse : string -> Exc JValue.
Variable JSON_stringify : JValue -> string.
Variable create : CreateParams -> S -> Exc JValue * S.
Variable retryConfig : RetryConfig.

(** A provider failure is turned into a failed result by the client, which
    [retry] returns as it is. *)
Lemma getChatCompletion_fails a history override streaming (w : World (S:=S))
    h text s1 t s2 :
  1 <= maxRetries retryConfig ->
  heap w !! history = Some (JArr h) ->
  resolve_instructions a (ext w) = (inr text, s1) ->
  create (createParams a override text h streaming) s1 = (inl t, s2) ->
  getChatCompletion create retryConfig a history override streaming w
  = (Val (failed (api_failure t)),
     {| ext := s2; heap := heap w;
        trace := trace w ++ [EvCreate (createParams a override text h streaming)] |}).
Proof.
  intros Hn Hh Hi Hc. unfold getChatCompletion, resolve_instructions in *.
  unfold bind at 1.
  assert ((match instructions a with
           | Static text => ret text
           | Dynamic produce => external produce
           end) w = (Val text, {| ext := s1; heap := heap w; trace := trace w |})) as ->.
  { destruct (instructions a).
    - inversion Hi; subst. destruct w; reflexivity.
    - unfold external. rewrite Hi. reflexivity. }
  unfold bind, read, lift, ret. cbn. rewrite Hh. cbn.
  apply retry_first_success; [exact Hn|].
  unfold createChatCompletion, bind, log, try_catch, external. cbn.
  rewrite Hc. reflexivity.
Qed.

(** Without attempts there is no request: the synthetic error of [retry]. *)
Lemma getChatCompletion_without_attempts a history override streaming
    (w : World (S:=S)) h text s1 :
  maxRetries retryConfig <= 0 ->
  heap w !! history = Some (JArr h) ->
  resolve_instructions a (ext w) = (inr text, s1) ->
  getChatCompletion create retryConfig a history override streaming w
  = (Exn (Error "Operation failed with unknown error"),
     {| ext := s1; heap := heap w; trace := trace w |}).
Proof.
  intros Hn Hh Hi. unfold getChatCompletion, resolve_instructions in *.
  unfold bind at 1.
  assert ((match instructions a with
           | Static text => ret text
           | Dynamic produce => external produce
           end) w = (Val text, {| ext := s1; heap := heap w; trace := trace w |})) as ->.
  { destruct (instructions a).
    - inversion Hi; subst. destruct w; reflexivity.
    - unfold external. rewrite Hi. reflexivity. }
  unfold bind, read, lift, ret. cbn. rewrite Hh. cbn.
  unfold retry, bind. rewrite retry_loop_exit by lia. reflexivity.
Qed.

(** The loop up to its first request. *)
Lemma run_loop_asks fuel options history context initLen a (w : World (S:=S)) h :
  heap w !! history = Some (JArr h) ->
  below (Z.of_nat (length h) - Z.of_nat initLen) (maxTurns options) = true ->
  run_loop JSON_parse JSON_stringify create retryConfig (Datatypes.S fuel) options
    history context initLen a w
  = (await completion <-
       getChatCompletion create retryConfig a history (modelOverride options)
         false ;
     if negb (success completion) then ret (pass_failure completion)
     else
       await message <- lift (first_message completion) ;
       await message <- lift (set_prop message "sender" (JStr (name a))) ;
       await _ <- push history [message] ;
       await tool_calls <- lift (get_prop message "tool_calls") ;
       if negb (truthy tool_calls) || negb (executeTools options)
       then finish a history context initLen
       else
         await toolResult <-
           handleToolCalls JSON_parse JSON_stringify tool_calls a context ;
         after_dispatch toolResult a history context
           (run_loop JSON_parse JSON_stringify create retryConfig fuel options
              history context initLen)) w.
Proof.
  intros Hh Hb. cbn [run_loop].
  erewrite bind_val_eq by (apply read_cell, Hh).
  erewrite bind_val_eq by (apply lift_inr, get_prop_length).
  cbv beta iota. rewrite Hb. reflexivity.
Qed.

(** The loop when no turn is left. *)
Lemma run_loop_done fuel options history context initLen a (w : World (S:=S)) h :
  heap w !! history = Some (JArr h) ->
  below (Z.of_nat (length h) - Z.of_nat initLen) (maxTurns options) = false ->
  run_loop JSON_parse JSON_stringify create retryConfig fuel options
    history context initLen a w
  = finish a history context initLen w.
Proof.
  intros Hh Hb. destruct fuel; cbn [run_loop];
    erewrite bind_val_eq by (apply read_cell, Hh);
    erewrite bind_val_eq by (apply lift_inr, get_prop_length);
    cbv beta iota; rewrite Hb; reflexivity.
Qed.
End FirstRequest.

(** ** Runs that end at their first request, or before it *)

Section ShortRuns.
Context {S : Type}.
Variable JSON_parse : string -> Exc JValue.
Variable JSON_stringify : JValue -> string.
Variable create : CreateParams -> S -> Exc JValue * S.
Variable retryConfig : RetryConfig.

(** The streaming loop up to its first request. *)
Lemma stream_loop_asks fuel options a0 history context initLen a
    (w : World (S:=S)) h k hd completion w1 :
  heap w !! history = Some (JArr h) ->
  below (Z.of_nat (length h) - Z.of_nat initLen) (maxTurns options) = true ->
  getChatCompletion create retryConfig a history (modelOverride options) true w
  = (Val completion, w1) ->
  success completion = false ->
  stream_loop JSON_parse JSON_stringify create retryConfig (Datatypes.S fuel)
    options a0 history context initLen a k hd w
  = k (pass_failure completion) w1.
Proof.
  intros Hh Hb Hc Hs. cbn [stream_loop]. unfold g_bind, g_await.
  rewrite (read_cell _ _ _ Hh).
  rewrite (lift_inr _ _ _ (get_prop_length h)).
  cbv beta iota. rewrite Hb, Hc, Hs. reflexivity.
Qed.

Lemma stream_loop_rejected fuel options a0 history context initLen a
    (w : World (S:=S)) h k hd t w1 :
  heap w !! history = Some (JArr h) ->
  below (Z.of_nat (length h) - Z.of_nat initLen) (maxTurns options) = true ->
  getChatCompletion create retryConfig a history (modelOverride options) true w
  = (Exn t, w1) ->
  stream_loop JSON_parse JSON_stringify create retryConfig (Datatypes.S fuel)
    options a0 history context initLen a k hd w
  = hd t w1.
Proof.
  intros Hh Hb Hc. cbn [stream_loop]. unfold g_bind, g_await.
  rewrite (read_cell _ _ _ Hh).
  rewrite (lift_inr _ _ _ (get_prop_length h)).
  cbv beta iota. rewrite Hb, Hc. reflexivity.
Qed.

Lemma stream_loop_done fuel options a0 history context initLen a
    (w : World (S:=S)) h k hd :
  heap w !! history = Some (JArr h) ->
  below (Z.of_nat (length h) - Z.of_nat initLen) (maxTurns options) = false ->
  stream_loop JSON_parse JSON_stringify create retryConfig fuel
    options a0 history context initLen a k hd w
  = g_await (finish a history context initLen) k hd w.
Proof.
  intros Hh Hb. destruct fuel; cbn [stream_loop]; unfold g_bind;
    unfold g_await at 1; rewrite (read_cell _ _ _ Hh);
    unfold g_await at 1; rewrite (lift_inr _ _ _ (get_prop_length h));
    cbv beta iota; rewrite Hb; reflexivity.
Qed.

(** The success built when the loop ends without having appended
    anything. *)
Lemma finish_entered a (w : World (S:=S)) vars items :
  finish a (Datatypes.S (length (heap w))) (length (heap w)) (length items)
    (entered w vars items)
  = (Val (succeed {| messages := [];
                     agent := Some a;
                     contextVariables :=
                       spread_object (context_argument w vars) |}),
     entered w vars items).
Proof.
  unfold finish.
  erewrite bind_val_eq by (apply read_cell, entered_history).
  erewrite bind_val_eq by (apply lift_inr; reflexivity).
  erewrite bind_val_eq by (apply read_cell, entered_context).
  unfold ret. rewrite drop_all. reflexivity.
Qed.
End ShortRuns.

(** X5. A provider failure ends the run at once and is not retried: when
    the provider's library throws on the first request, [run] (streaming or
    not) returns the failed result of the client, an API error (code
    API_ERROR) whose cause is what was thrown, after that single request; no
    warning is logged, no sleep is taken and no tool is invoked.  The
    client never rejects, so the [retry] around it has nothing to retry. *)
Theorem provider_failure_ends_the_run {S}
    (JSON_parse : string -> Exc JValue) (JSON_stringify : JValue -> string)
    (create : CreateParams -> S -> Exc JValue * S) (retryConfig : RetryConfig)
    (fuel : nat) (a : Agent) (msgs : nat) (vars : option nat)
    (options : Options) (w : World (S:=S)) (items : list JValue) (text : string)
    (s1 s2 : S) (t : Thrown) :
  below 0 (maxTurns options) = true ->
  1 <= maxRetries retryConfig ->
  heap w !! msgs = Some (JArr items) ->
  resolve_instructions a (ext w) = (inr text, s1) ->
  let request :=
    createParams a (modelOverride options) text items (stream options) in
  create request s1 = (inl t, s2) ->
  run JSON_parse JSON_stringify create retryConfig (Datatypes.S fuel) a msgs
      vars options w
  = (Val {| success := false; data := None;
            error := Some {| error_name := "APIError";
                             error_message := "OpenAI API call failed";
                             error_code := "API_ERROR";
                             error_cause := Some t |} |},
     {| ext := s2; heap := heap (entered w vars items);
        trace := trace w ++ [EvCreate request] |}).
Proof.
  intros Hturn Hretries Hmessages Htext request Hcreate. subst request.
  assert (below (Z.of_nat (length items) - Z.of_nat (length items))
                (maxTurns options) = true) as Hb
    by (rewrite Z.sub_diag; exact Hturn).
  unfold run. destruct (stream options).
  - unfold runStream, streamGenerator, g_bind, g_await.
    rewrite (enter_array _ _ _ _ Hmessages).
    pose proof (getChatCompletion_fails create retryConfig a _
                  (modelOverride options) true _ _ _ _ _ _ Hretries
                  (entered_history w vars items) Htext Hcreate) as Hc.
    erewrite stream_loop_asks
      by (first [apply entered_history | exact Hb | exact Hc | reflexivity]).
    reflexivity.
  - erewrite bind_val_eq by (apply enter_array, Hmessages).
    cbv beta iota. unfold run_from, try_catch.
    rewrite (run_loop_asks _ _ _ _ _ _ _ _ _ _ _ _ (entered_history _ _ _) Hb).
    erewrite bind_val_eq by
      (eapply getChatCompletion_fails;
       [exact Hretries | apply entered_history | exact Htext | exact Hcreate]).
    reflexivity.
Qed.

Lemma provider_failure_ends_the_run_witness :
  exists res w' e,
    run_script [] default_options = (Val res, w')
    /\ success res = false
    /\ error res = Some e
    /\ error_code e = "API_ERROR"
    /\ error_cause e = Some (Error "Connection error.")
    /\ length (trace w') = 1%nat.
Proof.
  unfold run_script.
  rewrite (provider_failure_ends_the_run parse stringify (scripted [])
             default_retryConfig 7 A 0%nat (Some 1%nat) default_options start
             [user "hi"] "You are A." 0%nat 1%nat (Error "Connection error."));
    try reflexivity.
  - do 3 eexists. repeat split; reflexivity.
  - cbn. lia.
Defined.

(** X6. A configuration with [maxRetries <= 0] disables the provider: a run
    (streaming or not) that has a turn to take makes no request at all and
    returns a failure built from the synthetic error of [retry], with the
    name "Error", the message "Operation failed with unknown error" and the
    code UNKNOWN_ERROR. *)
Theorem no_attempts_no_request {S}
    (JSON_parse : string -> Exc JValue) (JSON_stringify : JValue -> string)
    (create : CreateParams -> S -> Exc JValue * S) (retryConfig : RetryConfig)
    (fuel : nat) (a : Agent) (msgs : nat) (vars : option nat)
    (options : Options) (w : World (S:=S)) (items : list JValue) (text : string)
    (s1 : S) :
  below 0 (maxTurns options) = true ->
  maxRetries retryConfig <= 0 ->
  heap w !! msgs = Some (JArr items) ->
  resolve_instructions a (ext w) = (inr text, s1) ->
  run JSON_parse JSON_stringify create retryConfig (Datatypes.S fuel) a msgs
      vars options w
  = (Val {| success := false; data := None;
            error := Some {| error_name := "Error";
                             error_message :=
                               "Operation failed with unknown error";
                             error_code := "UNKNOWN_ERROR";
                             error_cause := None |} |},
     {| ext := s1; heap := heap (entered w vars items); trace := trace w |}).
Proof.
  intros Hturn Hretries Hmessages Htext.
  assert (below (Z.of_nat (length items) - Z.of_nat (length items))
                (maxTurns options) = true) as Hb
    by (rewrite Z.sub_diag; exact Hturn).
  unfold run. destruct (stream options).
  - unfold runStream, streamGenerator, g_bind, g_await.
    rewrite (enter_array _ _ _ _ Hmessages).
    erewrite stream_loop_rejected
      by (first [apply entered_history | exact Hb
                | eapply getChatCompletion_without_attempts;
                  [exact Hretries | apply entered_history | exact Htext]]).
    reflexivity.
  - erewrite bind_val_eq by (apply enter_array, Hmessages).
    cbv beta iota. unfold run_from, try_catch.
    rewrite (run_loop_asks _ _ _ _ _ _ _ _ _ _ _ _ (entered_history _ _ _) Hb).
    erewrite bind_exn_eq by
      (eapply getChatCompletion_without_attempts;
       [exact Hretries | apply entered_history | exact Htext]).
    reflexivity.
Qed.

Lemma no_attempts_no_request_witness :
  exists res w',
    run parse stringify (scripted [completion_of (assistant "hello")])
        Samples.no_attempts 8 A 0%nat (Some 1%nat) default_options start
    = (Val res, w')
    /\ success res = false
    /\ trace w' = [].
Proof.
  rewrite (no_attempts_no_request parse stringify
             (scripted [completion_of (assistant "hello")]) Samples.no_attempts
             7 A 0%nat (Some 1%nat) default_options start [user "hi"]
             "You are A." 0%nat); try reflexivity.
  do 2 eexists. repeat split; reflexivity.
Defined.

(** X7. With [maxTurns <= 0] a run (streaming or not) takes no turn: it
    makes no request, logs nothing, and succeeds with an empty list of
    messages, the agent it was given and a copy of the context variables. *)
Theorem no_turns_no_request {S}
    (JSON_parse : string -> Exc JValue) (JSON_stringify : JValue -> string)
    (create : CreateParams -> S -> Exc JValue * S) (retryConfig : RetryConfig)
    (fuel : nat) (a : Agent) (msgs : nat) (vars : option nat)
    (options : Options) (w : World (S:=S)) (items : list JValue) (n : Z) :
  maxTurns options = Turns n ->
  n <= 0 ->
  heap w !! msgs = Some (JArr items) ->
  run JSON_parse JSON_stringify create retryConfig fuel a msgs vars options w
  = (Val (succeed {| messages := [];
                     agent := Some a;
                     contextVariables :=
                       spread_object (context_argument w vars) |}),
     entered w vars items).
Proof.
  intros Hturns Hn Hmessages.
  assert (below (Z.of_nat (length items) - Z.of_nat (length items))
                (maxTurns options) = false) as Hb.
  { rewrite Z.sub_diag, Hturns. cbn. apply Z.ltb_ge. exact Hn. }
  unfold run. destruct (stream options).
  - unfold runStream, streamGenerator, g_bind. unfold g_await at 1.
    rewrite (enter_array _ _ _ _ Hmessages).
    erewrite stream_loop_done by (first [apply entered_history | exact Hb]).
    unfold g_await. rewrite finish_entered. reflexivity.
  - erewrite bind_val_eq by (apply enter_array, Hmessages).
    cbv beta iota. unfold run_from, try_catch.
    rewrite (run_loop_done _ _ _ _ _ _ _ _ _ _ _ _ (entered_history _ _ _) Hb).
    rewrite finish_entered. reflexivity.
Qed.

Lemma no_turns_no_request_witness :
  exists w',
    run_script [completion_of (assistant "hello")] Samples.no_turns
    = (Val (succeed {| messages := []; agent := Some A;
                       contextVariables := JObj [("language", JStr "en")] |}),
       w')
    /\ trace w' = [].
Proof.
  unfold run_script.
  rewrite (no_turns_no_request parse stringify
             (scripted [completion_of (assistant "hello")]) default_retryConfig
             8 A 0%nat (Some 1%nat) Samples.no_turns start [user "hi"] 0);
    try reflexivity.
  eexists. split; reflexivity.
Defined.

(** X8. With [executeTools = false] the tool calls of the assistant are
    returned, not dispatched: a non-streaming run ends after its first
    request, whatever the assistant message carries, and succeeds with that
    one message (stamped with the agent's name, its [tool_calls] intact);
    no tool is invoked and no second request is made. *)
Theorem disabled_tools_are_not_dispatched {S}
    (JSON_parse : string -> Exc JValue) (JSON_stringify : JValue -> string)
    (create : CreateParams -> S -> Exc JValue * S) (retryConfig : RetryConfig)
    (fuel : nat) (a : Agent) (msgs : nat) (vars : option nat)
    (options : Options) (w : World (S:=S)) (items : list JValue) (text : string)
    (s1 s2 : S) (response : JValue) (fs : list (string * JValue)) :
  stream options = false ->
  executeTools options = false ->
  below 0 (maxTurns options) = true ->
  1 <= maxRetries retryConfig ->
  heap w !! msgs = Some (JArr items) ->
  resolve_instructions a (ext w) = (inr text, s1) ->
  let request := createParams a (modelOverride options) text items false in
  create request s1 = (inr response, s2) ->
  first_message (succeed response) = inr (JObj fs) ->
  let stamped := JObj (set_field "sender" (JStr (name a)) fs) in
  run JSON_parse JSON_stringify create retryConfig (Datatypes.S fuel) a msgs
      vars options w
  = (Val (succeed {| messages := [stamped];
                     agent := Some a;
                     contextVariables :=
                       spread_object (context_argument w vars) |}),
     {| ext := s2;
        heap := heap w ++ [spread_object (context_argument w vars);
                           JArr (items ++ [stamped])];
        trace := trace w ++ [EvCreate request] |})
  /\ (assoc "tool_calls" fs <> None ->
      get_prop stamped "tool_calls" = inr (default JUndef (assoc "tool_calls" fs))).
Proof.
  intros Hstream Htools Hturn Hretries Hmessages Htext request Hcreate Hfirst
         stamped.
  assert (below (Z.of_nat (length items) - Z.of_nat (length items))
                (maxTurns options) = true) as Hb
    by (rewrite Z.sub_diag; exact Hturn).
  split.
  - unfold run. rewrite Hstream.
    erewrite bind_val_eq by (apply enter_array, Hmessages).
    cbv beta iota. unfold run_from, try_catch.
    rewrite (run_loop_asks _ _ _ _ _ _ _ _ _ _ _ _ (entered_history _ _ _) Hb).
    erewrite bind_val_eq by
      (eapply getChatCompletion_returns;
       [exact Hretries | apply entered_history | exact Htext | exact Hcreate]).
    cbn [success succeed negb].
    erewrite bind_val_eq by (apply lift_inr, Hfirst).
    erewrite bind_val_eq by (apply lift_inr; reflexivity).
    erewrite bind_val_eq by (apply push_cell; cbn [heap]; apply entered_history).
    erewrite bind_val_eq by (apply lift_inr; reflexivity).
    rewrite Htools. cbn [negb]. rewrite orb_true_r.
    unfold finish.
    erewrite bind_val_eq by
      (apply read_cell; cbn; apply list_lookup_insert_eq;
       rewrite length_app; cbn; lia).
    erewrite bind_val_eq by (apply lift_inr; reflexivity).
    erewrite bind_val_eq by
      (apply read_cell; cbn; rewrite list_lookup_insert_ne by lia;
       apply (entered_context w vars items)).
    unfold ret. rewrite drop_app_length. f_equal.
    unfold set_cell. cbn [ext heap trace entered]. f_equal.
    rewrite insert_app_r_alt by lia.
    replace (Datatypes.S (length (heap w)) - length (heap w))%nat with 1%nat
      by lia.
    reflexivity.
  - intros Hcalls. cbn [get_prop stamped].
    rewrite assoc_set_field_ne by discriminate. reflexivity.
Qed.

Lemma disabled_tools_are_not_dispatched_witness :
  exists w',
    run_script handoff_script Samples.without_tools
    = (Val (succeed
              {| messages :=
                   [JObj [("role", JStr "assistant"); ("content", JNull);
                          ("tool_calls", JArr handoff_calls);
                          ("sender", JStr "A")]];
                 agent := Some A;
                 contextVariables := JObj [("language", JStr "en")] |}), w')
    /\ tools_invoked (trace w') = []
    /\ length (requests (trace w')) = 1%nat.
Proof.
  destruct (disabled_tools_are_not_dispatched parse stringify
              (scripted handoff_script) default_retryConfig 7 A 0%nat
              (Some 1%nat) Samples.without_tools start [user "hi"] "You are A."
              0%nat 1%nat (completion_of (assistant_calling handoff_calls))
              [("role", JStr "assistant"); ("content", JNull);
               ("tool_calls", JArr handoff_calls)])
    as [Hrun _]; try reflexivity.
  - cbn. lia.
  - eexists. split; [exact Hrun|]. split; reflexivity.
Defined.

(** ** What a dispatch answers, and what it does to the context *)

Section DispatchAnswers.
Context {S : Type}.
Variable JSON_parse : string -> Exc JValue.
Variable JSON_stringify : JValue -> string.

Lemma lift_val_inv {A} (e : Exc A) (w : World (S:=S)) a w' :
  lift e w = (Val a, w') -> e = inr a /\ w' = w.
Proof. destruct e; intros H; inversion H; auto. Qed.

Lemma dispatch_answers toolCalls (a : Agent (S:=S)) context :
  forall response w r w',
    dispatch JSON_parse JSON_stringify toolCalls a context response w
    = (Val r, w') ->
    exists answers,
      messages r = messages response ++ answers
      /\ Forall2 (answers_call JSON_parse JSON_stringify a context) toolCalls
           answers.
Proof.
  induction toolCalls as [|toolCall rest IH]; intros response w r w' H.
  - inversion H; subst. exists []. split; [symmetry; apply app_nil_r|constructor].
  - cbn [dispatch] in H.
    bind_val H fn w1 H1 H2. apply lift_val_inv in H1. destruct H1 as [Hfn ->].
    bind_val H2 fname w2 H3 H4. apply lift_val_inv in H3.
    destruct H3 as [Hname ->].
    destruct (find_tool (functions a) fname) as [func|] eqn:Hfind.
    + bind_val H4 message w3 H5 H6. apply IH in H6.
      destruct H6 as (answers & E & F). exists (message :: answers).
      split; [rewrite E; cbn; rewrite <- app_assoc; reflexivity|].
      constructor; [|exact F].
      apply try_catch_val_inv in H5. destruct H5 as [H5|(t & w4 & _ & H5)].
      * bind_val H5 fn' w5 H7 H8. apply lift_val_inv in H7.
        destruct H7 as [Hfn' ->].
        assert (fn' = fn) as -> by congruence.
        bind_val H8 arguments w6 H9 H10. apply lift_val_inv in H9.
        destruct H9 as [Hpayload ->].
        bind_val H10 args w7 H11 H12. apply lift_val_inv in H11.
        destruct H11 as [Hargs ->].
        bind_val H12 answer w8 H13 H14.
        bind_val H14 tid w9 H15 H16. apply lift_val_inv in H15.
        destruct H15 as [Hid ->]. inversion H16; subst.
        exists fn, fname, tid, (tool_content JSON_stringify answer).
        split; [exact Hfn|]. split; [exact Hname|]. split; [exact Hid|].
        split; [reflexivity|]. rewrite Hfind.
        exists arguments, args, answer, w, w3.
        split; [exact Hpayload|]. split; [exact Hargs|]. split; [exact H13|].
        intros v ->. destruct v; reflexivity.
      * bind_val H5 m w5 H7 H8. discriminate.
    + bind_val H4 u w3 H5 H6. bind_val H6 tid w4 H7 H8.
      apply lift_val_inv in H7. destruct H7 as [Hid ->]. apply IH in H8.
      destruct H8 as (answers & E & F). eexists (_ :: answers).
      split; [rewrite E; cbn; rewrite <- app_assoc; reflexivity|].
      constructor; [|exact F].
      exists fn, fname, tid. eexists.
      split; [exact Hfn|]. split; [exact Hname|]. split; [exact Hid|].
      split; [reflexivity|]. rewrite Hfind. reflexivity.
Qed.
End DispatchAnswers.

Lemma one_tool_message_per_call_aux {S}
    (JSON_parse : string -> Exc JValue) (JSON_stringify : JValue -> string)
    (toolCalls : JValue) (a : Agent (S:=S)) (context : nat) (w : World)
    (res : Result ResponseData) (w' : World) :
  handleToolCalls JSON_parse JSON_stringify toolCalls a context w
  = (Val res, w') ->
  exists calls d,
    iterate toolCalls = inr calls
    /\ res = succeed d
    /\ Forall2 (answers_call JSON_parse JSON_stringify a context) calls
         (messages d)
    /\ length (messages d) = length calls.
Proof.
  unfold handleToolCalls. intros H.
  bind_val H ctx w1 H1 H2. bind_val H2 calls w2 H3 H4. bind_val H4 r w3 H5 H6.
  inversion H6; subst.
  apply dispatch_answers in H5. destruct H5 as (answers & E & F).
  cbn in E. subst answers.
  exists calls, r. split.
  { destruct (iterate toolCalls); inversion H3; reflexivity. }
  split; [reflexivity|]. split; [exact F|].
  symmetry. eapply Forall2_length. exact F.
Qed.







(** ** How many requests a run makes *)

Section Requests.
Context {S : Type}.
Variable JSON_parse : string -> Exc JValue.
Variable JSON_stringify : JValue -> string.
Variable create : CreateParams -> S -> Exc JValue * S.
Variable retryConfig : RetryConfig.

Lemma asked_same k (w w' : World (S:=S)) : trace w' = trace w -> asked k w w'.
Proof. intros E. exists []. rewrite E, app_nil_r. split; [reflexivity|cbn; lia]. Qed.

Lemma asked_trans k1 k2 (w1 w2 w3 : World (S:=S)) :
  asked k1 w1 w2 -> asked k2 w2 w3 -> asked (k1 + k2) w1 w3.
Proof.
  intros (e1 & E1 & L1) (e2 & E2 & L2). exists (e1 ++ e2).
  split; [rewrite E2, E1, app_assoc; reflexivity|].
  unfold requests in *. rewrite flat_map_app, length_app. lia.
Qed.

Lemma asked_weaken k k' (w w' : World (S:=S)) :
  (k <= k')%nat -> asked k w w' -> asked k' w w'.
Proof. intros Hk (e & E & L). exists e. split; [exact E|lia]. Qed.

Lemma asked_stable : Stable (S:=S) (asked 0) (fun _ => True) (fun _ => False).
Proof.
  split.
  - intros w. apply asked_same. reflexivity.
  - intros w1 w2 w3 H12 H23. apply (asked_trans 0 0 w1 w2 w3); assumption.
  - intros w s. apply asked_same. reflexivity.
  - intros w l v _. apply asked_same. reflexivity.
  - intros w ev Hev. exists [ev]. split; [reflexivity|].
    destruct ev; cbn; try lia. exfalso. eapply Hev. reflexivity.
  - intros w a override text items streaming [].
Qed.

Lemma createChatCompletion_returns params (w : World (S:=S)) :
  exists res s,
    createChatCompletion create params w
    = (Val res, {| ext := s; heap := heap w;
                   trace := trace w ++ [EvCreate params] |}).
Proof.
  unfold createChatCompletion, bind, log, try_catch, external. cbn.
  destruct (create params (ext w)) as [[t|d] s]; cbn; eauto.
Qed.

Lemma getChatCompletion_asks_once a history override streaming
    (w : World (S:=S)) r w' :
  getChatCompletion create retryConfig a history override streaming w = (r, w') ->
  asked 1 w w'.
Proof.
  unfold getChatCompletion. intros H.
  assert (forall x w1,
            (match instructions a with
             | Static text => ret text
             | Dynamic produce => external produce
             end) w = (x, w1) -> trace w1 = trace w) as Hinstr.
  { intros x w1. destruct (instructions a) as [txt|produce].
    - intros K. inversion K; reflexivity.
    - unfold external. destruct (produce (ext w)) as [[e|y] s];
        intros K; inversion K; reflexivity. }
  apply bind_inv in H.
  destruct H as [(text & w1 & H1 & H)|[(t & H1 & _)|[H1 _]]];
    [|apply asked_same, (Hinstr _ _ H1)..].
  pose proof (Hinstr _ _ H1) as Ht1.
  apply bind_inv in H.
  destruct H as [(h & w2 & H2 & H)|[(t & H2 & _)|[H2 _]]];
    [|inversion H2|inversion H2].
  inversion H2; subst w2. clear H2.
  apply bind_inv in H.
  destruct H as [(items & w3 & Hit & H)|[(t & Hit & _)|[Hit _]]].
  2:{ apply lift_world in Hit. subst w'. apply asked_same, Ht1. }
  2:{ apply lift_world in Hit. subst w'. apply asked_same, Ht1. }
  apply lift_world in Hit. subst w3.
  destruct (Z_le_gt_dec 1 (maxRetries retryConfig)) as [Hn|Hn].
  - destruct (createChatCompletion_returns
                (createParams a override text items streaming) w1)
      as (res & s & Hc).
    rewrite (retry_first_success _ _ _ _ _ Hn Hc) in H. inversion H; subst.
    exists [EvCreate (createParams a override text items streaming)].
    cbn. rewrite Ht1. split; [reflexivity|lia].
  - unfold retry, bind in H. rewrite retry_loop_exit in H by lia.
    inversion H; subst. apply asked_same, Ht1.
Qed.

Lemma handleToolCalls_asks_nothing toolCalls a context (w : World (S:=S)) r w' :
  handleToolCalls JSON_parse JSON_stringify toolCalls a context w = (r, w') ->
  asked 0 w w'.
Proof.
  apply (respects_handleToolCalls JSON_parse JSON_stringify _ _ _ asked_stable).
  exact I.
Qed.

Lemma finish_asks_nothing a history context initLen (w : World (S:=S)) r w' :
  finish a history context initLen w = (r, w') -> asked 0 w w'.
Proof. apply (respects_finish _ _ _ asked_stable). Qed.
End Requests.

Section RequestBound.
Context {S : Type}.
Variable JSON_parse : string -> Exc JValue.
Variable JSON_stringify : JValue -> string.
Variable create : CreateParams -> S -> Exc JValue * S.
Variable retryConfig : RetryConfig.
Variable options : Options.
Variable n : Z.
Hypothesis limited : maxTurns options = Turns n.
Variable history context initLen : nat.
Hypothesis apart : history <> context.

Lemma asked_then k (w w1 w2 : World (S:=S)) :
  asked k w w1 -> asked 0 w1 w2 -> asked k w w2.
Proof.
  intros H1 H2. eapply asked_weaken; [|eapply asked_trans; eassumption]. lia.
Qed.

Lemma run_loop_requests fuel :
  forall a (w : World (S:=S)) h r w',
    heap w !! history = Some (JArr h) ->
    run_loop JSON_parse JSON_stringify create retryConfig fuel options history
      context initLen a w = (r, w') ->
    asked (Z.to_nat (n - (Z.of_nat (length h) - Z.of_nat initLen))) w w'.
Proof.
  induction fuel as [|fuel IH]; intros a w h r w' Hh H;
    destruct (below (Z.of_nat (length h) - Z.of_nat initLen) (maxTurns options))
      eqn:Hb;
    try (rewrite (run_loop_done _ _ _ _ _ _ _ _ _ _ _ _ Hh Hb) in H;
         apply finish_asks_nothing in H;
         eapply asked_weaken; [|exact H]; lia).
  - cbn [run_loop] in H.
    erewrite bind_val_eq in H by (apply read_cell, Hh).
    erewrite bind_val_eq in H by (apply lift_inr, get_prop_length).
    cbv beta iota in H. rewrite Hb in H. inversion H; subst.
    apply asked_same. reflexivity.
  - rewrite (run_loop_asks _ _ _ _ _ _ _ _ _ _ _ _ Hh Hb) in H.
    rewrite limited in Hb. cbn [below] in Hb. apply Z.ltb_lt in Hb.
    assert (forall w1, asked 1 w w1 ->
              asked (Z.to_nat (n - (Z.of_nat (length h) - Z.of_nat initLen)))
                    w w1) as Hone.
    { intros w1. apply asked_weaken. lia. }
    apply bind_inv in H.
    destruct H as [(completion & w1 & Hc & H)|[(t & Hc & _)|[Hc _]]];
      [|apply Hone; eapply getChatCompletion_asks_once; exact Hc..].
    pose proof (getChatCompletion_asks_once _ _ _ _ _ _ _ _ _ Hc) as K.
    apply getChatCompletion_heap in Hc. rename Hc into Hheap.
    destruct (negb (success completion)).
    { inversion H; subst. apply Hone, K. }
    apply bind_inv in H.
    destruct H as [(message & w2 & Hm & H)|[(t & Hm & _)|[Hm _]]];
      apply lift_world in Hm; subst; [|apply Hone, K..].
    apply bind_inv in H.
    destruct H as [(stamped & w2 & Hm & H)|[(t & Hm & _)|[Hm _]]];
      apply lift_world in Hm; subst; [|apply Hone, K..].
    erewrite bind_val_eq in H by (apply push_cell; rewrite Hheap; exact Hh).
    assert (asked 1 w (set_cell w1 history (JArr (h ++ [stamped])))) as K2.
    { eapply asked_then; [exact K|]. apply asked_same. reflexivity. }
    assert (heap (set_cell w1 history (JArr (h ++ [stamped]))) !! history
            = Some (JArr (h ++ [stamped]))) as Hh2.
    { cbn. apply list_lookup_insert_eq. rewrite Hheap.
      apply lookup_lt_Some in Hh. exact Hh. }
    clear K. revert H K2 Hh2.
    generalize (set_cell w1 history (JArr (h ++ [stamped]))) as w2.
    intros w2 H K2 Hh2.
    apply bind_inv in H.
    destruct H as [(tool_calls & w3 & Hm & H)|[(t & Hm & _)|[Hm _]]];
      apply lift_world in Hm; subst; [|apply Hone, K2..].
    destruct (negb (truthy tool_calls) || negb (executeTools options)).
    { apply finish_asks_nothing in H. apply Hone. eapply asked_then; eassumption. }
    apply bind_inv in H.
    destruct H as [(toolResult & w3 & Ht & H)|[(t & Ht & _)|[Ht _]]];
      [|apply Hone; eapply asked_then;
        [exact K2 | eapply handleToolCalls_asks_nothing; exact Ht]..].
    assert (asked 1 w w3) as K3.
    { eapply asked_then; [exact K2|].
      eapply handleToolCalls_asks_nothing; exact Ht. }
    assert (heap w3 !! history = Some (JArr (h ++ [stamped]))) as Hh3.
    { apply handleToolCalls_only_context in Ht. destruct Ht as [_ Ht].
      rewrite Ht by exact apart. exact Hh2. }
    unfold after_dispatch in H.
    destruct (success toolResult), (data toolResult) as [d|];
      try (inversion H; subst; apply Hone, K3).
    erewrite bind_val_eq in H by (apply push_cell, Hh3).
    erewrite bind_val_eq in H by reflexivity.
    apply bind_inv in H.
    destruct H as [(ctx' & w4 & Hm & H)|[(t & Hm & _)|[Hm _]]];
      apply lift_world in Hm; subst;
      [|apply Hone; eapply asked_then; [exact K3|]; apply asked_same;
        reflexivity..].
    erewrite bind_val_eq in H by reflexivity.
    apply IH with (h := (h ++ [stamped]) ++ messages d) in H.
    + assert (asked (1 + (0 + Z.to_nat
                              (n - (Z.of_nat (length ((h ++ [stamped])
                                                        ++ messages d))
                                    - Z.of_nat initLen)))) w w') as Kf.
      { eapply asked_trans; [exact K3|].
        eapply asked_trans; [|exact H]. apply asked_same. reflexivity. }
      eapply asked_weaken; [|exact Kf].
      rewrite !length_app. cbn [length]. lia.
    + cbn. rewrite list_lookup_insert_ne by congruence.
      apply list_lookup_insert_eq. apply lookup_lt_Some in Hh3. exact Hh3.
Qed.
End RequestBound.

Section StreamRequests.
Context {S : Type}.
Variable JSON_parse : string -> Exc JValue.
Variable JSON_stringify : JValue -> string.
Variable create : CreateParams -> S -> Exc JValue * S.
Variable retryConfig : RetryConfig.

(** The first step of the streaming loop asks at most once, and not at all
    when no turn is left. *)
Lemma stream_loop_first_step fuel options a0 history context initLen a
    (w : World (S:=S)) h n g w' :
  maxTurns options = Turns n ->
  heap w !! history = Some (JArr h) ->
  stream_loop JSON_parse JSON_stringify create retryConfig fuel options a0
    history context initLen a
    (fun value w => (GReturn value, w))
    (fun error w => (GReturn (failed (unknown_error error)), w)) w = (g, w') ->
  asked (Z.to_nat (n - (Z.of_nat (length h) - Z.of_nat initLen))) w w'.
Proof.
  intros Hn Hh H.
  destruct (below (Z.of_nat (length h) - Z.of_nat initLen) (maxTurns options))
    eqn:Hb.
  - destruct fuel as [|fuel]; cbn [stream_loop] in H;
      unfold g_bind, g_await, g_ret, g_yield in H;
      rewrite (read_cell _ _ _ Hh) in H;
      rewrite (lift_inr _ _ _ (get_prop_length h)) in H;
      cbv beta iota in H; rewrite Hb in H.
    + inversion H; subst. apply asked_same. reflexivity.
    + rewrite Hn in Hb. cbn [below] in Hb. apply Z.ltb_lt in Hb.
      destruct (getChatCompletion create retryConfig a history
                  (modelOverride options) true w) as [[completion|t|] w1] eqn:Hc;
        apply getChatCompletion_asks_once in Hc;
        [destruct (negb (success completion))| |];
        inversion H; subst; (eapply asked_weaken; [|exact Hc]); lia.
  - erewrite stream_loop_done in H by (first [exact Hh | exact Hb]).
    unfold g_await in H.
    destruct (finish a history context initLen w) as [[v|t|] w1] eqn:Hf;
      apply finish_asks_nothing in Hf; inversion H; subst;
      (eapply asked_weaken; [|exact Hf]); lia.
Qed.
End StreamRequests.

(** X11. A run with a finite [maxTurns] makes at most [maxTurns] completion
    requests, whatever the provider and the tools do and however the run
    ends (none when [maxTurns <= 0]).  The loop counts the messages it has
    appended, tool messages included, so it may stop before having made
    that many requests. *)
Theorem requests_are_bounded_by_maxTurns {S}
    (JSON_parse : string -> Exc JValue) (JSON_stringify : JValue -> string)
    (create : CreateParams -> S -> Exc JValue * S) (retryConfig : RetryConfig)
    (fuel : nat) (a : Agent) (msgs : nat) (vars : option nat)
    (options : Options) (n : Z) (w : World (S:=S)) :
  maxTurns options = Turns n ->
  let w' := snd (run JSON_parse JSON_stringify create retryConfig fuel a msgs
                     vars options w) in
  exists evs,
    trace w' = trace w ++ evs
    /\ Z.of_nat (length (requests evs)) <= Z.max 0 n.
Proof.
  intros Hn w'. subst w'.
  destruct (run JSON_parse JSON_stringify create retryConfig fuel a msgs vars
              options w) as [r w'] eqn:H.
  cbn [snd].
  assert (asked (Z.to_nat n) w w') as (evs & E & L);
    [|exists evs; split; [exact E|lia]].
  revert H. unfold run. destruct (stream options).
  - unfold runStream, streamGenerator, g_bind. unfold g_await at 1.
    destruct (enter msgs vars w) as [e w0] eqn:He.
    apply enter_inv in He.
    destruct He as (Ht & _ & [(t & -> & _)|(items & _ & -> & Hh)]).
    + intros H. inversion H; subst. apply asked_same, Ht.
    + destruct (stream_loop _ _ _ _ _ _ _ _ _ _ _ _ _ w0) as [g w1] eqn:Hg.
      apply stream_loop_first_step with (n := n) (h := items) in Hg;
        [|exact Hn|].
      * intros H.
        assert (w' = w1) as -> by (destruct g; inversion H; reflexivity).
        destruct Hg as (evs & E & L). exists evs. rewrite E, Ht.
        split; [reflexivity|]. lia.
      * rewrite Hh, lookup_app_r by lia.
        replace (Datatypes.S (length (heap w)) - length (heap w))%nat
          with 1%nat by lia. reflexivity.
  - unfold bind. destruct (enter msgs vars w) as [e w0] eqn:He.
    apply enter_inv in He.
    destruct He as (Ht & _ & [(t & -> & _)|(items & _ & -> & Hh)]).
    + intros H. inversion H; subst. apply asked_same, Ht.
    + unfold run_from, try_catch.
      destruct (run_loop _ _ _ _ _ _ _ _ _ _ w0) as [r0 w1] eqn:Hl.
      apply run_loop_requests with (n := n) (h := items) in Hl;
        [|exact Hn|lia|].
      * intros H.
        assert (w' = w1) as ->
            by (destruct r0; inversion H; reflexivity).
        destruct Hl as (evs & E & L). exists evs. rewrite E, Ht.
        split; [reflexivity|]. lia.
      * rewrite Hh, lookup_app_r by lia.
        replace (Datatypes.S (length (heap w)) - length (heap w))%nat
          with 1%nat by lia. reflexivity.
Qed.

Lemma requests_are_bounded_by_maxTurns_witness :
  exists res w' d,
    run_script handoff_script Samples.two_turns = (Val res, w')
    /\ data res = Some d
    /\ length (requests (trace w')) = 1%nat
    /\ length (messages d) = 3%nat
    /\ Z.of_nat (length (requests (trace w'))) <= 2.
Proof.
  destruct (requests_are_bounded_by_maxTurns parse stringify
              (scripted handoff_script) default_retryConfig 8 A 0%nat
              (Some 1%nat) Samples.two_turns 2 start eq_refl)
    as (evs & E & L).
  do 3 eexists. split; [vm_compute; reflexivity|].
  split; [reflexivity|]. split; [reflexivity|]. split; [reflexivity|].
  change (run parse stringify (scripted handoff_script) default_retryConfig 8 A
            0%nat (Some 1%nat) Samples.two_turns start)
    with (run_script handoff_script Samples.two_turns) in E.
  cbn [trace start app] in E.
  match goal with
  | |- Z.of_nat (length (requests (trace ?x))) <= 2 =>
      assert (trace x = evs) as -> by (rewrite <- E; vm_compute; reflexivity)
  end.
  lia.
Defined.

(** ** The streaming generator, driven to its end *)

Lemma string_app_nil_r (s : string) : s +:+ "" = s.
Proof.
  induction s as [|ch s IH]; [reflexivity|].
  change (String ch (s +:+ "") = String ch s). rewrite IH. reflexivity.
Qed.

Lemma concat_field_string acc c : concat_field (JStr acc) c = acc +:+ c.
Proof.
  unfold concat_field. cbn [truthy js_String].
  destruct acc; reflexivity.
Qed.

Lemma mergeChunk_text sender acc c :
  mergeChunk (assembled sender acc) (text_delta c)
  = inr (assembled sender (acc +:+ c), text_delta c).
Proof.
  unfold mergeChunk, assembled, text_delta.
  cbn [delete_prop assoc_remove String.eqb Ascii.eqb Bool.eqb exc_bind
       mergeFields merge_entry get_prop assoc default from_option id].
  rewrite concat_field_string. reflexivity.
Qed.

Section Drained.
Context {S : Type}.
Variable JSON_parse : string -> Exc JValue.
Variable JSON_stringify : JValue -> string.
Variable create : CreateParams -> S -> Exc JValue * S.
Variable retryConfig : RetryConfig.

Lemma g_await_val {A B} (m : M (S:=S) A) (f : A -> G B) k h w a w' :
  m w = (Val a, w') -> g_bind (g_await m) f k h w = f a k h w'.
Proof. intros E. unfold g_bind, g_await. rewrite E. reflexivity. Qed.

Lemma g_await_lift {A B} (e : Exc A) (f : A -> G (S:=S) B) k h w a :
  e = inr a -> g_bind (g_await (lift e)) f k h w = f a k h w.
Proof. intros ->. reflexivity. Qed.

Lemma chunk_delta_chunk d : chunk_delta (chunk d) = inr d.
Proof. reflexivity. Qed.

(** The loop over the fragments that follow the first: each is yielded as it
    is, and its text is appended. *)
Lemma drain_consume (a : Agent (S:=S)) sender (cs : list string) :
  forall acc k h w events,
    (let '(g, w') :=
       consume (map (fun c => chunk (text_delta c)) cs) a
         (assembled sender acc) k h w in
     drain g w' events)
    = (let '(g, w') := k (assembled sender (acc +:+ glue cs)) w in
       drain g w' (events ++ map text_delta cs)).
Proof.
  induction cs as [|c cs IH]; intros acc k h w events.
  - cbn [map consume glue fold_right]. unfold g_ret.
    rewrite string_app_nil_r, app_nil_r. reflexivity.
  - cbn [map consume].
    rewrite (g_await_lift _ _ _ _ _ _ (chunk_delta_chunk _)).
    rewrite (g_await_lift _ _ _ _ _ (JUndef) eq_refl).
    rewrite (g_await_lift _ _ _ _ _ (text_delta c) eq_refl).
    unfold g_bind at 1. unfold g_yield. cbn [drain].
    rewrite (g_await_lift _ _ _ _ _ (text_delta c) eq_refl).
    rewrite (g_await_lift _ _ _ _ _ (text_delta c) eq_refl).
    rewrite (g_await_lift _ _ _ _ _ _ (mergeChunk_text sender acc c)).
    cbn [fst]. rewrite IH.
    cbn [glue fold_right]. rewrite string_append_assoc, <- app_assoc.
    reflexivity.
Qed.
End Drained.

(** X12. Driven to its end, the streaming generator reassembles the text of
    a streamed answer: for a provider that streams the fragments c0 (with
    the role), c1, ..., cn and no tool call, the generator yields the start
    delimiter, each fragment as it arrives (the first one stamped with the
    agent's name), and the end delimiter, and then returns a success whose
    single message has the content c0 ++ c1 ++ ... ++ cn, the agent's name
    as sender and no tool calls; it makes that one request. *)
Theorem streaming_reassembles_the_text {S}
    (JSON_parse : string -> Exc JValue) (JSON_stringify : JValue -> string)
    (create : CreateParams -> S -> Exc JValue * S) (retryConfig : RetryConfig)
    (fuel : nat) (a : Agent) (msgs : nat) (vars : option nat)
    (options : Options) (w : World (S:=S)) (items : list JValue) (text : string)
    (s1 s2 : S) (c0 : string) (cs : list string) :
  below 0 (maxTurns options) = true ->
  1 <= maxRetries retryConfig ->
  heap w !! msgs = Some (JArr items) ->
  resolve_instructions a (ext w) = (inr text, s1) ->
  let request := createParams a (modelOverride options) text items true in
  create request s1
  = (inr (JArr (chunk (first_delta c0)
                  :: map (fun c => chunk (text_delta c)) cs)), s2) ->
  let message := assembled (name a) (c0 +:+ glue cs) in
  drive (streamGenerator JSON_parse JSON_stringify create retryConfig
           (Datatypes.S fuel) a msgs vars options) w
  = (JObj [("delim", JStr "start")]
       :: JObj [("role", JStr "assistant"); ("content", JStr c0);
                ("sender", JStr (name a))]
       :: map text_delta cs ++ [JObj [("delim", JStr "end")]],
     Val (succeed {| messages := [message];
                     agent := Some a;
                     contextVariables :=
                       spread_object (context_argument w vars) |}),
     {| ext := s2;
        heap := heap w ++ [spread_object (context_argument w vars);
                           JArr (items ++ [message])];
        trace := trace w ++ [EvCreate request] |}).
Proof.
  intros Hturn Hretries Hmessages Htext request Hcreate message.
  assert (below (Z.of_nat (length items) - Z.of_nat (length items))
                (maxTurns options) = true) as Hb
    by (rewrite Z.sub_diag; exact Hturn).
  unfold drive, streamGenerator.
  rewrite (g_await_val _ _ _ _ _ _ _ (enter_array _ _ _ _ Hmessages)).
  cbv beta iota. cbn [stream_loop].
  rewrite (g_await_val _ _ _ _ _ _ _ (read_cell _ _ _ (entered_history _ _ _))).
  rewrite (g_await_lift _ _ _ _ _ _ (get_prop_length _)).
  cbv beta iota. rewrite Hb.
  rewrite (g_await_val _ _ _ _ _ _ _
             (getChatCompletion_returns create retryConfig a _ _ true _ _ _ _ _ _
                Hretries (entered_history _ _ _) Htext Hcreate)).
  cbn [success succeed negb].
  unfold g_bind at 1. unfold g_yield at 1. cbn [drain].
  rewrite (g_await_lift _ _ _ _ _
             (chunk (first_delta c0) :: map (fun c => chunk (text_delta c)) cs)
             eq_refl).
  unfold g_bind at 1. cbn [consume].
  rewrite (g_await_lift _ _ _ _ _ _ (chunk_delta_chunk _)).
  rewrite (g_await_lift _ _ _ _ _ (JStr "assistant") eq_refl).
  rewrite (g_await_lift _ _ _ _ _
             (JObj [("role", JStr "assistant"); ("content", JStr c0);
                    ("sender", JStr (name a))]) eq_refl).
  unfold g_bind at 1. unfold g_yield at 1. cbn [drain].
  rewrite (g_await_lift _ _ _ _ _
             (JObj [("content", JStr c0); ("sender", JStr (name a))]) eq_refl).
  rewrite (g_await_lift _ _ _ _ _ (text_delta c0) eq_refl).
  rewrite (g_await_lift _ _ _ _ _ _ (mergeChunk_text (name a) "" c0)).
  cbn [fst]. rewrite drain_consume.
  change ("" +:+ c0) with c0. fold message.
  unfold g_bind at 1. unfold g_yield at 1. cbn [drain].
  rewrite (g_await_lift _ _ _ _ _ message eq_refl).
  erewrite g_await_val
    by (apply push_cell; cbn [heap]; apply entered_history).
  rewrite (g_await_lift _ _ _ _ _ JNull eq_refl).
  cbn [truthy negb orb].
  unfold g_await, finish.
  erewrite bind_val_eq by
    (apply read_cell; cbn; apply list_lookup_insert_eq;
     rewrite length_app; cbn; lia).
  erewrite bind_val_eq by (apply lift_inr; reflexivity).
  erewrite bind_val_eq by
    (apply read_cell; cbn; rewrite list_lookup_insert_ne by lia;
     apply (entered_context w vars items)).
  unfold ret. cbn [drain]. rewrite drop_app_length.
  cbn [app]. rewrite <- ?app_assoc. cbn [app].
  unfold set_cell. cbn [ext heap trace entered].
  rewrite insert_app_r_alt by lia.
  replace (Datatypes.S (length (heap w)) - length (heap w))%nat with 1%nat
    by lia.
  reflexivity.
Qed.

Lemma streaming_reassembles_the_text_witness :
  exists events d w',
    drive (streamGenerator parse stringify Samples.speller default_retryConfig
             8 A 0%nat (Some 1%nat) streaming) start
    = (events, Val (succeed d), w')
    /\ length events = 5%nat
    /\ messages d = [assembled "A" "Hello!"]
    /\ length (requests (trace w')) = 1%nat.
Proof.
  rewrite (streaming_reassembles_the_text parse stringify Samples.speller
             default_retryConfig 7 A 0%nat (Some 1%nat) streaming start
             [user "hi"] "You are A." 0%nat 1%nat "Hel" ["lo"; "!"]);
    try reflexivity.
  - do 3 eexists. split; [reflexivity|]. repeat split; reflexivity.
  - cbn. lia.
Defined.

(** ** Malformed inputs and answers *)

Section Malformed.
Context {S : Type}.
Variable JSON_parse : string -> Exc JValue.
Variable JSON_stringify : JValue -> string.
Variable create : CreateParams -> S -> Exc JValue * S.
Variable retryConfig : RetryConfig.

Lemma enter_fails msgs vars (w : World (S:=S)) v t :
  heap w !! msgs = Some v ->
  iterate v = inl t ->
  enter msgs vars w
  = (Exn t,
     {| ext := ext w;
        heap := heap w ++ [spread_object (context_argument w vars)];
        trace := trace w |}).
Proof.
  intros Hv Hit. unfold enter.
  assert ((match vars with Some l => read l | None => ret (JObj []) end) w
          = (Val (context_argument w vars), w)) as Hcv.
  { destruct vars; reflexivity. }
  erewrite bind_val_eq by (exact Hcv).
  erewrite bind_val_eq by reflexivity.
  erewrite bind_val_eq.
  2:{ apply read_cell. cbn. apply lookup_app_l_Some. exact Hv. }
  erewrite bind_exn_eq by (apply lift_inl, Hit).
  reflexivity.
Qed.
End Malformed.

(** X13. The copies of the inputs are taken outside [run]'s [try], inside
    the generator's: when [messages] is not iterable ([null], a number, an
    object), a non-streaming [run] rejects with the [TypeError] of the
    spread instead of returning a result, while a streaming [run] returns
    a failure built from it (code UNKNOWN_ERROR); neither makes a
    request. *)
Theorem uniterable_messages_reject_the_run {S}
    (JSON_parse : string -> Exc JValue) (JSON_stringify : JValue -> string)
    (create : CreateParams -> S -> Exc JValue * S) (retryConfig : RetryConfig)
    (fuel : nat) (a : Agent) (msgs : nat) (vars : option nat)
    (options : Options) (w : World (S:=S)) (v : JValue) (t : Thrown) :
  heap w !! msgs = Some v ->
  iterate v = inl t ->
  let w' := {| ext := ext w;
               heap := heap w ++ [spread_object (context_argument w vars)];
               trace := trace w |} in
  run JSON_parse JSON_stringify create retryConfig fuel a msgs vars options w
  = (if stream options then Val (failed (unknown_error t)) else Exn t, w').
Proof.
  intros Hv Hit w'.
  unfold run. destruct (stream options).
  - unfold runStream, streamGenerator, g_bind. unfold g_await at 1.
    rewrite (enter_fails _ _ _ _ _ Hv Hit). reflexivity.
  - erewrite bind_exn_eq by (apply (enter_fails _ _ _ _ _ Hv Hit)).
    reflexivity.
Qed.

Lemma uniterable_messages_reject_the_run_witness :
  exists name message code cause w' res e,
    run parse stringify (scripted []) default_retryConfig 8 A 1%nat None
        default_options start
    = (Exn (ErrorObj name message code cause), w')
    /\ name = "TypeError"
    /\ trace w' = []
    /\ run parse stringify (scripted []) default_retryConfig 8 A 1%nat None
         streaming start = (Val res, w')
    /\ error res = Some e
    /\ error_name e = "TypeError"
    /\ error_code e = "UNKNOWN_ERROR".
Proof.
  rewrite (uniterable_messages_reject_the_run parse stringify (scripted [])
             default_retryConfig 8 A 1%nat None default_options start
             (JObj [("language", JStr "en")])
             (TypeError "[object Object] is not iterable") eq_refl eq_refl).
  rewrite (uniterable_messages_reject_the_run parse stringify (scripted [])
             default_retryConfig 8 A 1%nat None streaming start
             (JObj [("language", JStr "en")])
             (TypeError "[object Object] is not iterable") eq_refl eq_refl).
  do 7 eexists. split; [reflexivity|]. repeat split; reflexivity.
Defined.

(** X14. An answer of the provider that holds no first choice: the read of
    [completion.data.choices[0].message] throws inside [run]'s [try], so a
    non-streaming run returns a failure built from that error (code
    UNKNOWN_ERROR), after its single request and without touching its
    history. *)
Theorem malformed_answer_fails_the_run {S}
    (JSON_parse : string -> Exc JValue) (JSON_stringify : JValue -> string)
    (create : CreateParams -> S -> Exc JValue * S) (retryConfig : RetryConfig)
    (fuel : nat) (a : Agent) (msgs : nat) (vars : option nat)
    (options : Options) (w : World (S:=S)) (items : list JValue) (text : string)
    (s1 s2 : S) (response : JValue) (t : Thrown) :
  stream options = false ->
  below 0 (maxTurns options) = true ->
  1 <= maxRetries retryConfig ->
  heap w !! msgs = Some (JArr items) ->
  resolve_instructions a (ext w) = (inr text, s1) ->
  let request := createParams a (modelOverride options) text items false in
  create request s1 = (inr response, s2) ->
  first_message (succeed response) = inl t ->
  run JSON_parse JSON_stringify create retryConfig (Datatypes.S fuel) a msgs
      vars options w
  = (Val (failed (unknown_error t)),
     {| ext := s2; heap := heap (entered w vars items);
        trace := trace w ++ [EvCreate request] |}).
Proof.
  intros Hstream Hturn Hretries Hmessages Htext request Hcreate Hfirst.
  assert (below (Z.of_nat (length items) - Z.of_nat (length items))
                (maxTurns options) = true) as Hb
    by (rewrite Z.sub_diag; exact Hturn).
  unfold run. rewrite Hstream.
  erewrite bind_val_eq by (apply enter_array, Hmessages).
  cbv beta iota. unfold run_from, try_catch.
  rewrite (run_loop_asks _ _ _ _ _ _ _ _ _ _ _ _ (entered_history _ _ _) Hb).
  erewrite bind_val_eq by
    (eapply getChatCompletion_returns;
     [exact Hretries | apply entered_history | exact Htext | exact Hcreate]).
  cbn [success succeed negb].
  erewrite bind_exn_eq by (apply lift_inl, Hfirst).
  reflexivity.
Qed.

Lemma malformed_answer_fails_the_run_witness :
  exists res w' e,
    run_script [JObj [("choices", JArr [])]] default_options = (Val res, w')
    /\ error res = Some e
    /\ error_name e = "TypeError"
    /\ error_code e = "UNKNOWN_ERROR"
    /\ length (requests (trace w')) = 1%nat.
Proof.
  unfold run_script.
  rewrite (malformed_answer_fails_the_run parse stringify
             (scripted [JObj [("choices", JArr [])]]) default_retryConfig 7 A
             0%nat (Some 1%nat) default_options start [user "hi"] "You are A."
             0%nat 1%nat (JObj [("choices", JArr [])])
             (TypeError "Cannot read properties of undefined (reading 'message')"));
    try reflexivity.
  - do 3 eexists. repeat split; reflexivity.
  - cbn. lia.
Defined.

(** ** A tool round trip *)

(** X15. The answers of the tools are sent back to the model: in a
    non-streaming run whose first answer carries tool calls that are all
    dispatched, the messages of the second request are the system message
    [{role: "system", content: <the agent's instructions, evaluated
    again>}], then the caller's messages, then the assistant message
    (with the agent's name as its sender and its other properties as the
    provider gave them), then the tool messages, one per call in call
    order, each [{role: "tool", content, tool_call_id}] as a dispatch
    builds them; when the second answer carries no tool call, the run
    succeeds with the assistant message, the tool messages and the second
    assistant message, in that order, after exactly those two requests. *)
Theorem tool_answers_are_sent_back {S}
    (JSON_parse : string -> Exc JValue) (JSON_stringify : JValue -> string)
    (create : CreateParams -> S -> Exc JValue * S) (retryConfig : RetryConfig)
    (fuel : nat) (a : Agent) (msgs : nat) (vars : option nat)
    (options : Options) (w : World (S:=S)) (items calls : list JValue)
    (text1 text2 : string) (s1 s2 s3 s4 : S) (response1 response2 : JValue)
    (fs1 fs2 : list (string * JValue)) (d : ResponseData) (w2 : World) :
  stream options = false ->
  executeTools options = true ->
  maxTurns options = Infinity ->
  1 <= maxRetries retryConfig ->
  heap w !! msgs = Some (JArr items) ->
  resolve_instructions a (ext w) = (inr text1, s1) ->
  let request1 := createParams a (modelOverride options) text1 items false in
  create request1 s1 = (inr response1, s2) ->
  first_message (succeed response1) = inr (JObj fs1) ->
  assoc "tool_calls" fs1 = Some (JArr calls) ->
  let stamped1 := JObj (set_field "sender" (JStr (name a)) fs1) in
  handleToolCalls JSON_parse JSON_stringify (JArr calls) a (length (heap w))
    {| ext := s2;
       heap := heap w ++ [spread_object (context_argument w vars);
                          JArr (items ++ [stamped1])];
       trace := trace w ++ [EvCreate request1] |}
  = (Val (succeed d), w2) ->
  resolve_instructions a (ext w2) = (inr text2, s3) ->
  let request2 :=
    createParams a (modelOverride options) text2
      (items ++ stamped1 :: messages d) false in
  create request2 s3 = (inr response2, s4) ->
  first_message (succeed response2) = inr (JObj fs2) ->
  truthy (default JUndef (assoc "tool_calls" fs2)) = false ->
  let stamped2 := JObj (set_field "sender" (JStr (name a)) fs2) in
  exists ctx w',
    run JSON_parse JSON_stringify create retryConfig
        (Datatypes.S (Datatypes.S fuel)) a msgs vars options w
    = (Val (succeed {| messages := stamped1 :: messages d ++ [stamped2];
                       agent := Some a;
                       contextVariables := ctx |}), w')
    /\ requests (trace w') = requests (trace w) ++ [request1; request2]
    /\ map cp_messages (requests (trace w'))
       = map cp_messages (requests (trace w))
         ++ [JObj [("role", JStr "system"); ("content", JStr text1)] :: items;
             JObj [("role", JStr "system"); ("content", JStr text2)]
               :: items ++ stamped1 :: messages d]
    /\ get_prop stamped1 "sender" = inr (JStr (name a))
    /\ (forall k, k <> "sender" -> get_prop stamped1 k = get_prop (JObj fs1) k)
    /\ Forall2 (answers_call JSON_parse JSON_stringify a (length (heap w)))
         calls (messages d)
    /\ length (messages d) = length calls.
Proof.
  intros Hstream Htools Hturns Hretries Hmessages Htext1 request1 Hcreate1
         Hfirst1 Hcalls1 stamped1 Hdispatch Htext2 request2 Hcreate2 Hfirst2
         Hcalls2 stamped2.
  set (context := length (heap w)) in *.
  set (history := Datatypes.S (length (heap w))).
  set (w1 := {| ext := s2;
                heap := heap w ++ [spread_object (context_argument w vars);
                                   JArr (items ++ [stamped1])];
                trace := trace w ++ [EvCreate request1] |}) in *.
  assert (forall n, below n (maxTurns options) = true) as Hb
    by (intros n; rewrite Hturns; reflexivity).
  assert (heap w1 !! history = Some (JArr (items ++ [stamped1]))) as Hh1.
  { unfold w1, history. cbn [heap]. rewrite lookup_app_r by lia.
    replace (Datatypes.S (length (heap w)) - length (heap w))%nat with 1%nat
      by lia. reflexivity. }
  assert (history <> context) as Hne by (unfold history, context; lia).
  destruct (handleToolCalls_data _ _ _ _ _ _ _ _ Hdispatch)
    as (d' & Hd' & Hnone & _).
  inversion Hd'; subst d'. clear Hd'.
  assert (object_cell w1 context) as Hobj1.
  { unfold w1, context, object_cell. cbn [heap]. rewrite lookup_app_r by lia.
    rewrite Nat.sub_diag. cbn. unfold spread_object. eauto. }
  assert (object_cell w2 context) as Hobj2.
  { revert Hdispatch. unfold handleToolCalls. intros H.
    bind_val H ctx0 w3 H1 H2. inversion H1; subst.
    bind_val H2 cs w4 H3 H4. apply lift_world in H3. subst w4.
    bind_val H4 r w5 H5 H6. inversion H6; subst.
    eapply dispatch_object_cell; [exact H5 | exact Hobj1]. }
  assert (heap w2 !! history = Some (JArr (items ++ [stamped1]))) as Hh2.
  { pose proof (handleToolCalls_only_context _ _ _ _ _ _ _ _ Hdispatch)
      as [_ K].
    rewrite K by exact Hne. exact Hh1. }
  pose proof (handleToolCalls_asks_nothing _ _ _ _ _ _ _ _ Hdispatch)
    as (evs & Hevs & Hquiet).
  destruct (after_dispatch_continues d a history context
              (run_loop JSON_parse JSON_stringify create retryConfig
                 (Datatypes.S fuel) options history context (length items))
              w2 (items ++ [stamped1]) Hnone Hh2 Hobj2 Hne)
    as (w3 & Hcont & Hh3 & Ht3 & He3).
  rewrite <- app_assoc in Hh3. cbn [app] in Hh3.
  subst history context.
  assert (requests (trace w3) = requests (trace w) ++ [request1]) as Hasked.
  { rewrite Ht3, Hevs. unfold w1. cbn [trace].
    unfold requests in *. rewrite !flat_map_app. cbn [flat_map app].
    destruct (flat_map _ evs); [|cbn in Hquiet; lia].
    rewrite !app_nil_r. reflexivity. }
  assert (requests
            (trace w3
             ++ [EvCreate (createParams a (modelOverride options) text2
                             (items ++ stamped1 :: messages d) false)])
          = requests (trace w) ++ [request1; request2]) as Hrequests.
  { unfold requests in *. rewrite flat_map_app, Hasked, <- app_assoc.
    reflexivity. }
  do 2 eexists. split; [|split; [|split; [|split; [|split; [|split]]]]].
  - unfold run. rewrite Hstream.
    erewrite bind_val_eq by (apply enter_array, Hmessages).
    cbv beta iota. unfold run_from, try_catch.
    rewrite (run_loop_asks _ _ _ _ _ _ _ _ _ _ _ _ (entered_history _ _ _)
               (Hb _)).
    erewrite bind_val_eq by
      (eapply getChatCompletion_returns;
       [exact Hretries | apply entered_history | exact Htext1 | exact Hcreate1]).
    cbn [success succeed negb].
    erewrite bind_val_eq by (apply lift_inr, Hfirst1).
    erewrite bind_val_eq by (apply lift_inr; reflexivity).
    erewrite bind_val_eq by (apply push_cell; cbn [heap]; apply entered_history).
    erewrite bind_val_eq by (apply lift_inr; reflexivity).
    rewrite assoc_set_field_ne by discriminate. rewrite Hcalls1, Htools.
    cbn [default truthy negb orb id].
    match goal with
    | |- context [set_cell ?x ?i ?v] =>
        replace (set_cell x i v) with w1
    end.
    2:{ unfold w1, set_cell. cbn [ext heap trace entered]. f_equal.
        rewrite insert_app_r_alt by lia.
        replace (Datatypes.S (length (heap w)) - length (heap w))%nat
          with 1%nat by lia.
        reflexivity. }
    erewrite bind_val_eq by (exact Hdispatch).
    rewrite Hcont.
    rewrite (run_loop_asks _ _ _ _ _ _ _ _ _ _ _ _ Hh3 (Hb _)).
    erewrite bind_val_eq by
      (eapply getChatCompletion_returns;
       [exact Hretries | exact Hh3 | rewrite He3; exact Htext2 | exact Hcreate2]).
    cbn [success succeed negb].
    erewrite bind_val_eq by (apply lift_inr, Hfirst2).
    erewrite bind_val_eq by (apply lift_inr; reflexivity).
    erewrite bind_val_eq by (apply push_cell; cbn [heap]; exact Hh3).
    erewrite bind_val_eq by (apply lift_inr; reflexivity).
    rewrite assoc_set_field_ne by discriminate. rewrite Hcalls2.
    cbn [negb orb].
    unfold finish.
    erewrite bind_val_eq by
      (apply read_cell; cbn; apply list_lookup_insert_eq;
       apply lookup_lt_Some in Hh3; exact Hh3).
    erewrite bind_val_eq by (apply lift_inr; reflexivity).
    erewrite bind_val_eq by reflexivity.
    unfold ret. rewrite <- app_assoc, drop_app_length. reflexivity.
  - cbn [trace set_cell]. exact Hrequests.
  - cbn [trace set_cell]. rewrite Hrequests, map_app. reflexivity.
  - unfold stamped1. cbn [get_prop]. rewrite assoc_set_field_eq. reflexivity.
  - intros k Hk. unfold stamped1. cbn [get_prop].
    rewrite assoc_set_field_ne by exact Hk. reflexivity.
  - destruct (one_tool_message_per_call_aux JSON_parse JSON_stringify
                (JArr calls) a _ w1 (succeed d) w2 Hdispatch)
      as (cs & d0 & Hit & Hd0 & F & _).
    inversion Hit; subst cs. inversion Hd0; subst d0. exact F.
  - destruct (one_tool_message_per_call_aux JSON_parse JSON_stringify
                (JArr calls) a _ w1 (succeed d) w2 Hdispatch)
      as (cs & d0 & Hit & Hd0 & _ & L).
    inversion Hit; subst cs. inversion Hd0; subst d0. exact L.
Qed.

Lemma tool_answers_are_sent_back_witness :
  exists d w' second,
    run_script missing_script default_options = (Val (succeed d), w')
    /\ length (requests (trace w')) = 2%nat
    /\ requests (trace w') !! 1%nat = Some second
    /\ cp_messages second
       = [JObj [("role", JStr "system"); ("content", JStr "You are A.")];
          JObj [("role", JStr "user"); ("content", JStr "hi")];
          JObj [("role", JStr "assistant"); ("content", JNull);
                ("tool_calls", JArr missing_calls); ("sender", JStr "A")];
          JObj [("role", JStr "tool");
                ("content",
                 JStr (stringify
                         (JObj [("context_variables",
                                 JObj [("user", JStr "bob")])])));
                ("tool_call_id", JStr "call-1")];
          JObj [("role", JStr "tool");
                ("content", JStr "Error: Tool search not found.");
                ("tool_call_id", JStr "call-2")];
          JObj [("role", JStr "tool");
                ("content",
                 JStr (stringify
                         (JObj [("name", JStr "B"); ("model", JStr "gpt-4o");
                                ("instructions", JStr "You are B.");
                                ("functions", JArr []);
                                ("parallelToolCalls", JBool false)])));
                ("tool_call_id", JStr "call-3")]]
    /\ messages d
       = tail (tail (cp_messages second))
         ++ [JObj [("role", JStr "assistant"); ("content", JStr "done");
                   ("sender", JStr "A")]].
Proof.
  edestruct (tool_answers_are_sent_back parse stringify
               (scripted missing_script) default_retryConfig 6 A 0%nat
               (Some 1%nat) default_options start [user "hi"] missing_calls
               "You are A." "You are A." 0%nat 1%nat 1%nat 2%nat
               (completion_of (assistant_calling missing_calls))
               (completion_of (assistant "done")))
    as (ctx & w' & Hrun & Hreq & _); try reflexivity.
  - cbn. lia.
  - vm_compute. reflexivity.
  - exact eq_refl.
  - do 3 eexists. split; [exact Hrun|]. rewrite Hreq.
    split; [reflexivity|]. split; [reflexivity|].
    split; vm_compute; reflexivity.
Defined.

(** ** The terminal front end *)

Import Cli.

Lemma act_bind_val {St A B} (m : Act (St:=St) A) (k : A -> Act B) s a s1 :
  m s = (Val a, s1) -> act_bind m k s = k a s1.
Proof. unfold act_bind. intros ->. reflexivity. Qed.

Lemma act_bind_inv {St A B} (m : Act (St:=St) A) (k : A -> Act B) s r s' :
  act_bind m k s = (r, s') ->
  (exists a s1, m s = (Val a, s1) /\ k a s1 = (r, s'))
  \/ (exists t, m s = (Exn t, s') /\ r = Exn t)
  \/ (m s = (OutOfFuel, s') /\ r = OutOfFuel).
Proof.
  unfold act_bind. destruct (m s) as [[a|t|] s1]; intros H.
  - left. eauto.
  - right. left. inversion H; subst. eauto.
  - right. right. inversion H; subst. eauto.
Qed.

Section StreamingFrontEnd.
Context {S : Type}.
Variable JSON_parse : string -> Exc JValue.
Variable JSON_stringify : JValue -> string.
Variable create : CreateParams -> S -> Exc JValue * S.
Variable write_error : JValue -> option Thrown.
Variable same_object : JValue -> JValue -> bool.
Variable fuel : nat.
Variable config : Config (S:=S).

(** Handed an empty array, [processStreamingResponse] prints nothing and
    collects nothing. *)
Lemma processStreamingResponse_nil (t : Terminal (S:=S)) :
  processStreamingResponse write_error same_object [] t = (Val [], t).
Proof. destruct t. reflexivity. Qed.

(** A streaming run resolves: [runStream] catches what its generator
    throws. *)
Lemma streaming_run_resolves retryConfig a msgs vars options
    (w : World (S:=S)) r w' :
  stream options = true ->
  run JSON_parse JSON_stringify create retryConfig fuel a msgs vars options w
  = (r, w') ->
  forall e, r <> Exn e.
Proof.
  unfold run. intros ->. unfold runStream.
  destruct (streamGenerator _ _ _ _ _ _ _ _ _ w) as [[] w1];
    intros H e; inversion H; discriminate.
Qed.

Lemma kept_cell (w w' : World (S:=S)) l v :
  take (length (heap w)) (heap w') = heap w ->
  heap w !! l = Some v ->
  heap w' !! l = Some v.
Proof.
  intros K H. rewrite <- K in H. apply lookup_take_Some in H. apply H.
Qed.

Lemma start_loop_streaming (inputs : list string) :
  forall msgs a (t : Terminal (S:=S)) h r t',
    cfg_stream config = true ->
    heap (session t) !! msgs = Some (JArr h) ->
    start_loop JSON_parse JSON_stringify create write_error same_object fuel
      config inputs msgs a t = (r, t') ->
    (forall e, r <> Exn e)
    /\ (r = Val tt ->
        heap (session t') !! msgs
        = Some (JArr (h ++ map user_message inputs))).
Proof.
  induction inputs as [|userInput rest IH]; intros msgs a t h r t' Hs Hh H.
  - cbn in H. inversion H; subst. cbn. split; [discriminate|].
    intros _. rewrite app_nil_r. exact Hh.
  - cbn [start_loop] in H.
    rewrite (act_bind_val _ _ _ tt
               {| session := session t;
                  shown := shown t ++ [Question (esc +:+ "[90mUser" +:+ esc +:+ "[0m: ")] |})
      in H by reflexivity.
    rewrite (act_bind_val _ _ _ tt
               {| session := set_cell (session t) msgs
                               (JArr (h ++ [user_message userInput]));
                  shown := shown t ++ [Question (esc +:+ "[90mUser" +:+ esc +:+ "[0m: ")] |})
      in H
      by (unfold swarm; cbn [session shown];
          rewrite (push_cell _ _ _ _ Hh); reflexivity).
    assert (exists vars w2,
              (match cfg_contextVariables config with
               | Some l => act_ret l
               | None => swarm (alloc (JObj []))
               end)
                {| session := set_cell (session t) msgs
                                (JArr (h ++ [user_message userInput]));
                   shown := shown t ++ [Question (esc +:+ "[90mUser" +:+ esc +:+ "[0m: ")] |}
              = (Val vars,
                 {| session := w2;
                    shown := shown t ++ [Question (esc +:+ "[90mUser" +:+ esc +:+ "[0m: ")] |})
              /\ heap w2 !! msgs = Some (JArr (h ++ [user_message userInput])))
      as (vars & w2 & Hvars & Hh2).
    { assert (heap (set_cell (session t) msgs
                      (JArr (h ++ [user_message userInput]))) !! msgs
              = Some (JArr (h ++ [user_message userInput]))) as K.
      { cbn. apply list_lookup_insert_eq. apply lookup_lt_Some in Hh. exact Hh. }
      destruct (cfg_contextVariables config) as [l|].
      - do 2 eexists. split; [reflexivity|exact K].
      - do 2 eexists. split; [reflexivity|].
        cbn [heap]. apply lookup_app_l_Some. exact K. }
    rewrite (act_bind_val _ _ _ _ _ Hvars) in H.
    apply act_bind_inv in H.
    destruct H as [(response & t3 & Hrun & H)|[(e & Hrun & ->)|[Hrun ->]]].
    + unfold swarm in Hrun. cbn [session shown] in Hrun.
      destruct (run _ _ _ _ _ _ _ _ _ w2) as [res w3] eqn:R.
      inversion Hrun; subst res t3. clear Hrun.
      pose proof (kept_cell _ _ _ _ (run_keeps _ _ _ _ _ _ _ _ _ _ _ _ R) Hh2)
        as Hh3.
      destruct (if success response then data response else None)
        as [d|] eqn:D.
      * assert (data response = Some d) as Hd
          by (destruct (success response); [exact D|discriminate]).
        assert (messages d = []) as Hm.
        { unfold run in R. cbn [stream] in R. rewrite Hs in R.
          eapply runStream_no_messages; eassumption. }
        rewrite Hs, Hm in H.
        rewrite (act_bind_val _ _ _ tt
                   {| session := set_cell w3 msgs
                                   (JArr ((h ++ [user_message userInput]) ++ []));
                      shown := shown t ++ [Question (esc +:+ "[90mUser" +:+ esc +:+ "[0m: ")] |})
          in H.
        2:{ rewrite (act_bind_val _ _ _ _ _ (processStreamingResponse_nil _)).
            unfold swarm. cbn [session shown].
            rewrite (push_cell _ _ _ _ Hh3). reflexivity. }
        eapply IH in H; [|exact Hs|].
        2:{ cbn. apply list_lookup_insert_eq. apply lookup_lt_Some in Hh3.
            exact Hh3. }
        destruct H as (Hr & Hcell).
        split; [exact Hr|].
        intros Hv. rewrite (Hcell Hv). rewrite app_nil_r, <- app_assoc.
        reflexivity.
      * rewrite (act_bind_val _ _ _ tt
                   {| session := w3;
                      shown := (shown t ++ [Question (esc +:+ "[90mUser" +:+ esc +:+ "[0m: ")])
                               ++ [LoggerError "Error:" (Failure (error response))] |})
          in H by reflexivity.
        eapply IH in H; [|exact Hs|exact Hh3].
        destruct H as (Hr & Hcell).
        split; [exact Hr|].
        intros Hv. rewrite (Hcell Hv). rewrite <- app_assoc. reflexivity.
    + exfalso. unfold swarm in Hrun. cbn [session shown] in Hrun.
      destruct (run _ _ _ _ _ _ _ _ _ w2) as [res w3] eqn:R.
      inversion Hrun; subst.
      eapply streaming_run_resolves in R; [apply R; reflexivity|exact Hs].
    + unfold swarm in Hrun. cbn [session shown] in Hrun.
      destruct (run _ _ _ _ _ _ _ _ _ w2) as [res w3] eqn:R.
      inversion Hrun; subst. split; discriminate.
Qed.

End StreamingFrontEnd.

(** X16. In streaming mode the front end never records an answer: whatever
    the provider, the tools and the user do, [start] does not reject, and
    when it is left waiting at its prompt the conversation it keeps, which
    is what it hands to the engine at every turn, holds exactly the user's
    lines, each as [{role: "user", content: <the line>, sender: "user"}];
    no message of an agent is ever added to it.  [run] hands back the result
    of [runStream], whose [messages] is an empty array, and that array is
    what [processStreamingResponse] is given to read. *)
Theorem streaming_cli_records_no_answer {S}
    (JSON_parse : string -> Exc JValue) (JSON_stringify : JValue -> string)
    (create : CreateParams -> S -> Exc JValue * S)
    (write_error : JValue -> option Thrown)
    (same_object : JValue -> JValue -> bool) (fuel : nat)
    (config : Config (S:=S)) (inputs : list string) (t : Terminal (S:=S))
    (r : Res unit) (t' : Terminal) :
  cfg_stream config = true ->
  start JSON_parse JSON_stringify create write_error same_object fuel config
    inputs t = (r, t') ->
  (forall e, r <> Exn e)
  /\ (r = Val tt ->
      heap (session t') !! length (heap (session t))
      = Some (JArr (map (fun line =>
                           JObj [("role", JStr "user");
                                 ("content", JStr line);
                                 ("sender", JStr "user")])
                        inputs))).
Proof.
  intros Hs H. unfold start in H.
  rewrite (act_bind_val _ _ _ tt
             {| session := session t;
                shown := shown t ++ [ConsoleLog [JStr ("Starting Swarm CLI " +:+ bee)]] |})
    in H by reflexivity.
  rewrite (act_bind_val _ _ _ (length (heap (session t)))
             {| session := {| ext := ext (session t);
                              heap := heap (session t) ++ [JArr []];
                              trace := trace (session t) |};
                shown := shown t ++ [ConsoleLog [JStr ("Starting Swarm CLI " +:+ bee)]] |})
    in H by reflexivity.
  eapply start_loop_streaming in H; [|exact Hs|].
  2:{ cbn [session heap]. rewrite lookup_app_r by lia.
      rewrite Nat.sub_diag. reflexivity. }
  exact H.
Qed.

Lemma streaming_cli_records_no_answer_witness :
  let out :=
    start Scenario.parse Scenario.stringify Scenario.greeter
      Desk.accepts_text Desk.distinct 8 Desk.streaming_config ["hi"; "there"]
      Desk.blank in
  fst out = Val tt
  /\ heap (session (snd out)) !! 0%nat
     = Some (JArr [JObj [("role", JStr "user"); ("content", JStr "hi");
                         ("sender", JStr "user")];
                   JObj [("role", JStr "user"); ("content", JStr "there");
                         ("sender", JStr "user")]])
  /\ length (requests (trace (session (snd out)))) = 2%nat.
Proof.
  cbv zeta.
  assert (fst (start Scenario.parse Scenario.stringify Scenario.greeter
                 Desk.accepts_text Desk.distinct 8 Desk.streaming_config
                 ["hi"; "there"] Desk.blank) = Val tt) as V
    by (vm_compute; reflexivity).
  destruct (streaming_cli_records_no_answer Scenario.parse Scenario.stringify
              Scenario.greeter Desk.accepts_text Desk.distinct 8
              Desk.streaming_config ["hi"; "there"] Desk.blank _ _ eq_refl
              (surjective_pairing _)) as (_ & H).
  split; [exact V|]. split; [exact (H V)|]. vm_compute. reflexivity.
Defined.

(** ** What the display code may do *)

Section Settles.
Context {St : Type}.
Variable R : St -> St -> Prop.
Hypothesis R_refl : forall s, R s s.
Hypothesis R_trans : forall s1 s2 s3, R s1 s2 -> R s2 s3 -> R s1 s3.

Lemma settles_ret {A} (a : A) : settles R (act_ret a).
Proof. intros s r s' H. inversion H; subst. split; [discriminate|apply R_refl]. Qed.

Lemma settles_lift {A} (e : Exc A) : settles R (act_lift e).
Proof.
  intros s r s' H. unfold act_lift in H. inversion H; subst.
  split; [destruct e; discriminate|apply R_refl].
Qed.


Lemma settles_update (f : St -> St) :
  (forall s, R s (f s)) -> settles R (update f).
Proof. intros Hf s r s' H. inversion H; subst. split; [discriminate|apply Hf]. Qed.

Lemma settles_bind {A B} (m : Act A) (k : A -> Act B) :
  settles R m -> (forall a, settles R (k a)) -> settles R (act_bind m k).
Proof.
  intros Hm Hk s r s' H. apply act_bind_inv in H.
  destruct H as [(a & s1 & H1 & H2)|[(t & H1 & ->)|[H1 ->]]].
  - destruct (Hm _ _ _ H1) as [_ R1]. destruct (Hk a _ _ _ H2) as [N R2].
    split; [exact N|eapply R_trans; eassumption].
  - destruct (Hm _ _ _ H1) as [_ R1]. split; [discriminate|exact R1].
  - destruct (Hm _ _ _ H1) as [N _]. contradiction.
Qed.

Lemma settles_for_of {A} (items : list A) (body : A -> Act unit) :
  (forall x, settles R (body x)) -> settles R (for_of items body).
Proof.
  intros Hb. induction items as [|x rest IH]; cbn [for_of].
  - apply settles_ret.
  - apply settles_bind; [apply Hb|intros _; exact IH].
Qed.

Lemma settles_catch {A} (m : Act A) (handler : Thrown -> Act A) :
  settles R m -> (forall t, settles R (handler t)) ->
  settles R (act_catch m handler).
Proof.
  intros Hm Hh s r s' H. unfold act_catch in H.
  destruct (m s) as [[a|t|] s1] eqn:E.
  - inversion H; subst. eapply Hm. exact E.
  - destruct (Hm _ _ _ E) as [_ R1]. destruct (Hh t _ _ _ H) as [N R2].
    split; [exact N|eapply R_trans; eassumption].
  - destruct (Hm _ _ _ E) as [N _]. contradiction.
Qed.

End Settles.

(** *** [processStreamingResponse] *)





Section Display.
Context {S : Type}.
Variable JSON_parse : string -> Exc JValue.
Variable JSON_stringify : JValue -> string.
Variable write_error : JValue -> option Thrown.
Variable same_object : JValue -> JValue -> bool.












End Display.



(** *** [prettyPrintMessages] *)

Lemma logs_only_refl {S} (t : Terminal (S:=S)) : logs_only t t.
Proof. split; [reflexivity|]. exists []. rewrite app_nil_r. auto. Qed.

Lemma logs_only_trans {S} (t1 t2 t3 : Terminal (S:=S)) :
  logs_only t1 t2 -> logs_only t2 t3 -> logs_only t1 t3.
Proof.
  intros [S1 (o1 & P1 & W1)] [S2 (o2 & P2 & W2)]. split; [congruence|].
  exists (o1 ++ o2). rewrite P2, P1, app_assoc. split; [reflexivity|].
  unfold written in *. rewrite flat_map_app, W1, W2. reflexivity.
Qed.

Lemma settles_log {S} (args : list JValue) :
  settles (logs_only (S:=S)) (show (ConsoleLog args)).
Proof.
  apply settles_update. intros t. split; [reflexivity|].
  exists [ConsoleLog args]. split; reflexivity.
Qed.

Section Pretty.
Context {S : Type}.
Variable JSON_parse : string -> Exc JValue.
Variable JSON_stringify : JValue -> string.
Variable write_error : JValue -> option Thrown.
Variable same_object : JValue -> JValue -> bool.

Lemma settles_print_tool_call toolCall :
  settles (logs_only (S:=S))
    (print_tool_call JSON_parse JSON_stringify toolCall).
Proof.
  unfold print_tool_call.
  apply settles_bind; [apply logs_only_trans| |intros callee].
  { apply settles_lift, logs_only_refl. }
  apply settles_bind; [apply logs_only_trans| |intros [name args]].
  { apply settles_lift, logs_only_refl. }
  apply settles_bind; [apply logs_only_trans| |intros argStr].
  { apply settles_lift, logs_only_refl. }
  apply settles_log.
Qed.

(** What is displayed after the heading of a message. *)
Lemma settles_message_body (message : JValue) :
  settles (logs_only (S:=S))
    (perform body <- act_lift (get_prop message "content") ;
     perform _ <-
       (if truthy body then show (ConsoleLog [body]) else act_ret tt) ;
     perform calls <- act_lift (get_prop message "tool_calls") ;
     let toolCalls := if truthy calls then calls else JArr [] in
     perform _ <-
       (if length_gt1 toolCalls then show (ConsoleLog []) else act_ret tt) ;
     perform items <- act_lift (iterate toolCalls) ;
     for_of items (print_tool_call JSON_parse JSON_stringify)).
Proof.
  apply settles_bind; [apply logs_only_trans| |intros body].
  { apply settles_lift, logs_only_refl. }
  apply settles_bind; [apply logs_only_trans| |intros _].
  { destruct (truthy body); [apply settles_log|apply settles_ret, logs_only_refl]. }
  apply settles_bind; [apply logs_only_trans| |intros calls].
  { apply settles_lift, logs_only_refl. }
  cbv zeta.
  apply settles_bind; [apply logs_only_trans| |intros _].
  { destruct (length_gt1 _); [apply settles_log|apply settles_ret, logs_only_refl]. }
  apply settles_bind; [apply logs_only_trans| |intros items].
  { apply settles_lift, logs_only_refl. }
  apply settles_for_of;
    [apply logs_only_refl|apply logs_only_trans|apply settles_print_tool_call].
Qed.

Lemma displayed_strict_equal message role :
  get_prop message "role" = inr role ->
  strict_equal same_object role
    (JStr (MessageRole.text MessageRole.Assistant))
  = displayed message.
Proof.
  intros H. unfold displayed. rewrite H. destruct role; reflexivity.
Qed.

(** One message: nothing is written for a message that is not displayed,
    and exactly its heading for one that is. *)
Lemma print_message_inv (message : JValue) (t : Terminal (S:=S)) r t' :
  print_message JSON_parse JSON_stringify write_error same_object message t
  = (r, t') ->
  r <> OutOfFuel
  /\ session t' = session t
  /\ (r = Val tt ->
      exists outs,
        shown t' = shown t ++ outs
        /\ written outs = if displayed message then [heading message] else []).
Proof.
  unfold print_message. intros H.
  apply act_bind_inv in H.
  destruct H as [(role & t1 & H1 & H)|[(e & H1 & ->)|[H1 ->]]].
  2:{ unfold act_lift in H1. inversion H1; subst.
      split; [discriminate|]. split; [reflexivity|discriminate]. }
  2:{ unfold act_lift in H1. destruct (get_prop message "role"); discriminate. }
  unfold act_lift in H1. destruct (get_prop message "role") as [|role'] eqn:Hrole;
    inversion H1; subst role' t1. clear H1.
  rewrite (displayed_strict_equal _ _ Hrole) in H.
  destruct (displayed message); cbn [negb] in H.
  2:{ inversion H; subst. split; [discriminate|]. split; [reflexivity|].
      intros _. exists []. rewrite app_nil_r. auto. }
  apply act_bind_inv in H.
  destruct H as [(who & t1 & H1 & H)|[(e & H1 & ->)|[H1 ->]]].
  2:{ unfold act_lift in H1. inversion H1; subst.
      split; [discriminate|]. split; [reflexivity|discriminate]. }
  2:{ unfold act_lift in H1. destruct (get_prop message "sender"); discriminate. }
  unfold act_lift in H1.
  destruct (get_prop message "sender") as [|who'] eqn:Hwho;
    inversion H1; subst who' t1. clear H1.
  apply act_bind_inv in H.
  destruct H as [(u & t1 & H1 & H)|[(e & H1 & ->)|[H1 ->]]].
  2:{ unfold write_out in H1. destruct (write_error _).
      - unfold act_lift in H1. inversion H1; subst.
        split; [discriminate|]. split; [reflexivity|discriminate].
      - inversion H1. }
  2:{ unfold write_out in H1. destruct (write_error _); inversion H1. }
  unfold write_out in H1. destruct (write_error _); [inversion H1|].
  inversion H1; subst u t1. clear H1.
  destruct (settles_message_body message _ _ _ H) as [N [Hs (outs & Ho & Hw)]].
  cbn [session shown] in Hs, Ho.
  split; [exact N|]. split; [exact Hs|].
  intros _. eexists. split.
  - rewrite Ho, <- app_assoc. reflexivity.
  - unfold written in *. rewrite flat_map_app, Hw. unfold heading.
    rewrite Hwho. reflexivity.
Qed.

End Pretty.



(** *** Display code that cannot complete *)

Lemma settles_ends {St A} (R : St -> St -> Prop) (m : Act (St:=St) A) :
  settles R m -> ends m.
Proof. intros H s r s' E. split; [apply (H _ _ _ E)|exact I]. Qed.

Lemma throws_after {St A B} (m : Act (St:=St) A) (k : A -> Act B) :
  ends m -> (forall a, throws (k a)) -> throws (act_bind m k).
Proof.
  intros Hm Hk s r s' H. apply act_bind_inv in H.
  destruct H as [(a & s1 & H1 & H2)|[(t & H1 & ->)|[H1 ->]]].
  - eapply Hk. exact H2.
  - eauto.
  - destruct (Hm _ _ _ H1) as [N _]. contradiction.
Qed.

Lemma throws_after_value {St A B} (a : A) (k : A -> Act (St:=St) B) :
  throws (k a) -> throws (act_bind (act_lift (inr a)) k).
Proof. intros H s r s' E. cbn in E. eapply H. exact E. Qed.

Lemma throws_for_of {St A} (items : list A) (body : A -> Act (St:=St) unit)
    (x : A) :
  (forall y, ends (body y)) -> In x items -> throws (body x) ->
  throws (for_of items body).
Proof.
  intros He Hin Hx. induction items as [|y rest IH]; [destruct Hin|].
  cbn [for_of]. intros s r s' H. apply act_bind_inv in H.
  destruct H as [(a & s1 & H1 & H2)|[(t & H1 & ->)|[H1 ->]]].
  - destruct Hin as [->|Hin].
    + destruct (Hx _ _ _ H1) as [e E]. discriminate.
    + eapply IH; eassumption.
  - eauto.
  - destruct (He y _ _ _ H1) as [N _]. contradiction.
Qed.

Section Stopped.
Context {S : Type}.
Variable JSON_parse : string -> Exc JValue.
Variable JSON_stringify : JValue -> string.
Variable write_error : JValue -> option Thrown.
Variable same_object : JValue -> JValue -> bool.

Lemma ends_print_message message :
  ends (print_message (S:=S) JSON_parse JSON_stringify write_error same_object
          message).
Proof.
  intros s r s' H. apply print_message_inv in H. split; [apply H|exact I].
Qed.

Lemma ends_show (o : Output) : ends (show (S:=S) o).
Proof. intros s r s' H. inversion H; subst. split; [discriminate|exact I]. Qed.

Lemma ends_lift {A} (e : Exc A) : ends (act_lift (St:=Terminal (S:=S)) e).
Proof. apply settles_lift. intros _. exact I. Qed.

Lemma ends_ret {A} (a : A) : ends (act_ret (St:=Terminal (S:=S)) a).
Proof. apply settles_ret. intros _. exact I. Qed.

Lemma ends_write_out chunk : ends (write_out (S:=S) write_error chunk).
Proof.
  unfold write_out. destruct (write_error chunk);
    [apply ends_lift|apply ends_show].
Qed.

Lemma iterate_truthy v items (x : JValue) :
  iterate v = inr items -> In x items -> truthy v = true.
Proof.
  destruct v as [| | | |s|xs|]; cbn; try discriminate; intros H Hin.
  - destruct s; [inversion H; subst; destruct Hin|reflexivity].
  - reflexivity.
Qed.

Lemma displayed_role message :
  displayed message = true ->
  get_prop message "role"
  = inr (JStr (MessageRole.text MessageRole.Assistant)).
Proof.
  unfold displayed. destruct (get_prop message "role") as [|[]]; try discriminate.
  intros H. apply String.eqb_eq in H. subst. reflexivity.
Qed.

Lemma throws_print_message message calls items call callee name args e :
  displayed message = true ->
  get_prop message "tool_calls" = inr calls ->
  iterate calls = inr items ->
  In call items ->
  get_prop call "function" = inr callee ->
  destructure callee = inr (name, args) ->
  JSON_parse (js_String args) = inl e ->
  throws (print_message (S:=S) JSON_parse JSON_stringify write_error
            same_object message).
Proof.
  intros Hd Hcalls Hitems Hin Hcallee Hparts Hparse.
  unfold print_message.
  rewrite (displayed_role _ Hd), Hcalls.
  apply throws_after_value. cbn [strict_equal MessageRole.text negb].
  rewrite String.eqb_refl. cbn [negb].
  apply throws_after; [apply ends_lift|]. intros who.
  apply throws_after; [apply ends_write_out|]. intros _.
  apply throws_after; [apply ends_lift|]. intros body.
  apply throws_after.
  { destruct (truthy body); [apply ends_show|apply ends_ret]. }
  intros _. apply throws_after_value.
  rewrite (iterate_truthy _ _ _ Hitems Hin).
  apply throws_after.
  { destruct (length_gt1 calls); [apply ends_show|apply ends_ret]. }
  intros _. rewrite Hitems. apply throws_after_value.
  apply (throws_for_of items _ call).
  - intros y. eapply settles_ends. apply settles_print_tool_call.
  - exact Hin.
  - intros s r s' H. unfold print_tool_call in H. rewrite Hcallee in H.
    rewrite (act_bind_val _ _ _ callee s) in H by reflexivity.
    rewrite Hparts in H.
    rewrite (act_bind_val _ _ _ (name, args) s) in H by reflexivity.
    cbv beta iota in H. rewrite Hparse in H.
    cbn in H. inversion H; subst. eauto.
Qed.

End Stopped.

(** X19. A tool call whose arguments are not JSON makes the display throw:
    when one of the messages handed to [prettyPrintMessages] has the role
    assistant and carries a tool call with a function whose arguments do not
    parse, [prettyPrintMessages] ends with an exception, whatever the
    terminal does.  [start] calls it outside any [try] block, so the
    front end rejects, although the run itself succeeds when the call names
    a tool the agent does not have (such a call is answered without its
    arguments being parsed). *)
Theorem unparsable_arguments_stop_the_display {S}
    (JSON_parse : string -> Exc JValue) (JSON_stringify : JValue -> string)
    (write_error : JValue -> option Thrown)
    (same_object : JValue -> JValue -> bool)
    (msgs : list JValue) (message calls : JValue) (items : list JValue)
    (call callee name args : JValue) (e : Thrown)
    (t : Terminal (S:=S)) (r : Res unit) (t' : Terminal) :
  In message msgs ->
  displayed message = true ->
  get_prop message "tool_calls" = inr calls ->
  iterate calls = inr items ->
  In call items ->
  get_prop call "function" = inr callee ->
  destructure callee = inr (name, args) ->
  JSON_parse (js_String args) = inl e ->
  prettyPrintMessages JSON_parse JSON_stringify write_error same_object msgs t
  = (r, t') ->
  exists error, r = Exn error.
Proof.
  intros Hm Hd Hcalls Hitems Hin Hcallee Hparts Hparse H.
  unfold prettyPrintMessages in H.
  eapply (throws_for_of msgs _ message); [| | |exact H].
  - intros y. apply ends_print_message.
  - exact Hm.
  - eapply throws_print_message; eassumption.
Qed.

Lemma unparsable_arguments_stop_the_display_witness :
  let out :=
    prettyPrintMessages Scenario.parse Scenario.stringify Desk.accepts_text
      Desk.distinct [user_message "hi"; Desk.stray_call] Desk.blank in
  (exists error, fst out = Exn error)
  /\ (exists w',
        run Scenario.parse Scenario.stringify
          (Scenario.scripted Desk.stray_script) default_retryConfig 8
          Scenario.A 0%nat (Some 1%nat) default_options Scenario.start
        = (Val (succeed
                  {| messages :=
                       [JObj [("role", JStr "assistant"); ("content", JNull);
                              ("tool_calls",
                               JArr [tool_call "call-1" "search" "not json"]);
                              ("sender", JStr "A")];
                        tool_message (JStr "Error: Tool search not found.")
                          (JStr "call-1");
                        JObj [("role", JStr "assistant");
                              ("content", JStr "done");
                              ("sender", JStr "A")]];
                     agent := Some Scenario.A;
                     contextVariables := JObj [("language", JStr "en")] |}),
           w'))
  /\ fst (Desk.start_script Desk.stray_script Desk.plain_config ["hi"])
     = Exn (ErrorObj "SyntaxError" "Unexpected token in JSON: not json"
              None None).
Proof.
  cbv zeta. split; [|split].
  - apply (unparsable_arguments_stop_the_display Scenario.parse
             Scenario.stringify Desk.accepts_text Desk.distinct
             [user_message "hi"; Desk.stray_call] Desk.stray_call
             (JArr [tool_call "call-1" "search" "not json"])
             [tool_call "call-1" "search" "not json"]
             (tool_call "call-1" "search" "not json")
             (JObj [("name", JStr "search"); ("arguments", JStr "not json")])
             (JStr "search") (JStr "not json")
             (ErrorObj "SyntaxError" "Unexpected token in JSON: not json"
                None None)
             Desk.blank
             (fst (prettyPrintMessages Scenario.parse Scenario.stringify
                     Desk.accepts_text Desk.distinct
                     [user_message "hi"; Desk.stray_call] Desk.blank))
             (snd (prettyPrintMessages Scenario.parse Scenario.stringify
                     Desk.accepts_text Desk.distinct
                     [user_message "hi"; Desk.stray_call] Desk.blank)));
      try reflexivity; cbn; auto.
  - eexists. vm_compute. reflexivity.
  - vm_compute. reflexivity.
Defined.
